(** * Security-Data-Pipeline: the feature-derivation core

    A shallow embedding of [src/feature_engineering.py] and the properties of
    its five stages (severity scorer, user frequency aggregator, user
    daily-rate aggregator, session segmenter, session aggregator).

    The Python code is written against pandas.  The file starts with a small
    model of the pandas operations the source calls (column access and
    assignment, [Series.map], [sort_values] on several keys, grouped
    [transform]/[diff]/[cumsum]/[agg], left [merge]) and transcribes the five
    functions and [run_all] line by line on top of it.  Then come the notions
    the statements are written with, the example tables, and the properties:
    first of the table operations, then of each stage, then of the core.

    Of the pipeline around the core the file embeds the functions that work
    on the table alone: [validate_required_columns], [remove_duplicates] and
    [validate_schema] of [cleaning.py], and [standardize_timestamps] of
    [normalization.py] with the date parser of pandas as a parameter.  The
    text normalisation ([handle_missing_values], [normalize_categoricals])
    and the reading and writing of files in [pipeline.py] are not modelled.

    Modelling conventions
    - a table is a list of rows in positional order plus the ordered list of
      its column names with their dtype; a row is a finite map from column
      name to cell;
    - a datetime cell is the integer number of nanoseconds since the epoch
      (pandas' [datetime64[ns]]), a timedelta cell a number of nanoseconds;
      both are int64 in pandas, and the subtraction of two datetime cells
      raises [OverflowError] when the difference is no int64;
    - a float cell is a binary64 number, held as the rational number it is, in
      lowest terms so that equal numbers are equal cells; [+inf] is a cell of
      its own.  A division and a conversion from an integer round to the
      nearest binary64 number, ties to even ([round64]);
    - a Python exception is a value [Raise e]; the top-level functions record
      the name of the function the exception was raised in. *)

From Stdlib Require Import ZArith QArith Qreduction Qround Qpower Lqa.
From stdpp Require Import gmap strings list sorting.

Local Open Scope Z_scope.

(** ** Cells, rows and tables *)

Inductive value :=
  | VStr (s : string)
  | VInt (n : Z)
  | VFloat (q : Q)
  | VInf
  | VTime (ns : Z)
  | VDelta (ns : Z)
  | VBool (b : bool)
  | VNA.

Inductive dtype := DObject | DString | DInt | DFloat | DBool | DDatetime | DTimedelta.

Global Instance Q_eq_dec : EqDecision Q.
Proof. solve_decision. Defined.
Global Instance value_eq_dec : EqDecision value.
Proof. solve_decision. Defined.
Global Instance dtype_eq_dec : EqDecision dtype.
Proof. solve_decision. Defined.

Abbreviation Row := (gmap string value).

Record DataFrame := mkDF {
  columns : list (string * dtype);
  rows : list Row
}.

(** [row[c]]: a cell that is not there reads as NA. *)
Definition cell (c : string) (r : Row) : value := default VNA (r !! c).

Definition is_na (v : value) : bool :=
  match v with VNA => true | _ => false end.

Definition mkfloat (q : Q) : value := VFloat (Qred q).

(** ** Binary64 numbers

    The float columns of pandas hold IEEE 754 binary64 numbers.  [round64]
    is the rounding of a rational number to the nearest number with 53
    binary digits whose last digit is not below [2^-1074], a tie going to
    the even neighbour.  The stages round numbers of seconds and means of
    counts, which are far below the largest binary64 number. *)

Definition pow2 (k : Z) : Q := Qpower 2 k.

(** [floor (log2 x)] for a positive [x]. *)
Definition ilog2 (x : Q) : Z :=
  let k := Z.log2 (Qnum x) - Z.log2 (Z.pos (Qden x)) in
  if Qle_bool (pow2 k) x then k else k - 1.

(** Rounding to the nearest integer, a tie to the even one. *)
Definition rne (x : Q) : Z :=
  let f := Qfloor x in
  match (x - inject_Z f ?= 1 # 2)%Q with
  | Lt => f
  | Gt => f + 1
  | Eq => if Z.even f then f else f + 1
  end.

(** The exponent of the last binary digit that a binary64 number near the
    positive [x] keeps. *)
Definition last_digit (x : Q) : Z := Z.max (-1074) (ilog2 x - 52).

Definition round_pos (x : Q) : Q :=
  (inject_Z (rne (x / pow2 (last_digit x))) * pow2 (last_digit x))%Q.

Definition round64 (x : Q) : Q :=
  if Qle_bool 0 x then round_pos x else (- round_pos (- x))%Q.

(** [a / b] for two integers in float arithmetic, as numpy divides an int64
    array by an integer: both are converted to binary64 and the quotient is
    rounded. *)
Definition float_div (a b : Z) : Q :=
  round64 (round64 (inject_Z a) / round64 (inject_Z b)).

(** ** Exceptions *)

Inductive exn :=
  | KeyError (c : string)
  | AttributeError (what : string)
  | TypeError (what : string)
  | ValueError (what : string)
  | OverflowError (what : string).

Inductive res (A : Type) :=
  | Ok (a : A)
  | Raise (e : exn).
Arguments Ok {A} a.
Arguments Raise {A} e.

Global Instance res_ret : MRet res := fun A a => Ok a.
Global Instance res_bind : MBind res := fun A B f m =>
  match m with Ok a => f a | Raise e => Raise e end.

(** The outcome of a top-level function: a table, or an exception together
    with the name of the function whose body raised it. *)
Inductive outcome (A : Type) :=
  | Returned (a : A)
  | Raised (fn : string) (e : exn).
Arguments Returned {A} a.
Arguments Raised {A} fn e.

Global Instance outcome_ret : MRet outcome := fun A a => Returned a.
Global Instance outcome_bind : MBind outcome := fun A B f m =>
  match m with Returned a => f a | Raised fn e => Raised fn e end.

Definition body {A} (fn : string) (m : res A) : outcome A :=
  match m with Ok a => Returned a | Raise e => Raised fn e end.

(** ** Series and column access *)

(** A column taken out of a table: its dtype and its cells in row order. *)
Record Series := mkS {
  sdtype : dtype;
  svals : list value
}.

Definition col_names (df : DataFrame) : list string := (columns df).*1.

(** [c in df.columns] *)
Definition has_column (c : string) (df : DataFrame) : bool :=
  bool_decide (c ∈ col_names df).

Fixpoint col_dtype (c : string) (cs : list (string * dtype)) : option dtype :=
  match cs with
  | [] => None
  | (c', dt) :: cs' => if decide (c' = c) then Some dt else col_dtype c cs'
  end.

(** [df[c]] *)
Definition getcol (c : string) (df : DataFrame) : res Series :=
  match col_dtype c (columns df) with
  | Some dt => Ok (mkS dt (cell c <$> rows df))
  | None => Raise (KeyError c)
  end.

Fixpoint set_dtype (c : string) (dt : dtype) (cs : list (string * dtype))
  : list (string * dtype) :=
  match cs with
  | [] => [(c, dt)]
  | (c', dt') :: cs' =>
      if decide (c' = c) then (c, dt) :: cs' else (c', dt') :: set_dtype c dt cs'
  end.

(** [df[c] = s]: an existing column is overwritten in place, a new one is
    appended.  The series always comes from the same table, so the lengths
    agree. *)
Definition setcol (c : string) (s : Series) (df : DataFrame) : DataFrame :=
  {| columns := set_dtype c (sdtype s) (columns df);
     rows := zip_with (λ r v, <[c := v]> r) (rows df) (svals s) |}.

(** The first of the names [cs] that is not a column of the table. *)
Definition missing_column (cs : list string) (df : DataFrame) : option string :=
  snd <$> list_find (λ c, c ∉ col_names df) cs.

(** [df.drop(columns=cs)] *)
Definition drop_columns (cs : list string) (df : DataFrame) : res DataFrame :=
  match missing_column cs df with
  | Some c => Raise (KeyError c)
  | None =>
      Ok {| columns := filter (λ cd, cd.1 ∉ cs) (columns df);
            rows := (λ r, foldr delete r cs) <$> rows df |}
  end.

(** [df[[c1, ..., cn]]]: a table with exactly the columns [cs]. *)
Definition select_columns (cs : list string) (df : DataFrame) : res DataFrame :=
  match missing_column cs df with
  | Some c => Raise (KeyError c)
  | None =>
      Ok {| columns := (λ c, (c, default DObject (col_dtype c (columns df)))) <$> cs;
            rows := (λ r, list_to_map ((λ c, (c, cell c r)) <$> cs)) <$> rows df |}
  end.

(** ** Element-wise series operations *)

(** [Series.map(d)]: a value that is not a key of the dictionary maps to NaN. *)
Definition series_map (d : gmap string Z) (s : Series) : Series :=
  mkS DFloat
    ((λ v, match v with
           | VStr k => match d !! k with Some n => VInt n | None => VNA end
           | _ => VNA
           end) <$> svals s).

(** [Series.astype("Float64")]: numbers become nullable floats, NaN becomes
    [<NA>]. *)
Definition to_Float64 (v : value) : res value :=
  match v with
  | VInt n => Ok (mkfloat (inject_Z n))
  | VFloat q => Ok (VFloat q)
  | VInf => Ok VInf
  | VBool b => Ok (mkfloat (if b then 1 else 0)%Q)
  | VNA => Ok VNA
  | _ => Raise (ValueError "astype Float64")
  end.

Definition astype_Float64 (s : Series) : res Series :=
  vs ← mapM to_Float64 (svals s); Ok (mkS DFloat vs).

(** [Series.astype(int)]: a missing value cannot be converted. *)
Definition to_int (v : value) : res value :=
  match v with
  | VInt n => Ok (VInt n)
  | VBool b => Ok (VInt (if b then 1 else 0))
  | _ => Raise (ValueError "astype int")
  end.

Definition astype_int (s : Series) : res Series :=
  vs ← mapM to_int (svals s); Ok (mkS DInt vs).

Definition ns_per_second : Z := 1000000000.
Definition ns_per_day : Z := 86400 * ns_per_second.

(** A number of nanoseconds as a number of seconds:
    [asi8 / 1_000_000_000] in float arithmetic. *)
Definition float_seconds (ns : Z) : Q := float_div ns ns_per_second.

(** [Series.dt.floor("D")]: only datetime columns have the [.dt] accessor. *)
Definition floor_day (v : value) : value :=
  match v with
  | VTime ns => VTime (ns `div` ns_per_day * ns_per_day)
  | _ => VNA
  end.

Definition dt_floor_D (s : Series) : res Series :=
  if decide (sdtype s = DDatetime)
  then Ok (mkS DDatetime (floor_day <$> svals s))
  else Raise (AttributeError "dt").

(** [Series.dt.total_seconds()] of a timedelta column. *)
Definition total_seconds (v : value) : value :=
  match v with
  | VDelta ns => mkfloat (float_seconds ns)
  | _ => VNA
  end.

Definition dt_total_seconds (s : Series) : res Series :=
  if decide (sdtype s = DTimedelta)
  then Ok (mkS DFloat (total_seconds <$> svals s))
  else Raise (AttributeError "dt").

(** [Series.fillna(np.inf)] *)
Definition fillna_inf (s : Series) : Series :=
  mkS (sdtype s) ((λ v, if is_na v then VInf else v) <$> svals s).

(** [series > n] for an integer [n]: the integer is converted to binary64; a
    comparison with NaN is false. *)
Definition gt_scalar (n : Z) (v : value) : bool :=
  match v with
  | VFloat q => negb (Qle_bool q (round64 (inject_Z n)))
  | VInt m => bool_decide (n < m)
  | VInf => true
  | _ => false
  end.

Definition series_gt (s : Series) (n : Z) : Series :=
  mkS DBool ((λ v, VBool (gt_scalar n v)) <$> svals s).

(** The numbers of nanoseconds that a timedelta cell can hold: the int64
    numbers other than [-2^63], which stands for the missing value. *)
Definition fits_int64 (n : Z) : bool := bool_decide (- 2 ^ 63 < n < 2 ^ 63).

(** pandas subtracts two datetime cells as int64 numbers and checks the
    result: a difference that is no int64 raises [OverflowError]. *)
Definition check_int64 (v : value) : res value :=
  match v with
  | VDelta ns =>
      if fits_int64 ns then Ok v else Raise (OverflowError "Overflow in int64 addition")
  | _ => Ok v
  end.

(** [a - b] for two datetime cells or two timedelta cells, before the
    check; a missing operand gives a missing difference. *)
Definition delta (a b : value) : value :=
  match a, b with
  | VTime x, VTime y => VDelta (x - y)
  | VDelta x, VDelta y => VDelta (x - y)
  | _, _ => VNA
  end.

(** [a - b] on two aligned datetime columns. *)
Definition series_sub (a b : Series) : res Series :=
  if decide ((sdtype a = DDatetime ∧ sdtype b = DDatetime)
             ∨ (sdtype a = DTimedelta ∧ sdtype b = DTimedelta))
  then vs ← mapM check_int64 (zip_with delta (svals a) (svals b));
       Ok (mkS DTimedelta vs)
  else Raise (TypeError "unsupported operand").

(** ** Ordering of cells and of sort keys *)

(** Cells of one column share a dtype, so only the comparisons between cells
    of the same kind matter; cells of different kinds are ordered by kind so
    that the order is total, with missing values last ([na_position="last"]).
    Strings compare by code point. *)
Definition rank (v : value) : Z :=
  match v with
  | VBool _ => 0 | VInt _ => 1 | VFloat _ => 2 | VInf => 3
  | VStr _ => 4 | VTime _ => 5 | VDelta _ => 6 | VNA => 7
  end.

Definition value_leb (a b : value) : bool :=
  match a, b with
  | VStr x, VStr y => String.leb x y
  | VInt x, VInt y => x <=? y
  | VFloat x, VFloat y => Qle_bool x y
  | VTime x, VTime y => x <=? y
  | VDelta x, VDelta y => x <=? y
  | VBool x, VBool y => implb x y
  | _, _ => rank a <=? rank b
  end.

(** Lexicographic comparison of two key tuples. *)
Fixpoint keys_leb (a b : list value) : bool :=
  match a, b with
  | [], _ => true
  | _ :: _, [] => false
  | x :: a', y :: b' =>
      if negb (value_leb y x) then true
      else if negb (value_leb x y) then false
      else keys_leb a' b'
  end.

(** The key tuple of a row for the key columns [bys]. *)
Definition key_of (bys : list string) (r : Row) : list value :=
  (λ c, cell c r) <$> bys.

Definition key_na (k : list value) : bool := existsb is_na k.

(** ** Stable sorting *)

Section stable_sort.
Context {A : Type} (le : A → A → bool).

(** [x] goes in front of the first element it is not greater than, so it
    stays in front of the elements it ties with. *)
Fixpoint insert_sorted (x : A) (l : list A) : list A :=
  match l with
  | [] => [x]
  | y :: l' => if le x y then x :: y :: l' else y :: insert_sorted x l'
  end.

Definition stable_sort (l : list A) : list A := foldr insert_sorted [] l.
End stable_sort.

Definition row_leb (bys : list string) (r1 r2 : Row) : bool :=
  keys_leb (key_of bys r1) (key_of bys r2).

(** [df.sort_values(bys)] with several key columns: pandas sorts on the tuple
    of keys with a stable lexicographic sort. *)
Definition sort_values (bys : list string) (df : DataFrame) : res DataFrame :=
  match missing_column bys df with
  | Some c => Raise (KeyError c)
  | None => Ok {| columns := columns df; rows := stable_sort (row_leb bys) (rows df) |}
  end.

(** ** Grouped operations *)

Section grouped.
Context {K : Type} `{EqDecision K}.

(** For each position, the element at the closest earlier position with the
    same key ([seen] holds the earlier elements, most recent first). *)
Fixpoint group_shift {A} (seen : list (K * A)) (l : list (K * A)) : list (option A) :=
  match l with
  | [] => []
  | (k, x) :: l' =>
      (snd <$> find (λ p, bool_decide (p.1 = k)) seen) :: group_shift ((k, x) :: seen) l'
  end.

(** For each position, the number of [true] at this and the earlier
    positions with the same key ([acc] holds the running totals). *)
Fixpoint group_cumsum (acc : K → Z) (l : list (K * bool)) : list Z :=
  match l with
  | [] => []
  | (k, b) :: l' =>
      let n := acc k + (if b then 1 else 0) in
      n :: group_cumsum (λ k', if decide (k' = k) then n else acc k') l'
  end.
End grouped.

(** [diff] subtracts from every cell the cell of the previous row of its
    group, [shift]ed into place; the first row of a group has none. *)
Definition delta_prev (a : value) (b : option value) : value :=
  match b with Some b => delta a b | None => VNA end.

(** The same for a column of numbers: the difference is a float. *)
Definition number_diff (a : value) (b : option value) : value :=
  match a, b with
  | VInt x, Some (VInt y) =>
      mkfloat (round64 (round64 (inject_Z x) - round64 (inject_Z y)))
  | VFloat x, Some (VFloat y) => mkfloat (round64 (x - y))
  | _, _ => VNA
  end.

(** The same for a column of Python objects: pandas subtracts the pairs in
    which neither cell is missing, and Python has no [-] for text. *)
Definition object_diff (a : value) (b : option value) : res value :=
  match a, b with
  | VNA, _ | _, None | _, Some VNA => Ok VNA
  | VStr _, Some _ | _, Some (VStr _) =>
      Raise (TypeError "unsupported operand type(s) for -")
  | _, Some _ => Ok (number_diff a b)
  end.

(** The differences of a column within its groups: rows whose key is missing
    are in no group. *)
Definition group_diffs {B} (na : B) (f : value → option value → B)
    (keys : list (list value)) (vs : list value) : list B :=
  zip_with (λ kv p, if key_na kv.1 then na else f kv.2 p)
    (zip keys vs) (group_shift [] (zip keys vs)).

(** [df.groupby(bys)[c].diff()] *)
Definition groupby_diff (bys : list string) (c : string) (df : DataFrame) : res Series :=
  match missing_column bys df with
  | Some c' => Raise (KeyError c')
  | None =>
      s ← getcol c df;
      let keys := key_of bys <$> rows df in
      match sdtype s with
      | DDatetime | DTimedelta =>
          vs ← mapM check_int64 (group_diffs VNA delta_prev keys (svals s));
          Ok (mkS DTimedelta vs)
      | DInt | DFloat => Ok (mkS DFloat (group_diffs VNA number_diff keys (svals s)))
      | DObject | DString | DBool =>
          vs ← mapM id (group_diffs (Ok VNA) object_diff keys (svals s));
          Ok (mkS DObject vs)
      end
  end.

Definition as_bool (v : value) : bool :=
  match v with VBool b => b | _ => false end.

(** [s.groupby(keys).cumsum()] of a boolean series. *)
Definition groupby_cumsum (keys : Series) (s : Series) : Series :=
  mkS DInt
    (zip_with (λ k n, if is_na k then VNA else VInt n) (svals keys)
       (group_cumsum (λ _, 0) (zip (svals keys) (as_bool <$> svals s)))).

(** The number of non-missing cells of [c] in the group of the row [r]. *)
Definition group_count (bys : list string) (c : string) (rs : list Row) (r : Row) : Z :=
  Z.of_nat (length (filter (λ r', key_of bys r' = key_of bys r ∧ cell c r' ≠ VNA) rs)).

(** The cell of [transform("count")] for the row [r].  A row whose key is
    missing is in no group and gets NaN, and a column with a NaN is a float
    column: then the counts of the other rows are floats as well. *)
Definition transform_count_cell (bys : list string) (c : string) (rs : list Row)
    (r : Row) : value :=
  if key_na (key_of bys r) then VNA
  else if existsb (λ r', key_na (key_of bys r')) rs
       then mkfloat (round64 (inject_Z (group_count bys c rs r)))
       else VInt (group_count bys c rs r).

Definition transform_count_dtype (bys : list string) (rs : list Row) : dtype :=
  if existsb (λ r', key_na (key_of bys r')) rs then DFloat else DInt.

(** [df.groupby(bys)[c].transform("count")] *)
Definition groupby_transform_count (bys : list string) (c : string) (df : DataFrame)
  : res Series :=
  match missing_column bys df with
  | Some c' => Raise (KeyError c')
  | None =>
      _ ← getcol c df;
      Ok (mkS (transform_count_dtype bys (rows df))
            (transform_count_cell bys c (rows df) <$> rows df))
  end.

(** ** Aggregation *)

Inductive aggfun := AggCount | AggMin | AggMax | AggMean.

Definition sum_ints (vs : list value) : Z :=
  foldr (λ v acc, match v with VInt n => n + acc | _ => acc end) 0 vs.

(** [count], [min], [max] and [mean] skip the missing cells.  The mean of a
    column of integers is the float quotient of their sum and their number. *)
Definition apply_agg (f : aggfun) (vs : list value) : value :=
  let present := filter (λ v, v ≠ VNA) vs in
  match f, present with
  | AggCount, _ => VInt (Z.of_nat (length present))
  | _, [] => VNA
  | AggMin, v :: vs' => foldr (λ a b, if value_leb a b then a else b) v vs'
  | AggMax, v :: vs' => foldr (λ a b, if value_leb a b then b else a) v vs'
  | AggMean, _ => mkfloat (float_div (sum_ints present) (Z.of_nat (length present)))
  end.

Definition agg_dtype (f : aggfun) (dt : dtype) : dtype :=
  match f with AggCount => DInt | AggMean => DFloat | _ => dt end.

(** The distinct keys of a table, sorted ([groupby] sorts its groups and
    leaves out the rows with a missing key). *)
Definition group_keys (bys : list string) (rs : list Row) : list (list value) :=
  stable_sort keys_leb
    (remove_dups (filter (λ k, key_na k = false) (key_of bys <$> rs))).

Definition group_rows (bys : list string) (k : list value) (rs : list Row) : list Row :=
  filter (λ r, key_of bys r = k) rs.

(** One output row per group: the key cells, then one cell per reduction. *)
Definition reduce_row (bys : list string)
    (outs : list (string * dtype * (list Row → value))) (rs : list Row)
    (k : list value) : Row :=
  list_to_map (zip bys k ++ ((λ o, (o.1.1, o.2 (group_rows bys k rs))) <$> outs)).

Definition groupby_reduce (bys : list string)
    (outs : list (string * dtype * (list Row → value))) (df : DataFrame) : DataFrame :=
  {| columns :=
       ((λ c, (c, default DObject (col_dtype c (columns df)))) <$> bys)
       ++ ((λ o, (o.1.1, o.1.2)) <$> outs);
     rows := reduce_row bys outs (rows df) <$> group_keys bys (rows df) |}.

(** [df.groupby(bys, as_index=False).size()] *)
Definition groupby_size (bys : list string) (df : DataFrame) : res DataFrame :=
  match missing_column bys df with
  | Some c => Raise (KeyError c)
  | None => Ok (groupby_reduce bys [("size", DInt, λ g, VInt (Z.of_nat (length g)))] df)
  end.

(** [df.groupby(bys).agg(out=(src, how), ...).reset_index()] *)
Definition groupby_agg (bys : list string) (specs : list (string * string * aggfun))
    (df : DataFrame) : res DataFrame :=
  match missing_column (bys ++ ((λ s, s.1.2) <$> specs)) df with
  | Some c => Raise (KeyError c)
  | None =>
      Ok (groupby_reduce bys
            ((λ s, (s.1.1,
                    agg_dtype s.2 (default DObject (col_dtype s.1.2 (columns df))),
                    λ g, apply_agg s.2 (cell s.1.2 <$> g))) <$> specs) df)
  end.

(** ** Renaming and joining *)

Definition rename_row (f : string → string) (r : Row) : Row :=
  list_to_map ((λ kv, (f kv.1, kv.2)) <$> map_to_list r).

(** [df.rename(columns={old: new})] *)
Definition rename_columns (old new : string) (df : DataFrame) : DataFrame :=
  let f := λ c, if decide (c = old) then new else c in
  {| columns := (λ cd, (f cd.1, cd.2)) <$> columns df;
     rows := rename_row f <$> rows df |}.

Definition suffix_if (cs : list string) (sfx : string) (c : string) : string :=
  if decide (c ∈ cs) then c +:+ sfx else c.

(** [left.merge(right, on=on, how="left")]: every left row, in the order of
    the left table, once for each right row with the same key, or once with
    missing values when there is none.  A column name that both tables have
    outside the key gets the suffixes [_x] and [_y]. *)
Definition merge_left (on : list string) (left right : DataFrame) : res DataFrame :=
  match missing_column on right, missing_column on left with
  | Some c, _ | None, Some c => Raise (KeyError c)
  | None, None =>
      let overlap := filter (λ c, c ∈ col_names right ∧ c ∉ on) (col_names left) in
      let fl := suffix_if overlap "_x" in
      let fr := suffix_if overlap "_y" in
      let rcols := filter (λ cd, cd.1 ∉ on) (columns right) in
      let na_row : Row := list_to_map ((λ cd, (fr cd.1, VNA)) <$> rcols) in
      Ok {| columns := ((λ cd, (fl cd.1, cd.2)) <$> columns left)
                       ++ ((λ cd, (fr cd.1, cd.2)) <$> rcols);
            rows := rows left ≫= λ l,
              let l' := rename_row fl l in
              match filter (λ r, key_of on r = key_of on l) (rows right) with
              | [] => [l' ∪ na_row]
              | ms => (λ r, l' ∪ rename_row fr (foldr delete r on)) <$> ms
              end |}
  end.

(** * The five stages of [feature_engineering.py] *)

(** ** Severity Scorer *)

Definition sev_to_score : gmap string Z :=
  {[ "info" := 0; "low" := 1; "medium" := 2; "high" := 3; "critical" := 4 ]}.

Definition add_severity_score (df : DataFrame) : outcome DataFrame :=
  body "add_severity_score" (
    sev ← getcol "severity" df;
    score ← astype_Float64 (series_map sev_to_score sev);
    Ok (setcol "severity_score" score df)).

(** ** User Frequency Aggregator *)

Definition add_user_event_frequency (df : DataFrame) : outcome DataFrame :=
  if negb (has_column "user_id" df) then Returned df
  else body "add_user_event_frequency" (
    cnt ← groupby_transform_count ["user_id"] "event_id" df;
    Ok (setcol "user_event_count_total" cnt df)).

(** ** User Daily-Rate Aggregator *)

(** [pd.api.types.is_datetime64_any_dtype(df[c])] *)
Definition is_datetime64_any_dtype (c : string) (df : DataFrame) : bool :=
  bool_decide (col_dtype c (columns df) = Some DDatetime).

Definition add_user_activity_baseline (df : DataFrame) : outcome DataFrame :=
  if negb (has_column "timestamp" df) || negb (is_datetime64_any_dtype "timestamp" df)
  then Returned df
  else body "add_user_activity_baseline" (
    tmp ← select_columns ["user_id"; "timestamp"] df;
    ts ← getcol "timestamp" tmp;
    date ← dt_floor_D ts;
    let tmp := setcol "date" date tmp in
    daily_counts ← groupby_size ["user_id"; "date"] tmp;
    avg ← groupby_agg ["user_id"] [("size", "size", AggMean)] daily_counts;
    let avg_per_user := rename_columns "size" "user_daily_avg_events" avg in
    df ← merge_left ["user_id"] df avg_per_user;
    avg_col ← getcol "user_daily_avg_events" df;
    avg_col ← astype_Float64 avg_col;
    Ok (setcol "user_daily_avg_events" avg_col df)).

(** ** Session Segmenter and Session Aggregator *)

Definition add_session_features (df : DataFrame) (gap_minutes : Z) : outcome DataFrame :=
  if negb (has_column "timestamp" df) then Returned df
  else body "add_session_features" (
    df ← sort_values ["user_id"; "timestamp"] df;
    let gap_seconds := gap_minutes * 60 in
    d ← groupby_diff ["user_id"] "timestamp" df;
    secs ← dt_total_seconds d;
    let df := setcol "_time_diff_sec" (fillna_inf secs) df in
    time_diff_sec ← getcol "_time_diff_sec" df;
    let new_session := series_gt time_diff_sec gap_seconds in
    user ← getcol "user_id" df;
    sid ← astype_int (groupby_cumsum user new_session);
    let df := setcol "session_id" sid df in
    df ← drop_columns ["_time_diff_sec"] df;
    sess_stats ← groupby_agg ["user_id"; "session_id"]
                   [("session_event_count", "event_id", AggCount);
                    ("session_start", "timestamp", AggMin);
                    ("session_end", "timestamp", AggMax)] df;
    s_end ← getcol "session_end" sess_stats;
    s_start ← getcol "session_start" sess_stats;
    dur ← series_sub s_end s_start;
    dur ← dt_total_seconds dur;
    dur ← astype_Float64 dur;
    let sess_stats := setcol "session_duration_seconds" dur sess_stats in
    sess_stats ← drop_columns ["session_start"; "session_end"] sess_stats;
    merge_left ["user_id"; "session_id"] df sess_stats).

(** ** The core *)

Definition run_all (df : DataFrame) (gap_minutes : Z) : outcome DataFrame :=
  df ← add_severity_score df;
  df ← add_user_event_frequency df;
  df ← add_user_activity_baseline df;
  df ← add_session_features df gap_minutes;
  Returned df.

(** * The grouped computations on one group alone

    The running computations that the segmenter performs for all users at once,
    written for the time-ordered rows of a single user; the lemmas below show
    that the grouped operations compute exactly these on every group. *)

Fixpoint shift_from {A} (prev : option A) (l : list A) : list (option A) :=
  match l with
  | [] => []
  | x :: l' => prev :: shift_from (Some x) l'
  end.

Fixpoint cumsum_from (a : Z) (bs : list bool) : list Z :=
  match bs with
  | [] => []
  | b :: bs' => let n := a + (if b then 1 else 0) in n :: cumsum_from n bs'
  end.

(** * Valid inputs

    What the core may assume of its input (spec, data model): the consumed
    columns are there, [timestamp] is a datetime column, every [user_id] is a
    string, every [timestamp] a point in time, no [event_id] is missing, and
    the names of the columns the core adds are not in use.  The session
    stages subtract timestamps: for them every timestamp lies within [2^62]
    nanoseconds of the epoch (the years 1824 to 2116), so that the difference
    of any two is an int64. *)

Definition is_str (v : value) : bool :=
  match v with VStr _ => true | _ => false end.

Definition is_time (v : value) : bool :=
  match v with VTime _ => true | _ => false end.

Definition session_names : list string :=
  ["session_id"; "session_event_count"; "session_duration_seconds"; "_time_diff_sec"].

Definition derived_names : list string :=
  ["severity_score"; "user_event_count_total"; "user_daily_avg_events"] ++ session_names.

Definition valid_row (fresh : list string) (r : Row) : bool :=
  is_str (cell "user_id" r) && is_time (cell "timestamp" r)
  && negb (is_na (cell "event_id" r))
  && forallb (λ c, bool_decide (r !! c = None)) fresh.

Definition valid_table (fresh : list string) (df : DataFrame) : bool :=
  is_datetime64_any_dtype "timestamp" df
  && has_column "user_id" df && has_column "event_id" df
  && forallb (λ c, negb (has_column c df)) fresh
  && forallb (valid_row fresh) (rows df).

(** A point in time within [2^62] nanoseconds of the epoch. *)
Definition in_range (v : value) : bool :=
  match v with
  | VTime t => bool_decide (- 2 ^ 62 ≤ t < 2 ^ 62)
  | _ => false
  end.

Definition times_in_range (df : DataFrame) : bool :=
  forallb (λ r, in_range (cell "timestamp" r)) (rows df).

(** What [add_user_activity_baseline] needs of its input: it reads [user_id]
    and [timestamp] only. *)
Definition user_time_row (fresh : list string) (r : Row) : bool :=
  is_str (cell "user_id" r) && is_time (cell "timestamp" r)
  && forallb (λ c, bool_decide (r !! c = None)) fresh.

Definition user_time_table (fresh : list string) (df : DataFrame) : bool :=
  is_datetime64_any_dtype "timestamp" df && has_column "user_id" df
  && forallb (λ c, negb (has_column c df)) fresh
  && forallb (user_time_row fresh) (rows df).

Definition baseline_ready (df : DataFrame) : bool :=
  user_time_table ["user_daily_avg_events"] df && times_in_range df.

(** What [add_session_features] needs of its input. *)
Definition session_ready (df : DataFrame) : bool :=
  valid_table session_names df && times_in_range df.

(** What [run_all] needs of its input. *)
Definition valid_input (df : DataFrame) : bool :=
  has_column "severity" df && valid_table derived_names df && times_in_range df.

(** The gaps for which line 79 compares with an int64 number of seconds. *)
Definition gap_ok (gap_minutes : Z) : bool := fits_int64 (gap_minutes * 60).


(** * The working tables of [add_session_features] *)

(** The flag of line 79 for one row, given the timestamp of the user's
    previous row: difference, [total_seconds], [fillna(inf)], comparison. *)
Definition starts_session (gap_seconds : Z) (r : Row) (prev : option value) : bool :=
  let secs := total_seconds (delta_prev (cell "timestamp" r) prev) in
  gt_scalar gap_seconds (if is_na secs then VInf else secs).

Definition session_flags (gap_seconds : Z) (rs : list Row) : list bool :=
  zip_with (starts_session gap_seconds) rs
    (group_shift [] ((λ r, (key_of ["user_id"] r, cell "timestamp" r)) <$> rs)).

Definition session_ids (gap_seconds : Z) (rs : list Row) : list Z :=
  group_cumsum (λ _, 0) (zip (cell "user_id" <$> rs) (session_flags gap_seconds rs)).

(** The table after line 82: sorted, with [session_id]. *)
Definition segmented (gap_minutes : Z) (rs : list Row) : list Row :=
  let srt := stable_sort (row_leb ["user_id"; "timestamp"]) rs in
  zip_with (λ r n, <["session_id" := VInt n]> r) srt (session_ids (gap_minutes * 60) srt).

(** The two cells that line 93 joins onto a row of the segmented table. *)
Definition session_stats (rs : list Row) (r : Row) : Row :=
  let g := group_rows ["user_id"; "session_id"] (key_of ["user_id"; "session_id"] r) rs in
  {[ "session_event_count" := apply_agg AggCount (cell "event_id" <$> g);
     "session_duration_seconds" :=
       total_seconds (delta (apply_agg AggMax (cell "timestamp" <$> g))
                            (apply_agg AggMin (cell "timestamp" <$> g))) ]}.

(** The session ids of one user's time-ordered rows, computed on their own. *)
Definition user_session_ids (gap_seconds : Z) (g : list Row) : list Z :=
  cumsum_from 0
    (zip_with (starts_session gap_seconds) g (shift_from None (cell "timestamp" <$> g))).

(** * Notions used in the statements *)

(** The UTC calendar day of a point in time: the number of whole days of
    86400 seconds that have passed since the epoch (negative before it). *)
Definition day_number (t : Z) : Z := t `div` (86400 * 1000000000).

Definition day_of (r : Row) : option Z :=
  match cell "timestamp" r with
  | VTime t => Some (day_number t)
  | _ => None
  end.

(** The rows of one user, in table order. *)
Definition rows_of_user (u : string) (rs : list Row) : list Row :=
  filter (λ r, cell "user_id" r = VStr u) rs.

(** The rows of one session of one user, in table order. *)
Definition rows_of_session (u : value) (sid : value) (rs : list Row) : list Row :=
  filter (λ r, cell "user_id" r = u ∧ cell "session_id" r = sid) rs.

(** The distinct calendar days on which the user [u] has an event, and the
    number of events of [u] on the day [d]. *)
Definition days_of (u : string) (rs : list Row) : list Z :=
  remove_dups (omap day_of (rows_of_user u rs)).

Definition events_on_day (u : string) (d : Z) (rs : list Row) : nat :=
  length (filter (λ r, day_of r = Some d) (rows_of_user u rs)).

(** A list of rows is in time order. *)
Definition chronological (g : list Row) : Prop :=
  ∀ i j r1 r2, (i < j)%nat → g !! i = Some r1 → g !! j = Some r2 →
    ∃ t1 t2, cell "timestamp" r1 = VTime t1 ∧ cell "timestamp" r2 = VTime t2 ∧ t1 ≤ t2.

(** The distinct numbers of a list in the order of their first occurrence
    ([seen]: the numbers met so far). *)
Fixpoint first_occurrences (seen l : list Z) : list Z :=
  match l with
  | [] => []
  | x :: l' =>
      if decide (x ∈ seen) then first_occurrences seen l'
      else x :: first_occurrences (x :: seen) l'
  end.

(** [r'] has the cells of [r] in the columns [cs]. *)
Definition agrees_on (cs : list string) (r r' : Row) : Prop :=
  ∀ c, c ∈ cs → r' !! c = r !! c.

(** [rs'] holds the rows [rs], each with its cells in the columns [cs],
    sorted by user and then by timestamp; rows with the same user and the
    same timestamp are in the order they have in [rs]. *)
Definition sorted_rows_of (cs : list string) (rs rs' : list Row) : Prop :=
  ∃ sorted,
    sorted ≡ₚ rs ∧
    StronglySorted (λ r1 r2, row_leb ["user_id"; "timestamp"] r1 r2 = true) sorted ∧
    (∀ u t, filter (λ r, cell "user_id" r = u ∧ cell "timestamp" r = t) sorted =
            filter (λ r, cell "user_id" r = u ∧ cell "timestamp" r = t) rs) ∧
    Forall2 (agrees_on cs) sorted rs'.

(** The row that [add_session_features] returns for the row [r] of the sorted
    table to which the segmenter gave the session id [n]. *)
Definition attach_session (rs : list Row) (r : Row) (n : Z) : Row :=
  <["session_id" := VInt n]> r ∪ session_stats rs (<["session_id" := VInt n]> r).

(** * Example tables *)

Definition input_columns : list (string * dtype) :=
  [("event_id", DString); ("timestamp", DDatetime); ("user_id", DString);
   ("severity", DString)].

(** An event at [secs] seconds after the epoch. *)
Definition event (id user : string) (secs : Z) (sev : string) : Row :=
  {[ "event_id" := VStr id; "timestamp" := VTime (secs * ns_per_second);
     "user_id" := VStr user; "severity" := VStr sev ]}.

(** One user with events at 00:00, 00:20 and 01:05. *)
Definition scenario_table : DataFrame :=
  mkDF input_columns
    [event "e1" "u" 0 "info"; event "e2" "u" 1200 "high"; event "e3" "u" 3900 "low"].

(** One user with a single event. *)
Definition single_event_table : DataFrame :=
  mkDF input_columns [event "e1" "u" 0 "info"].

(** One user with events 1800 s and then 1801 s apart. *)
Definition boundary_table : DataFrame :=
  mkDF input_columns
    [event "e1" "u" 0 "info"; event "e2" "u" 1800 "info"; event "e3" "u" 3601 "info"].

(** An event at [ns] nanoseconds after the epoch. *)
Definition event_ns (id user : string) (ns : Z) (sev : string) : Row :=
  {[ "event_id" := VStr id; "timestamp" := VTime ns;
     "user_id" := VStr user; "severity" := VStr sev ]}.

(** One user with events 1800 s and then 1800 s and one nanosecond apart. *)
Definition nanosecond_table : DataFrame :=
  mkDF input_columns
    [event_ns "e1" "u" 0 "info"; event_ns "e2" "u" 1800000000000 "info";
     event_ns "e3" "u" 3600000000001 "info"].

(** One user with three events within a tenth of a second. *)
Definition tenth_table : DataFrame :=
  mkDF input_columns
    [event_ns "e1" "u" 0 "info"; event_ns "e2" "u" 50000000 "info";
     event_ns "e3" "u" 100000000 "info"].

(** One user with two events 18000000 s and one nanosecond apart: one
    nanosecond more than a gap of 300000 minutes. *)
Definition long_gap_table : DataFrame :=
  mkDF input_columns
    [event_ns "e1" "u" 0 "info"; event_ns "e2" "u" 18000000000000001 "info"].

(** Two events of one user and, between them, an event without a user. *)
Definition missing_user_table : DataFrame :=
  mkDF input_columns
    [event "e1" "u" 0 "info";
     <["user_id" := VNA]> (event "e2" "u" 60 "info");
     event "e3" "u" 120 "info"].

(** Two users; the user of the first row sorts after the user of the second. *)
Definition two_user_table : DataFrame :=
  mkDF input_columns [event "e1" "bob" 0 "info"; event "e2" "alice" 60 "low"].

(** One user with two events at the same instant, and a second user. *)
Definition tied_table : DataFrame :=
  mkDF input_columns
    [event "e2" "u" 0 "info"; event "e1" "u" 0 "low"; event "e3" "a" 5 "high"].

(** No [timestamp] column. *)
Definition no_timestamp_table : DataFrame :=
  mkDF [("event_id", DString); ("user_id", DString); ("severity", DString)]
    [{[ "event_id" := VStr "e1"; "user_id" := VStr "u"; "severity" := VStr "info" ]}].

(** A datetime [timestamp] column but no [user_id] column. *)
Definition no_user_table : DataFrame :=
  mkDF [("event_id", DString); ("timestamp", DDatetime); ("severity", DString)]
    [{[ "event_id" := VStr "e1"; "timestamp" := VTime 0; "severity" := VStr "info" ]}].

(** No column at all. *)
Definition empty_table : DataFrame := mkDF [] [].

(** The severities of the example of the spec. *)
Definition severity_table : DataFrame :=
  mkDF input_columns
    [event "e1" "u" 0 "info"; event "e2" "u" 1 "high"; event "e3" "u" 2 "unknown";
     event "e4" "u" 3 "critical"].

(** The cell that [add_severity_score] computes from a severity cell:
    [map] followed by [astype("Float64")]. *)
Definition score_cell (v : value) : value :=
  match v with
  | VStr k => match sev_to_score !! k with Some n => mkfloat (inject_Z n) | None => VNA end
  | _ => VNA
  end.

(** * The working tables of [add_user_activity_baseline] *)

(** [tmp] after line 52: user, timestamp and day of every row. *)
Definition with_date (rs : list Row) : list Row :=
  (λ r, <["date" := floor_day (cell "timestamp" r)]>
          (<["user_id" := cell "user_id" r]> (<["timestamp" := cell "timestamp" r]> ∅)))
  <$> rs.

(** [daily_counts] of line 53: one row per (user, day) with its number of
    events. *)
Definition daily_counts_rows (rs : list Row) : list Row :=
  reduce_row ["user_id"; "date"] [("size", DInt, λ g, VInt (Z.of_nat (length g)))]
    (with_date rs)
  <$> group_keys ["user_id"; "date"] (with_date rs).

(** The mean of line 54 for the user [v]. *)
Definition user_mean (rs : list Row) (v : value) : value :=
  apply_agg AggMean (cell "size" <$> group_rows ["user_id"] [v] (daily_counts_rows rs)).

(** The days on which a user has an event, and the number of the user's
    events on one day, as [tmp] has them: a day is the [date] cell. *)
Definition active_days (u : string) (rs : list Row) : list value :=
  remove_dups ((λ r, floor_day (cell "timestamp" r)) <$> rows_of_user u rs).

Definition events_on (u : string) (d : value) (rs : list Row) : nat :=
  length (filter (λ r, cell "user_id" r = VStr u ∧ floor_day (cell "timestamp" r) = d) rs).

(** User U1 with three events on one day and one on the next; user U2 with
    two events on a single day. *)
Definition daily_table : DataFrame :=
  mkDF input_columns
    [event "e1" "u1" 100 "info"; event "e2" "u2" 50 "low"; event "e3" "u1" 200 "info";
     event "e4" "u1" 86500 "high"; event "e5" "u1" 300 "info"; event "e6" "u2" 700 "low"].

(** One user with four events on three days. *)
Definition three_day_table : DataFrame :=
  mkDF input_columns
    [event "e1" "u" 0 "info"; event "e2" "u" 100 "info"; event "e3" "u" 86400 "info";
     event "e4" "u" 172800 "info"].

(** * The cells that the first three stages add *)

(** The cell of line 38 for the row [r] of a table with the rows [rs]. *)
Definition user_event_count (rs : list Row) (r : Row) : value :=
  transform_count_cell ["user_id"] "event_id" rs r.

(** A row of the input with the three cells that [add_severity_score],
    [add_user_event_frequency] and [add_user_activity_baseline] give it. *)
Definition with_user_features (rs : list Row) (r : Row) : Row :=
  <["user_daily_avg_events" := user_mean rs (cell "user_id" r)]>
    (<["user_event_count_total" := user_event_count rs r]>
       (<["severity_score" := score_cell (cell "severity" r)]> r)).

(** The columns that [add_session_features] appends. *)
Definition session_columns : list (string * dtype) :=
  [("session_id", DInt); ("session_event_count", DInt);
   ("session_duration_seconds", DFloat)].

(** The columns that [run_all] appends, in the order in which the stages add
    them. *)
Definition derived_columns : list (string * dtype) :=
  [("severity_score", DFloat); ("user_event_count_total", DInt);
   ("user_daily_avg_events", DFloat); ("session_id", DInt);
   ("session_event_count", DInt); ("session_duration_seconds", DFloat)].

(** A [TypeError] or an [AttributeError]. *)
Definition is_type_or_attribute_error (e : exn) : Prop :=
  (∃ w, e = TypeError w) ∨ (∃ w, e = AttributeError w).

(** A table whose [timestamp] column holds text, as a CSV reader leaves it. *)
Definition text_timestamp_table : DataFrame :=
  mkDF [("event_id", DString); ("timestamp", DObject); ("user_id", DString);
        ("severity", DString)]
    [{[ "event_id" := VStr "e1"; "timestamp" := VStr "2024-01-01 00:00:00";
        "user_id" := VStr "u"; "severity" := VStr "info" ]}].

(** Text timestamps and no [user_id] column. *)
Definition text_timestamp_no_user_table : DataFrame :=
  mkDF [("event_id", DString); ("timestamp", DObject); ("severity", DString)]
    [{[ "event_id" := VStr "e1"; "timestamp" := VStr "2024-01-01 00:00:00";
        "severity" := VStr "info" ]}].

(** A [user_id] column but no [event_id] column. *)
Definition no_event_id_table : DataFrame :=
  mkDF [("timestamp", DDatetime); ("user_id", DString); ("severity", DString)]
    [{[ "timestamp" := VTime 0; "user_id" := VStr "u"; "severity" := VStr "info" ]}].

(** Only a [severity] column. *)
Definition severity_only_table : DataFrame :=
  mkDF [("severity", DString)] [{[ "severity" := VStr "high" ]}; {[ "severity" := VStr "odd" ]}].

(** * The cleaning stage that the pipeline runs before the core
      ([cleaning.py]) *)

(** ** [validate_required_columns] *)

Definition REQUIRED_COLUMNS : list string :=
  ["event_id"; "timestamp"; "user_id"; "event_type"; "status"; "severity"; "source_ip"].

(** The function returns its argument or raises
    [ValueError(f"Missing required columns: {missing}")]; the exception is
    kept as the list [missing] that its message prints. *)
Inductive validation :=
  | Valid (df : DataFrame)
  | MissingRequired (missing : list string).

Definition validate_required_columns (df : DataFrame)
    (required_columns : option (list string)) : validation :=
  let required := default REQUIRED_COLUMNS required_columns in
  let missing := filter (λ c, c ∉ col_names df) required in
  match missing with
  | [] => Valid df
  | _ :: _ => MissingRequired missing
  end.

(** ** [remove_duplicates] *)

(** The rows that no later row repeats: [~duplicated(keep="last")] for the
    key [key]. *)
Fixpoint keep_last {K} `{EqDecision K} (key : Row → K) (rs : list Row) : list Row :=
  match rs with
  | [] => []
  | r :: rs' =>
      if decide (key r ∈ key <$> rs') then keep_last key rs'
      else r :: keep_last key rs'
  end.

(** [df.empty]: no column or no row. *)
Definition is_empty (df : DataFrame) : bool :=
  match columns df, rows df with
  | [], _ | _, [] => true
  | _, _ => false
  end.

(** [df.drop_duplicates(subset=subset, keep="last")].  An empty table comes
    back as it is, before the names of [subset] are looked up; otherwise a
    name that is not a column raises [KeyError].  Without [subset] all
    columns form the key.  Two cells are equal when they hold the same value;
    two missing values are equal. *)
Definition drop_duplicates_last (subset : option (list string)) (df : DataFrame)
  : res DataFrame :=
  if is_empty df then Ok df
  else
    let cs := default (col_names df) subset in
    match missing_column cs df with
    | Some c => Raise (KeyError c)
    | None => Ok {| columns := columns df; rows := keep_last (key_of cs) (rows df) |}
    end.

(** The two [len(df)] of lines 50 and 53 are computed and not used. *)
Definition remove_duplicates (df : DataFrame) : outcome DataFrame :=
  body "remove_duplicates" (
    df ← drop_duplicates_last None df;
    df ← drop_duplicates_last (Some ["event_id"]) df;
    Ok df).

(** The same event delivered three times, the second time with another
    status, and one other event. *)
Definition duplicated_table : DataFrame :=
  mkDF [("event_id", DString); ("status", DString)]
    [{[ "event_id" := VStr "e1"; "status" := VStr "ok" ]};
     {[ "event_id" := VStr "e2"; "status" := VStr "ok" ]};
     {[ "event_id" := VStr "e1"; "status" := VStr "failed" ]};
     {[ "event_id" := VStr "e1"; "status" := VStr "ok" ]}].

(** Rows but no [event_id] column. *)
Definition no_event_id_rows : DataFrame :=
  mkDF [("status", DString)] [{[ "status" := VStr "ok" ]}].

(** Columns but no row, and no [event_id] column. *)
Definition no_rows_table : DataFrame := mkDF [("status", DString)] [].

(** ** [validate_schema] *)

Definition allowed_status : list string := ["success"; "failure"; "unknown"].

Definition allowed_severity : list string :=
  ["info"; "low"; "medium"; "high"; "critical"; "unknown"].

(** The values of the dictionary that [validate_schema] returns: the message
    of the [ValueError] (kept as the list of names it prints), the name of a
    dtype, a count, or a sorted list of texts. *)
Inductive issue :=
  | MissingIssue (missing : list string)
  | DtypeIssue (dt : dtype)
  | CountIssue (n : Z)
  | ValuesIssue (vs : list string).

Section text.
(** Python's [str] of a cell that is neither text nor missing; the functions
    below apply it and never look into the text it returns. *)
Context (py_str : value → string).

(** [Series.astype("string")] on one cell. *)
Definition astype_string (v : value) : value :=
  match v with
  | VStr s => VStr s
  | VNA => VNA
  | _ => VStr (py_str v)
  end.

(** The texts of [df[c].dropna().astype("string")]. *)
Definition texts (c : string) (df : DataFrame) : list string :=
  omap (λ v, match astype_string v with VStr s => Some s | _ => None end)
       (cell c <$> rows df).

(** [sorted(set(df[c].dropna().astype("string")) - allowed)] *)
Definition invalid_values (c : string) (allowed : list string) (df : DataFrame)
  : list string :=
  stable_sort String.leb (remove_dups (filter (λ s, s ∉ allowed) (texts c df))).

Definition validate_schema (df : DataFrame) : gmap string issue :=
  let issues : gmap string issue := ∅ in
  match validate_required_columns df None with
  | MissingRequired missing => <["missing_columns" := MissingIssue missing]> issues
  | Valid _ =>
      let issues :=
        if negb (is_datetime64_any_dtype "timestamp" df)
        then <["timestamp_dtype" :=
                 DtypeIssue (default DObject (col_dtype "timestamp" (columns df)))]> issues
        else
          let nat_count :=
            Z.of_nat (length (filter (λ v, v = VNA) (cell "timestamp" <$> rows df))) in
          if bool_decide (nat_count > 0)
          then <["timestamp_NaT_count" := CountIssue nat_count]> issues
          else issues in
      let issues :=
        if has_column "status" df then
          let invalid_status := invalid_values "status" allowed_status df in
          match invalid_status with
          | [] => issues
          | _ :: _ => <["invalid_status_values" := ValuesIssue invalid_status]> issues
          end
        else issues in
      let issues :=
        if has_column "severity" df then
          let invalid_severity := invalid_values "severity" allowed_severity df in
          match invalid_severity with
          | [] => issues
          | _ :: _ => <["invalid_severity_values" := ValuesIssue invalid_severity]> issues
          end
        else issues in
      issues
  end.
End text.

(** A stand-in for Python's [str] in the examples, which hold text only. *)
Definition no_text (v : value) : string := EmptyString.

Definition pipeline_columns : list (string * dtype) :=
  [("event_id", DString); ("timestamp", DDatetime); ("user_id", DString);
   ("event_type", DString); ("status", DString); ("severity", DString);
   ("source_ip", DString)].

Definition record (id user : string) (secs : Z) (status sev : string) : Row :=
  {[ "event_id" := VStr id; "timestamp" := VTime (secs * ns_per_second);
     "user_id" := VStr user; "event_type" := VStr "login"; "status" := VStr status;
     "severity" := VStr sev; "source_ip" := VStr "10.0.0.1" ]}.

(** A table with all required columns and allowed values. *)
Definition clean_table : DataFrame :=
  mkDF pipeline_columns
    [record "e1" "u" 0 "success" "info"; record "e2" "v" 60 "failure" "unknown"].

(** All required columns; one user with an event on 1700-01-01 and one on
    2262-01-01, both within the range of [datetime64[ns]]. *)
Definition far_apart_table : DataFrame :=
  mkDF pipeline_columns
    [record "e1" "u" (-8520336000) "success" "info";
     record "e2" "u" 9214646400 "success" "info"].

(** All required columns, and a column that carries the name of a derived
    column. *)
Definition named_like_derived_table : DataFrame :=
  mkDF (pipeline_columns ++ [("user_daily_avg_events", DFloat)])
    ((λ r, <["user_daily_avg_events" := VFloat 1]> r) <$>
       [record "e1" "u" 0 "success" "info"; record "e2" "u" 1200 "failure" "high"]).

(** All required columns, one status and one severity outside the allowed
    sets. *)
Definition odd_values_table : DataFrame :=
  mkDF pipeline_columns
    [record "e1" "u" 0 "success" "info"; record "e2" "v" 60 "maybe" "fatal"].

(** * Timestamps ([normalization.py]) *)

Section timestamps.
(** [pd.to_datetime(s, errors="coerce", utc=True)].  The parser of pandas is
    not modelled: it is a function from a column to a column, or to an
    exception. *)
Context (to_datetime : Series → res Series).

Definition standardize_timestamps (df : DataFrame) (column : string) (drop_invalid : bool)
  : outcome DataFrame :=
  if negb (has_column column df) then Returned df
  else body "standardize_timestamps" (
    col ← getcol column df;
    ts ← to_datetime col;
    let df := setcol column ts df in
    if drop_invalid then
      _ ← getcol column df;
      Ok {| columns := columns df;
            rows := filter (λ r, cell column r ≠ VNA) (rows df) |}
    else Ok df).
End timestamps.

(** A parser for the examples: a point in time stays, anything else is not a
    date. *)
Definition keep_times (s : Series) : res Series :=
  Ok (mkS DDatetime ((λ v, match v with VTime t => VTime t | _ => VNA end) <$> svals s)).

(** Two parsed timestamps and one cell that is no date. *)
Definition raw_times_table : DataFrame :=
  mkDF [("event_id", DString); ("timestamp", DObject)]
    [{[ "event_id" := VStr "e1"; "timestamp" := VTime 5 ]};
     {[ "event_id" := VStr "e2"; "timestamp" := VStr "n/a" ]};
     {[ "event_id" := VStr "e3"; "timestamp" := VTime 3 ]}].

(** * Properties of the table operations *)

(** ** Binary64 numbers *)

Lemma pow2_pos k : (0 < pow2 k)%Q.
Proof. by apply Qpower_0_lt. Qed.

Lemma pow2_add a b : (pow2 (a + b) == pow2 a * pow2 b)%Q.
Proof. by apply Qpower_plus. Qed.

Lemma pow2_sub a b : (pow2 (a - b) == pow2 a / pow2 b)%Q.
Proof. by apply Qpower_minus. Qed.

Lemma pow2_succ a : (pow2 (a + 1) == 2 * pow2 a)%Q.
Proof. rewrite pow2_add. change (pow2 1) with 2%Q. ring. Qed.

Lemma pow2_le a b : a ≤ b → (pow2 a <= pow2 b)%Q.
Proof. intros H. by apply Qpower_le_compat_l. Qed.

Lemma pow2_lt_inv a b : (pow2 a < pow2 b)%Q → a < b.
Proof. intros H. by apply (Qpower_lt_compat_l_inv 2). Qed.

Lemma pow2_Z k : 0 ≤ k → (pow2 k == inject_Z (2 ^ k))%Q.
Proof. intros H. unfold pow2. by rewrite Zpower_Qpower. Qed.

Lemma pow2_log2 n :
  0 < n → (pow2 (Z.log2 n) <= inject_Z n)%Q ∧ (inject_Z n < 2 * pow2 (Z.log2 n))%Q.
Proof.
  intros Hn. destruct (Z.log2_spec n Hn) as [H1 H2].
  pose proof (Z.log2_nonneg n). rewrite <-pow2_succ.
  rewrite !pow2_Z by lia. rewrite <-Zle_Qle, <-Zlt_Qlt. split; [done|].
  by rewrite <-Z.add_1_r in H2.
Qed.

Lemma Qdiv_bracket (a b P D : Q) :
  (0 < a)%Q → (0 < b)%Q → (a <= P)%Q → (P < 2 * a)%Q → (b <= D)%Q → (D < 2 * b)%Q →
  (P / D < 2 * (a / b))%Q ∧ (a / (2 * b) <= P / D)%Q.
Proof.
  intros. split.
  - apply Qlt_shift_div_r; [lra|].
    assert (2 * (a / b) * D == (2 * a * D) / b)%Q as -> by (field; lra).
    apply Qlt_shift_div_l; [lra|]. nra.
  - apply Qle_shift_div_l; [lra|].
    assert (a / (2 * b) * D == (a * D) / (2 * b))%Q as -> by (field; lra).
    apply Qle_shift_div_r; [lra|]. nra.
Qed.

(** [ilog2] brackets its argument between two powers of two. *)
Lemma ilog2_spec x : (0 < x)%Q → (pow2 (ilog2 x) <= x)%Q ∧ (x < 2 * pow2 (ilog2 x))%Q.
Proof.
  intros Hx. destruct x as [p q]. unfold ilog2. cbn [Qnum Qden].
  assert (Hp : 0 < p) by (unfold Qlt in Hx; simpl in Hx; lia).
  destruct (pow2_log2 p Hp) as [Hp1 Hp2].
  destruct (pow2_log2 (Z.pos q) ltac:(lia)) as [Hq1 Hq2].
  set (lp := Z.log2 p) in *. set (lq := Z.log2 (Z.pos q)) in *.
  pose proof (pow2_pos lp) as Hlp0. pose proof (pow2_pos lq) as Hlq0.
  destruct (Qdiv_bracket _ _ _ _ Hlp0 Hlq0 Hp1 Hp2 Hq1 Hq2) as [Hup Hlo].
  rewrite <-Qmake_Qdiv in Hup, Hlo. rewrite <-pow2_sub in Hup.
  destruct (Qle_bool (pow2 (lp - lq)) (p # q)) eqn:E.
  - apply Qle_bool_iff in E. by split.
  - assert (Hlt : (p # q < pow2 (lp - lq))%Q).
    { apply Qnot_le_lt. intros Hle%Qle_bool_iff. congruence. }
    assert (Hk : (pow2 (lp - lq) == 2 * pow2 (lp - lq - 1))%Q).
    { rewrite <-pow2_succ. by replace (lp - lq - 1 + 1) with (lp - lq) by lia. }
    split; [|by rewrite <-Hk].
    eapply Qle_trans; [|exact Hlo].
    rewrite (pow2_sub lp lq) in Hk.
    assert (pow2 lp / (2 * pow2 lq) == (pow2 lp / pow2 lq) / 2)%Q as -> by (field; lra).
    rewrite Hk. apply Qle_lteq. right. field.
Qed.

Lemma ilog2_unique x k : (pow2 k <= x)%Q → (x < 2 * pow2 k)%Q → ilog2 x = k.
Proof.
  intros H1 H2. pose proof (pow2_pos k).
  destruct (ilog2_spec x) as [H3 H4]; [lra|].
  rewrite <-pow2_succ in H2, H4.
  assert (ilog2 x < k + 1) by (apply pow2_lt_inv; lra).
  assert (k < ilog2 x + 1) by (apply pow2_lt_inv; lra).
  lia.
Qed.

Lemma ilog2_le x y : (0 < x)%Q → (x <= y)%Q → ilog2 x ≤ ilog2 y.
Proof.
  intros Hx Hxy. destruct (ilog2_spec x Hx) as [H1 _].
  destruct (ilog2_spec y) as [_ H2]; [lra|]. rewrite <-pow2_succ in H2.
  assert (ilog2 x < ilog2 y + 1) by (apply pow2_lt_inv; lra). lia.
Qed.

(** *** Rounding to an integer *)

Lemma rne_floor x : Qfloor x ≤ rne x ≤ Qfloor x + 1.
Proof. unfold rne. repeat case_match; lia. Qed.

Lemma rne_Z n : rne (inject_Z n) = n.
Proof.
  unfold rne. rewrite Qfloor_Z.
  assert ((inject_Z n - inject_Z n ?= 1 # 2)%Q = Lt) as ->; [|done].
  apply (proj1 (Qlt_alt _ _)). lra.
Qed.

Lemma rne_le x y : (x <= y)%Q → rne x ≤ rne y.
Proof.
  intros Hxy. pose proof (Qfloor_resp_le x y Hxy) as Hf.
  destruct (decide (Qfloor x = Qfloor y)) as [Heq|Hne].
  - unfold rne. rewrite <-Heq.
    destruct (Qcompare_spec (x - inject_Z (Qfloor x)) (1 # 2)) as [H1|H1|H1];
      destruct (Qcompare_spec (y - inject_Z (Qfloor x)) (1 # 2)) as [H2|H2|H2];
      repeat case_match; try lia; lra.
  - pose proof (rne_floor x). pose proof (rne_floor y). lia.
Qed.

Lemma rne_proper x y : (x == y)%Q → rne x = rne y.
Proof.
  intros Hxy. apply Z.le_antisymm; apply rne_le; rewrite Hxy; apply Qle_refl.
Qed.

(** *** Rounding to binary64 *)

Lemma last_digit_le x y : (0 < x)%Q → (x <= y)%Q → last_digit x ≤ last_digit y.
Proof. intros Hx Hxy. unfold last_digit. pose proof (ilog2_le x y Hx Hxy). lia. Qed.

(** The scaled number has at most 53 binary digits. *)
Lemma scaled_lt x : (0 < x)%Q → (x / pow2 (last_digit x) < inject_Z (2 ^ 53))%Q.
Proof.
  intros Hx. pose proof (pow2_pos (last_digit x)).
  apply Qlt_shift_div_r; [done|].
  destruct (ilog2_spec x Hx) as [_ H2].
  eapply Qlt_le_trans; [exact H2|].
  rewrite <-pow2_Z, <-pow2_succ, <-pow2_add by lia.
  apply pow2_le. unfold last_digit. lia.
Qed.

Lemma round_pos_le_top x :
  (0 < x)%Q → (round_pos x <= pow2 (last_digit x + 53))%Q.
Proof.
  intros Hx. unfold round_pos. pose proof (pow2_pos (last_digit x)).
  rewrite Z.add_comm, pow2_add, (pow2_Z 53) by lia.
  apply Qmult_le_compat_r; [|lra].
  rewrite <-Zle_Qle. rewrite <-(rne_Z (2 ^ 53)). apply rne_le.
  apply Qlt_le_weak. by apply scaled_lt.
Qed.

Lemma round_pos_ge_bottom x :
  (0 < x)%Q → -1074 < last_digit x → (pow2 (last_digit x + 52) <= round_pos x)%Q.
Proof.
  intros Hx Hn. unfold round_pos. pose proof (pow2_pos (last_digit x)).
  rewrite Z.add_comm, pow2_add, (pow2_Z 52) by lia.
  apply Qmult_le_compat_r; [|lra].
  rewrite <-Zle_Qle. rewrite <-(rne_Z (2 ^ 52)). apply rne_le.
  apply Qle_shift_div_l; [done|].
  destruct (ilog2_spec x Hx) as [H1 _].
  eapply Qle_trans; [|exact H1].
  rewrite <-pow2_Z, <-pow2_add by lia.
  apply pow2_le. unfold last_digit in *. lia.
Qed.

Lemma round_pos_nonneg x : (0 <= x)%Q → (0 <= round_pos x)%Q.
Proof.
  intros Hx. unfold round_pos. pose proof (pow2_pos (last_digit x)).
  apply Qmult_le_0_compat; [|lra].
  rewrite <-(Zle_Qle 0). pose proof (rne_floor (x / pow2 (last_digit x))).
  assert (0 ≤ Qfloor (x / pow2 (last_digit x))); [|lia].
  rewrite <-(Qfloor_Z 0). apply Qfloor_resp_le.
  apply Qle_shift_div_l; [done|]. change (inject_Z 0) with 0%Q. lra.
Qed.

Lemma round_pos_le x y : (0 < x)%Q → (x <= y)%Q → (round_pos x <= round_pos y)%Q.
Proof.
  intros Hx Hxy. pose proof (last_digit_le x y Hx Hxy) as He.
  destruct (decide (last_digit x = last_digit y)) as [Heq|Hne].
  - unfold round_pos. rewrite <-Heq. pose proof (pow2_pos (last_digit x)).
    apply Qmult_le_compat_r; [|lra]. rewrite <-Zle_Qle. apply rne_le.
    apply Qle_shift_div_l; [done|].
    assert (x / pow2 (last_digit x) * pow2 (last_digit x) == x)%Q as -> by (field; lra).
    done.
  - eapply Qle_trans; [by apply round_pos_le_top|].
    eapply Qle_trans; [|apply round_pos_ge_bottom].
    + apply pow2_le. lia.
    + lra.
    + unfold last_digit in *. lia.
Qed.

(** A number with at most 53 binary digits above [2^e] is a binary64
    number. *)
Lemma round_pos_exact x m e :
  0 < m < 2 ^ 53 → -1074 ≤ e → (x == inject_Z m * pow2 e)%Q →
  (round_pos x == x)%Q.
Proof.
  intros Hm He Hxm.
  pose proof (pow2_pos e) as He0.
  assert (Hm0 : (0 < inject_Z m)%Q) by (rewrite <-(Zlt_Qlt 0); lia).
  assert (Hx : (0 < x)%Q) by nra.
  destruct (pow2_log2 m ltac:(lia)) as [Hl1 Hl2].
  assert (Hlog : ilog2 x = Z.log2 m + e).
  { apply ilog2_unique; rewrite pow2_add; nra. }
  assert (Hl53 : Z.log2 m < 53) by (apply Z.log2_lt_pow2; lia).
  set (d := last_digit x).
  assert (Hd : d ≤ e) by (unfold d, last_digit; lia).
  pose proof (pow2_pos d) as Hd0.
  assert (Hsc : (x / pow2 d == inject_Z (m * 2 ^ (e - d)))%Q).
  { rewrite inject_Z_mult, <-pow2_Z, pow2_sub by lia. rewrite Hxm. field. lra. }
  unfold round_pos. fold d. rewrite (rne_proper _ _ Hsc), rne_Z, <-Hsc. field. lra.
Qed.

Lemma round64_nonneg x : (0 <= x)%Q → round64 x = round_pos x.
Proof. intros Hx%Qle_bool_iff. unfold round64. by rewrite Hx. Qed.

Lemma round64_le x y : (0 <= x)%Q → (x <= y)%Q → (round64 x <= round64 y)%Q.
Proof.
  intros Hx Hxy. rewrite !round64_nonneg by lra.
  destruct (Qlt_le_dec 0 x) as [Hpos|Hzero].
  - by apply round_pos_le.
  - assert (Hx0 : (x == 0)%Q) by lra.
    eapply Qle_trans; [|apply round_pos_nonneg; lra].
    unfold round_pos. generalize (last_digit x). intros d.
    pose proof (pow2_pos d).
    assert (Hsc : (x / pow2 d == inject_Z 0)%Q).
    { rewrite Hx0. change (inject_Z 0) with 0%Q. field. lra. }
    rewrite (rne_proper _ _ Hsc), rne_Z. change (inject_Z 0) with 0%Q. lra.
Qed.

(** Integers up to [2^53] are binary64 numbers. *)
Lemma round64_Z n : - 2 ^ 53 ≤ n ≤ 2 ^ 53 → (round64 (inject_Z n) == inject_Z n)%Q.
Proof.
  intros Hn.
  assert (Hpos : ∀ m, 0 ≤ m ≤ 2 ^ 53 → (round_pos (inject_Z m) == inject_Z m)%Q).
  { intros m Hm. destruct (decide (m = 0)) as [->|?]; [by vm_compute|].
    destruct (decide (m = 2 ^ 53)) as [->|?]; [by vm_compute|].
    apply (round_pos_exact _ m 0); [lia..|]. change (pow2 0) with 1%Q. ring. }
  unfold round64. destruct (Qle_bool 0 (inject_Z n)) eqn:E.
  - apply Qle_bool_iff in E. change 0%Q with (inject_Z 0) in E.
    rewrite <-Zle_Qle in E. apply Hpos. lia.
  - assert (n < 0).
    { destruct (decide (0 ≤ n)) as [H|H]; [|lia].
      rewrite (Zle_Qle 0) in H. change (inject_Z 0) with 0%Q in H.
      apply Qle_bool_iff in H. congruence. }
    rewrite <-inject_Z_opp, Hpos by lia. rewrite inject_Z_opp. ring.
Qed.

Lemma round_pos_0 x : (x == 0)%Q → (round_pos x == 0)%Q.
Proof.
  intros Hx0. unfold round_pos. generalize (last_digit x). intros d.
  pose proof (pow2_pos d).
  assert (Hsc : (x / pow2 d == inject_Z 0)%Q).
  { rewrite Hx0. change (inject_Z 0) with 0%Q. field. lra. }
  rewrite (rne_proper _ _ Hsc), rne_Z. change (inject_Z 0) with 0%Q. lra.
Qed.

Lemma round_pos_mono x y : (0 <= x)%Q → (x <= y)%Q → (round_pos x <= round_pos y)%Q.
Proof.
  intros Hx Hxy. destruct (Qlt_le_dec 0 x) as [Hpos|Hzero].
  - by apply round_pos_le.
  - rewrite (round_pos_0 x) by lra. apply round_pos_nonneg. lra.
Qed.

Lemma round_pos_eq x y : (0 <= x)%Q → (x == y)%Q → (round_pos x == round_pos y)%Q.
Proof. intros Hx Hxy. apply Qle_antisym; apply round_pos_mono; lra. Qed.

Lemma round64_eq x y : (x == y)%Q → (round64 x == round64 y)%Q.
Proof.
  intros Hxy. unfold round64.
  destruct (Qle_bool 0 x) eqn:Ex; destruct (Qle_bool 0 y) eqn:Ey.
  - apply Qle_bool_iff in Ex. by apply round_pos_eq.
  - apply Qle_bool_iff in Ex. assert (Qle_bool 0 y = true); [|congruence].
    apply Qle_bool_iff. lra.
  - apply Qle_bool_iff in Ey. assert (Qle_bool 0 x = true); [|congruence].
    apply Qle_bool_iff. lra.
  - assert (Hx : (0 <= - x)%Q).
    { destruct (Qlt_le_dec x 0); [lra|]. assert (Qle_bool 0 x = true); [|congruence].
      by apply Qle_bool_iff. }
    rewrite (round_pos_eq (- x) (- y)); [reflexivity|done|lra].
Qed.

Lemma round64_ge_0 x : (0 <= x)%Q → (0 <= round64 x)%Q.
Proof. intros Hx. rewrite round64_nonneg by done. by apply round_pos_nonneg. Qed.

(** *** Float division of integers *)

Lemma float_div_nonneg a b : 0 ≤ a → 0 < b → (0 <= float_div a b)%Q.
Proof.
  intros Ha Hb. unfold float_div. apply round64_ge_0.
  assert (0 <= round64 (inject_Z a))%Q.
  { apply round64_ge_0. change 0%Q with (inject_Z 0). by rewrite <-Zle_Qle. }
  assert (0 <= round64 (inject_Z b))%Q.
  { apply round64_ge_0. change 0%Q with (inject_Z 0). rewrite <-Zle_Qle. lia. }
  destruct (Qlt_le_dec 0 (round64 (inject_Z b))) as [Hpos|Hz].
  - apply Qle_shift_div_l; [done|]. lra.
  - assert (Hb0 : (round64 (inject_Z b) == 0)%Q) by lra.
    unfold Qdiv. rewrite Hb0. change (/ 0)%Q with 0%Q. lra.
Qed.

(** The quotient of two integers up to [2^53] is the exact quotient,
    rounded. *)
Lemma float_div_exact a b :
  - 2 ^ 53 ≤ a ≤ 2 ^ 53 → - 2 ^ 53 ≤ b ≤ 2 ^ 53 →
  (float_div a b == round64 (inject_Z a / inject_Z b))%Q.
Proof.
  intros Ha Hb. unfold float_div. apply round64_eq.
  by rewrite (round64_Z a), (round64_Z b).
Qed.

Lemma float_div_le a b c :
  0 ≤ a ≤ 2 ^ 53 → 0 < b ≤ 2 ^ 53 → 0 ≤ c ≤ 2 ^ 53 → a ≤ c * b →
  (float_div a b <= inject_Z c)%Q.
Proof.
  intros Ha Hb Hc Hle. rewrite float_div_exact by lia.
  rewrite <-(round64_Z c) by lia.
  assert (Hb0 : (0 < inject_Z b)%Q) by (change 0%Q with (inject_Z 0); rewrite <-Zlt_Qlt; lia).
  assert (Ha0 : (0 <= inject_Z a)%Q) by (change 0%Q with (inject_Z 0); rewrite <-Zle_Qle; lia).
  apply round64_le.
  - apply Qle_shift_div_l; [done|]. lra.
  - apply Qle_shift_div_r; [done|]. rewrite <-inject_Z_mult, <-Zle_Qle. lia.
Qed.

Lemma float_div_ge a b c :
  0 ≤ a ≤ 2 ^ 53 → 0 < b ≤ 2 ^ 53 → 0 ≤ c ≤ 2 ^ 53 → c * b ≤ a →
  (inject_Z c <= float_div a b)%Q.
Proof.
  intros Ha Hb Hc Hle. rewrite float_div_exact by lia.
  rewrite <-(round64_Z c) at 1 by lia.
  assert (Hb0 : (0 < inject_Z b)%Q) by (change 0%Q with (inject_Z 0); rewrite <-Zlt_Qlt; lia).
  apply round64_le.
  - change 0%Q with (inject_Z 0). rewrite <-Zle_Qle. lia.
  - apply Qle_shift_div_l; [done|]. rewrite <-inject_Z_mult, <-Zle_Qle. lia.
Qed.

Lemma float_div_1 a : 0 ≤ a ≤ 2 ^ 53 → (float_div a 1 == inject_Z a)%Q.
Proof.
  intros Ha. apply Qle_antisym; [apply float_div_le|apply float_div_ge]; lia.
Qed.

(** *** Seconds *)

Lemma float_seconds_nonneg d : 0 ≤ d → (0 <= float_seconds d)%Q.
Proof. intros Hd. by apply float_div_nonneg. Qed.




(** ** The order on cells and keys *)

Lemma string_leb_refl s : String.leb s s = true.
Proof.
  apply Is_true_true. change (String.le s s). reflexivity.
Qed.

Lemma string_leb_trans s1 s2 s3 :
  String.leb s1 s2 = true → String.leb s2 s3 = true → String.leb s1 s3 = true.
Proof.
  intros H1%Is_true_true H2%Is_true_true. apply Is_true_true.
  change (String.le s1 s3). by trans s2.
Qed.

Lemma Qle_bool_total x y : Qle_bool x y = true ∨ Qle_bool y x = true.
Proof.
  rewrite !Qle_bool_iff. destruct (Qlt_le_dec x y) as [H|H]; [left|right]; [|done].
  by apply Qlt_le_weak.
Qed.

Lemma value_leb_refl v : value_leb v v = true.
Proof.
  destruct v as [s|n|q| |n|n|[]|]; simpl;
    first [ apply string_leb_refl | apply Z.leb_refl
          | apply Qle_bool_iff, Qle_refl | done ].
Qed.

Lemma value_leb_total a b : value_leb a b = true ∨ value_leb b a = true.
Proof.
  destruct a as [s|n|q| |n|n|[]|], b as [s'|n'|q'| |n'|n'|[]|]; simpl;
    first [ apply String.leb_total | apply Qle_bool_total
          | rewrite !Z.leb_le; lia | by auto ].
Qed.

Lemma value_leb_trans a b c :
  value_leb a b = true → value_leb b c = true → value_leb a c = true.
Proof.
  destruct a as [s|n|q| |n|n|[]|], b as [s'|n'|q'| |n'|n'|[]|],
    c as [s''|n''|q''| |n''|n''|[]|]; simpl;
    first [ done
          | apply string_leb_trans
          | rewrite !Qle_bool_iff; apply Qle_trans
          | rewrite !Z.leb_le; lia ].
Qed.

Lemma keys_leb_refl k : keys_leb k k = true.
Proof. induction k as [|x k IH]; simpl; [done|]. by rewrite value_leb_refl. Qed.

Lemma keys_leb_total a b : keys_leb a b = true ∨ keys_leb b a = true.
Proof.
  revert b. induction a as [|x a IH]; intros [|y b]; simpl; auto.
  destruct (value_leb_total x y) as [H|H]; rewrite H; simpl;
    destruct (value_leb y x) eqn:E1, (value_leb x y) eqn:E2; simpl; auto; done.
Qed.

Lemma keys_leb_trans a b c :
  keys_leb a b = true → keys_leb b c = true → keys_leb a c = true.
Proof.
  revert b c. induction a as [|x a IH]; intros [|y b] [|z c]; simpl; try done.
  destruct (value_leb y x) eqn:Eyx, (value_leb x y) eqn:Exy; simpl; try done;
    destruct (value_leb z y) eqn:Ezy, (value_leb y z) eqn:Eyz; simpl; try done;
    destruct (value_leb z x) eqn:Ezx, (value_leb x z) eqn:Exz; simpl; try done;
    try (intros; by eapply IH);
    repeat match goal with
      | H1 : value_leb ?a ?b = true, H2 : value_leb ?b ?c = true,
        H3 : value_leb ?a ?c = false |- _ =>
          rewrite (value_leb_trans a b c H1 H2) in H3; discriminate
      end;
    try (destruct (value_leb_total x y); congruence);
    try (destruct (value_leb_total y z); congruence);
    try (destruct (value_leb_total x z); congruence).
Qed.

Lemma row_leb_total bys r1 r2 : row_leb bys r1 r2 = true ∨ row_leb bys r2 r1 = true.
Proof. apply keys_leb_total. Qed.

Lemma row_leb_trans bys r1 r2 r3 :
  row_leb bys r1 r2 = true → row_leb bys r2 r3 = true → row_leb bys r1 r3 = true.
Proof. apply keys_leb_trans. Qed.

Lemma row_leb_same_user (r1 r2 : Row) u t1 t2 :
  cell "user_id" r1 = VStr u → cell "user_id" r2 = VStr u →
  cell "timestamp" r1 = VTime t1 → cell "timestamp" r2 = VTime t2 →
  row_leb ["user_id"; "timestamp"] r1 r2 = true → t1 ≤ t2.
Proof.
  intros Hu1 Hu2 Ht1 Ht2. unfold row_leb, key_of. cbn [fmap list_fmap keys_leb].
  rewrite Hu1, Hu2, Ht1, Ht2. cbn [value_leb]. rewrite string_leb_refl. cbn [negb].
  destruct (t2 <=? t1) eqn:E1, (t1 <=? t2) eqn:E2; simpl; try done; lia.
Qed.

(** ** Stable sorting *)

Section stable_sort_facts.
Context {A : Type} (le : A → A → bool).
Hypothesis le_total : ∀ x y, le x y = true ∨ le y x = true.
Hypothesis le_trans : ∀ x y z, le x y = true → le y z = true → le x z = true.

Lemma insert_sorted_perm x l : insert_sorted le x l ≡ₚ x :: l.
Proof.
  induction l as [|y l IH]; simpl; [done|].
  destruct (le x y); [done|]. rewrite IH. apply Permutation_swap.
Qed.

Lemma stable_sort_perm l : stable_sort le l ≡ₚ l.
Proof.
  induction l as [|x l IH]; simpl; [done|].
  by rewrite insert_sorted_perm, IH.
Qed.

Lemma length_stable_sort l : length (stable_sort le l) = length l.
Proof. by rewrite stable_sort_perm. Qed.

Lemma insert_sorted_sorted x l :
  StronglySorted (λ a b, le a b = true) l →
  StronglySorted (λ a b, le a b = true) (insert_sorted le x l).
Proof.
  induction 1 as [|y l Hl IH Hy]; simpl.
  - repeat constructor.
  - destruct (le x y) eqn:E.
    + constructor; [by constructor|]. constructor; [done|].
      eapply Forall_impl; [exact Hy|]. intros z Hz. by eapply le_trans.
    + constructor; [done|]. rewrite insert_sorted_perm.
      constructor; [|done]. destruct (le_total x y); congruence.
Qed.

Lemma stable_sort_sorted l : StronglySorted (λ a b, le a b = true) (stable_sort le l).
Proof.
  induction l as [|x l IH]; simpl; [constructor|]. by apply insert_sorted_sorted.
Qed.

(** Sorting commutes with taking a sub-table: the selected rows come out in
    the order in which sorting them alone would put them. *)
Lemma filter_insert_sorted (P : A → Prop) `{!∀ x, Decision (P x)} x l :
  StronglySorted (λ a b, le a b = true) l →
  filter P (insert_sorted le x l) =
    if decide (P x) then insert_sorted le x (filter P l) else filter P l.
Proof.
  induction 1 as [|y l Hl IH Hy]; simpl.
  - rewrite filter_cons, filter_nil. by destruct (decide (P x)).
  - destruct (le x y) eqn:E.
    + rewrite (filter_cons _ x). destruct (decide (P x)) as [Hx|Hx]; [|done].
      rewrite (filter_cons _ y). destruct (decide (P y)); simpl; [by rewrite E|].
      clear IH. induction l as [|z l IHl]; [done|].
      rewrite (filter_cons _ z). inversion_clear Hy. inversion_clear Hl.
      destruct (decide (P z)); simpl; [|by apply IHl].
      by rewrite (le_trans x y z).
    + rewrite !(filter_cons _ y), IH.
      destruct (decide (P y)), (decide (P x)); simpl; try done. by rewrite E.
Qed.

Lemma filter_stable_sort (P : A → Prop) `{!∀ x, Decision (P x)} l :
  filter P (stable_sort le l) = stable_sort le (filter P l).
Proof.
  induction l as [|x l IH]; simpl; [done|].
  rewrite filter_insert_sorted by apply stable_sort_sorted.
  rewrite filter_cons. destruct (decide (P x)); simpl; by rewrite IH.
Qed.

(** Rows that tie with each other are left as they are. *)
Lemma stable_sort_ties l :
  (∀ x y, x ∈ l → y ∈ l → le x y = true) → stable_sort le l = l.
Proof.
  induction l as [|x l IH]; intros Hl; simpl; [done|].
  rewrite IH by (intros; apply Hl; by constructor).
  destruct l as [|y l]; simpl; [done|].
  rewrite Hl; [done|by constructor|]. constructor. by constructor.
Qed.

Lemma stable_sort_stable (P : A → Prop) `{!∀ x, Decision (P x)} l :
  (∀ x y, P x → P y → le x y = true) →
  filter P (stable_sort le l) = filter P l.
Proof.
  intros HP. rewrite filter_stable_sort. apply stable_sort_ties.
  intros x y [? _]%list_elem_of_filter [? _]%list_elem_of_filter. by apply HP.
Qed.

End stable_sort_facts.

Lemma StronglySorted_filter {A} (R : A → A → Prop) (P : A → Prop)
    `{!∀ x, Decision (P x)} (l : list A) :
  StronglySorted R l → StronglySorted R (filter P l).
Proof.
  induction 1 as [|x l Hl IH Hx]; [constructor|]. rewrite filter_cons.
  destruct (decide (P x)); [|done]. constructor; [done|].
  apply Forall_forall. intros y [_ Hy]%list_elem_of_filter. rewrite Forall_forall in Hx. auto.
Qed.

Lemma StronglySorted_lookup_lt {A} (R : A → A → Prop) (l : list A) i j x y :
  StronglySorted R l → (i < j)%nat → l !! i = Some x → l !! j = Some y → R x y.
Proof.
  intros Hl. revert i j. induction Hl as [|z l Hl IH Hz]; intros i j Hij Hi Hj; [done|].
  destruct i as [|i], j as [|j]; simplify_eq/=; try lia.
  - rewrite Forall_forall in Hz. apply Hz. by eapply list_elem_of_lookup_2.
  - eapply IH; [|done..]. lia.
Qed.

(** ** Lists: filtering and zipping *)

Lemma filter_fmap {A B} (f : A → B) (P : B → Prop) `{!∀ x, Decision (P x)} (l : list A) :
  filter P (f <$> l) = f <$> filter (λ x, P (f x)) l.
Proof.
  induction l as [|x l IH]; [done|]. rewrite fmap_cons, !filter_cons, IH.
  by destruct (decide (P (f x))).
Qed.

Lemma fmap_ext_elem {A B} (f g : A → B) (l : list A) :
  (∀ x, x ∈ l → f x = g x) → f <$> l = g <$> l.
Proof.
  intros H. apply list_fmap_ext. intros i x Hi. apply H.
  by eapply list_elem_of_lookup_2.
Qed.

Lemma zip_fmap_same {A B C} (g : A → B) (h : A → C) (l : list A) :
  zip (g <$> l) (h <$> l) = (λ x, (g x, h x)) <$> l.
Proof. induction l as [|x l IH]; [done|]. csimpl. by rewrite IH. Qed.

Lemma zip_with_fmap_same {A B C} (f : A → B → C) (g : A → B) (l : list A) :
  zip_with f l (g <$> l) = (λ x, f x (g x)) <$> l.
Proof. induction l as [|x l IH]; [done|]. csimpl. by rewrite IH. Qed.

Lemma zip_with_fmap_both {A B C D} (f : B → C → D) (g : A → B) (h : A → C) (l : list A) :
  zip_with f (g <$> l) (h <$> l) = (λ x, f (g x) (h x)) <$> l.
Proof. induction l as [|x l IH]; [done|]. csimpl. by rewrite IH. Qed.

Lemma fmap_zip_with_out {A B C D} (g : C → D) (f : A → B → C) (l : list A) (k : list B) :
  g <$> zip_with f l k = zip_with (λ x y, g (f x y)) l k.
Proof.
  revert k. induction l as [|x l IH]; intros [|y k]; csimpl; [done..|]. by rewrite IH.
Qed.

Lemma zip_with_fmap_in {A A' B C} (f : A' → B → C) (g : A → A') (l : list A) (k : list B) :
  zip_with f (g <$> l) k = zip_with (λ x y, f (g x) y) l k.
Proof.
  revert k. induction l as [|x l IH]; intros [|y k]; csimpl; [done..|]. by rewrite IH.
Qed.

Lemma zip_zip_with {A B C} (f : A → B → C) (l : list A) (k : list B) :
  zip l (zip_with f l k) = (λ p, (p.1, f p.1 p.2)) <$> zip l k.
Proof.
  revert k. induction l as [|x l IH]; intros [|y k]; csimpl; [done..|]. by rewrite IH.
Qed.

Lemma zip_with_as_fmap {A B C} (f : A → B → C) (l : list A) (k : list B) :
  zip_with f l k = (λ p, f p.1 p.2) <$> zip l k.
Proof.
  revert k. induction l as [|x l IH]; intros [|y k]; csimpl; [done..|]. by rewrite IH.
Qed.

Lemma snd_zip_decorate {A B C} (f : A → B → C) (l : list A) (k : list B) :
  ((λ p : A * B, (p.1, f p.1 p.2)) <$> zip l k).*2 = zip_with f l k.
Proof.
  revert k. induction l as [|x l IH]; intros [|y k]; csimpl; [done..|]. by rewrite IH.
Qed.

Lemma zip_with_ext_elem {A B C} (f g : A → B → C) (l : list A) (k : list B) :
  (∀ x y, x ∈ l → f x y = g x y) → zip_with f l k = zip_with g l k.
Proof.
  revert k. induction l as [|x l IH]; intros [|y k] H; csimpl; [done..|].
  rewrite H by constructor. f_equal. apply IH. intros; apply H. by constructor.
Qed.

Lemma fst_zip_filter {A B} (P : A → Prop) `{!∀ x, Decision (P x)} (l : list A) (k : list B) :
  length l = length k →
  (filter (λ p, P p.1) (zip l k)).*1 = filter P l.
Proof.
  revert k. induction l as [|x l IH]; intros [|y k] Hlen; simpl in *; try done.
  rewrite !filter_cons. simpl. destruct (decide (P x)); simpl; rewrite IH; auto.
Qed.

Lemma filter_unique {A} `{EqDecision A} (x : A) (l : list A) :
  NoDup l → x ∈ l → filter (λ y, y = x) l = [x].
Proof.
  induction 1 as [|y l Hy Hl IH]; [by intros ?%elem_of_nil|].
  rewrite filter_cons. intros [->|Hx]%elem_of_cons.
  - rewrite decide_True by done. f_equal.
    clear IH. induction l as [|z l IHl]; [done|].
    rewrite filter_cons, decide_False.
    + apply IHl; [by intros ?; apply Hy; constructor|by inversion Hl].
    + intros ->. apply Hy. constructor.
  - rewrite decide_False; [by apply IH|]. intros ->. done.
Qed.

Lemma filter_ext_elem {A} (P Q : A → Prop) `{!∀ x, Decision (P x)} `{!∀ x, Decision (Q x)}
    (l : list A) :
  (∀ x, x ∈ l → P x ↔ Q x) → filter P l = filter Q l.
Proof.
  induction l as [|x l IH]; intros Hiff; [done|]. rewrite !filter_cons.
  rewrite IH by (intros; apply Hiff; by constructor).
  assert (P x ↔ Q x) by (apply Hiff; constructor).
  destruct (decide (P x)), (decide (Q x)); naive_solver.
Qed.

Lemma bind_singleton_fmap {A B} (g : A → list B) (h : A → B) (l : list A) :
  (∀ x, x ∈ l → g x = [h x]) → l ≫= g = h <$> l.
Proof.
  induction l as [|x l IH]; intros H; [done|]. rewrite bind_cons, fmap_cons.
  rewrite H by constructor. simpl. f_equal. apply IH. intros; apply H. by constructor.
Qed.

(** ** Grouped operations are the plain ones on every group *)

Section grouped_facts.
Context {K : Type} `{EqDecision K}.

Lemma length_group_shift {A} (seen l : list (K * A)) :
  length (group_shift seen l) = length l.
Proof.
  revert seen. induction l as [|[k x] l IH]; intros seen; simpl; [done|]. by rewrite IH.
Qed.

Lemma length_group_cumsum (acc : K → Z) (l : list (K * bool)) :
  length (group_cumsum acc l) = length l.
Proof.
  revert acc. induction l as [|[k b] l IH]; intros acc; simpl; [done|]. by rewrite IH.
Qed.

(** Within the rows of one key, [group_shift] hands each row its predecessor. *)
Lemma group_shift_group {R A} (kf : R → K) (g : R → A) (k : K) (seen : list (K * A))
    (rs : list R) :
  filter (λ p, kf p.1 = k) (zip rs (group_shift seen ((λ r, (kf r, g r)) <$> rs))) =
  zip (filter (λ r, kf r = k) rs)
      (shift_from (snd <$> find (λ p, bool_decide (p.1 = k)) seen)
                  (g <$> filter (λ r, kf r = k) rs)).
Proof.
  revert seen. induction rs as [|r rs IH]; intros seen; [done|].
  rewrite fmap_cons. csimpl. rewrite !filter_cons. csimpl.
  destruct (decide (kf r = k)) as [Hk|Hk]; csimpl.
  - f_equal; [by rewrite Hk|]. rewrite IH. simpl. by rewrite bool_decide_true.
  - rewrite IH. simpl. by rewrite bool_decide_false.
Qed.

(** Within the rows of one key, [group_cumsum] is the running count of that
    key's flags. *)
Lemma group_cumsum_group {R} (kf : R → K) (k : K) (acc : K → Z) (rs : list R)
    (bs : list bool) :
  filter (λ p, kf p.1 = k) (zip rs (group_cumsum acc (zip (kf <$> rs) bs))) =
  zip (filter (λ r, kf r = k) rs)
      (cumsum_from (acc k) (filter (λ p, kf p.1 = k) (zip rs bs)).*2).
Proof.
  revert acc bs. induction rs as [|r rs IH]; intros acc [|b bs]; try done.
  - csimpl. rewrite filter_nil. csimpl.
    by destruct (filter (λ r0, kf r0 = k) (r :: rs)).
  - rewrite fmap_cons. csimpl. rewrite !filter_cons. csimpl.
    destruct (decide (kf r = k)) as [Hk|Hk]; csimpl.
    + f_equal; [by rewrite Hk|]. rewrite IH. rewrite decide_True by done. by rewrite Hk.
    + rewrite IH. by rewrite decide_False by done.
Qed.
End grouped_facts.

(** ** Columns *)

Lemma has_column_true c df : has_column c df = true ↔ c ∈ col_names df.
Proof. unfold has_column. by rewrite bool_decide_eq_true. Qed.

Lemma has_column_false c df : has_column c df = false ↔ c ∉ col_names df.
Proof. unfold has_column. by rewrite bool_decide_eq_false. Qed.

Lemma col_dtype_None c cs : col_dtype c cs = None ↔ c ∉ cs.*1.
Proof.
  induction cs as [|[c' dt] cs IH]; simpl.
  - split; [intros _ ?%elem_of_nil|]; done.
  - rewrite not_elem_of_cons. destruct (decide (c' = c)); [naive_solver|].
    rewrite IH. naive_solver.
Qed.

Lemma col_dtype_is_Some c cs : c ∈ cs.*1 → is_Some (col_dtype c cs).
Proof.
  intros Hc. destruct (col_dtype c cs) eqn:E; [by eexists|].
  by apply col_dtype_None in E.
Qed.

Lemma col_dtype_Some_elem c cs dt : col_dtype c cs = Some dt → c ∈ cs.*1.
Proof.
  intros E. destruct (decide (c ∈ cs.*1)) as [|Hn]; [done|].
  apply col_dtype_None in Hn. congruence.
Qed.

Lemma has_column_dtype c df : has_column c df = true → is_Some (col_dtype c (columns df)).
Proof. intros H%has_column_true. by apply col_dtype_is_Some. Qed.

Lemma missing_column_None bys df :
  Forall (λ c, c ∈ col_names df) bys → missing_column bys df = None.
Proof.
  intros H. unfold missing_column.
  destruct (list_find _ bys) as [[i c]|] eqn:E; [|done].
  apply list_find_Some in E as (Hi & Hc & _).
  rewrite Forall_forall in H. destruct Hc. apply H. by eapply list_elem_of_lookup_2.
Qed.

Lemma missing_column_head c bys df :
  c ∉ col_names df → missing_column (c :: bys) df = Some c.
Proof. intros H. unfold missing_column. simpl. by rewrite decide_True. Qed.

Lemma elem_of_set_dtype c' c dt cs :
  c' ∈ (set_dtype c dt cs).*1 ↔ c' = c ∨ c' ∈ cs.*1.
Proof.
  induction cs as [|[c0 dt0] cs IH]; simpl.
  - rewrite list_elem_of_singleton. set_solver.
  - destruct (decide (c0 = c)) as [->|]; simpl; rewrite !elem_of_cons; [naive_solver|].
    rewrite IH. naive_solver.
Qed.

Lemma col_dtype_set_dtype_eq c dt cs : col_dtype c (set_dtype c dt cs) = Some dt.
Proof.
  induction cs as [|[c0 dt0] cs IH]; simpl.
  - by rewrite decide_True.
  - destruct (decide (c0 = c)) as [->|]; simpl; [by rewrite decide_True|].
    by rewrite decide_False.
Qed.

Lemma col_dtype_set_dtype_ne c c' dt cs :
  c ≠ c' → col_dtype c' (set_dtype c dt cs) = col_dtype c' cs.
Proof.
  intros Hne. induction cs as [|[c0 dt0] cs IH]; simpl.
  - by rewrite decide_False.
  - destruct (decide (c0 = c)) as [->|]; simpl.
    + by rewrite !decide_False.
    + destruct (decide (c0 = c')); [done|]. apply IH.
Qed.

Lemma elem_of_filter_columns c (drop : list string) (cs : list (string * dtype)) :
  c ∈ (filter (λ cd, cd.1 ∉ drop) cs).*1 ↔ c ∈ cs.*1 ∧ c ∉ drop.
Proof.
  rewrite !list_elem_of_fmap. split.
  - intros ([c0 dt] & -> & [? ?]%list_elem_of_filter). split; [|done]. by exists (c0, dt).
  - intros [([c0 dt] & -> & ?) ?]. exists (c0, dt). split; [done|].
    by apply list_elem_of_filter.
Qed.

Lemma col_dtype_filter_columns c (drop : list string) (cs : list (string * dtype)) :
  c ∉ drop → col_dtype c (filter (λ cd, cd.1 ∉ drop) cs) = col_dtype c cs.
Proof.
  intros Hc. induction cs as [|[c0 dt0] cs IH]; [done|].
  rewrite filter_cons. simpl. destruct (decide (c0 ∉ drop)) as [Hin|Hin]; simpl.
  - by rewrite IH.
  - rewrite IH. rewrite decide_False; [done|]. intros ->. done.
Qed.

Lemma col_dtype_app_r c (l1 l2 : list (string * dtype)) :
  c ∉ l1.*1 → col_dtype c (l1 ++ l2) = col_dtype c l2.
Proof.
  induction l1 as [|[c' dt] l1 IH]; [done|]. csimpl. intros [? ?]%not_elem_of_cons.
  rewrite decide_False by done. by apply IH.
Qed.

Lemma col_dtype_app_l c dt (l1 l2 : list (string * dtype)) :
  col_dtype c l1 = Some dt → col_dtype c (l1 ++ l2) = Some dt.
Proof.
  induction l1 as [|[c' dt'] l1 IH]; [done|]. csimpl.
  destruct (decide (c' = c)); [done|]. apply IH.
Qed.

Lemma set_dtype_fresh c dt cs : c ∉ cs.*1 → set_dtype c dt cs = cs ++ [(c, dt)].
Proof.
  induction cs as [|[c' dt'] cs IH]; [done|]. csimpl. intros [Hne Hc]%not_elem_of_cons.
  rewrite decide_False by done. by rewrite IH.
Qed.

Lemma set_dtype_app_fresh c dt cs :
  c ∉ cs.*1 → set_dtype c dt (cs ++ [(c, dt)]) = cs ++ [(c, dt)].
Proof.
  induction cs as [|[c' dt'] cs IH]; csimpl.
  - intros _. by rewrite decide_True.
  - intros [Hne Hc]%not_elem_of_cons. rewrite decide_False by done. by rewrite IH.
Qed.

Lemma set_dtype_idemp c dt cs : set_dtype c dt (set_dtype c dt cs) = set_dtype c dt cs.
Proof.
  induction cs as [|[c' dt'] cs IH]; simpl.
  - by rewrite decide_True.
  - destruct (decide (c' = c)) as [->|Hne]; simpl.
    + by rewrite decide_True.
    + rewrite decide_False by done. by rewrite IH.
Qed.

Lemma set_dtype_names c dt cs : c ∈ cs.*1 → (set_dtype c dt cs).*1 = cs.*1.
Proof.
  induction cs as [|[c' dt'] cs IH]; csimpl; [by intros ?%elem_of_nil|].
  intros Hc. destruct (decide (c' = c)) as [->|Hne]; [done|]. csimpl. f_equal.
  apply IH. apply elem_of_cons in Hc as [->|Hc]; done.
Qed.

Lemma filter_columns_fresh c (cs : list (string * dtype)) :
  c ∉ cs.*1 → filter (λ cd : string * dtype, cd.1 ∉ [c]) cs = cs.
Proof.
  induction cs as [|[c' dt] cs IH]; [done|]. csimpl. intros [Hne Hc]%not_elem_of_cons.
  rewrite filter_cons, decide_True; [by rewrite IH|].
  by intros ?%list_elem_of_singleton.
Qed.

(** ** Cells *)

Lemma cell_insert_eq c v (r : Row) : cell c (<[c := v]> r) = v.
Proof. unfold cell. by rewrite lookup_insert_eq. Qed.

Lemma cell_insert_ne c c' v (r : Row) : c ≠ c' → cell c' (<[c := v]> r) = cell c' r.
Proof. intros. unfold cell. by rewrite lookup_insert_ne. Qed.

Lemma cell_setcol_eq c (rs : list Row) (vs : list value) :
  length vs = length rs → cell c <$> zip_with (λ r v, <[c := v]> r) rs vs = vs.
Proof.
  revert vs. induction rs as [|r rs IH]; intros [|v vs] Hlen; simplify_eq/=; [done|].
  by rewrite cell_insert_eq, IH.
Qed.

Lemma cell_setcol_ne c c' (rs : list Row) (vs : list value) :
  c ≠ c' → length vs = length rs →
  cell c' <$> zip_with (λ r v, <[c := v]> r) rs vs = cell c' <$> rs.
Proof.
  intros Hne. revert vs.
  induction rs as [|r rs IH]; intros [|v vs] Hlen; simplify_eq/=; [done|].
  by rewrite cell_insert_ne, IH.
Qed.

Lemma drop_after_setcol c c' (rs : list Row) (vs ws : list value) :
  c ≠ c' → length vs = length rs → Forall (λ r, r !! c = None) rs →
  (λ r, foldr delete r [c]) <$>
    zip_with (λ r v, <[c' := v]> r) (zip_with (λ r v, <[c := v]> r) rs vs) ws =
  zip_with (λ r v, <[c' := v]> r) rs ws.
Proof.
  intros Hne. revert vs ws.
  induction rs as [|r rs IH]; intros [|v vs] [|w ws] Hlen Hrs; simplify_eq/=; try done.
  inversion_clear Hrs. rewrite IH by done. f_equal.
  rewrite delete_insert_ne by done. f_equal. by apply delete_insert_id.
Qed.

Lemma zip_with_not_na (ks : list value) (ns : list Z) :
  Forall (λ k, is_na k = false) ks → length ks = length ns →
  zip_with (λ k n, if is_na k then VNA else VInt n) ks ns = VInt <$> ns.
Proof.
  intros H. revert ns. induction H as [|k ks Hk Hks IH]; intros [|n ns] Hlen;
    simplify_eq/=; [done|]. by rewrite Hk, IH.
Qed.

(** ** Operations that return *)

Lemma getcol_Ok c df dt :
  col_dtype c (columns df) = Some dt → getcol c df = Ok (mkS dt (cell c <$> rows df)).
Proof. intros H. unfold getcol. by rewrite H. Qed.

Lemma drop_columns_Ok cs df :
  Forall (λ c, c ∈ col_names df) cs →
  drop_columns cs df = Ok {| columns := filter (λ cd, cd.1 ∉ cs) (columns df);
                             rows := (λ r, foldr delete r cs) <$> rows df |}.
Proof. intros H. unfold drop_columns. by rewrite missing_column_None. Qed.

Lemma select_columns_Ok cs df :
  Forall (λ c, c ∈ col_names df) cs →
  select_columns cs df =
    Ok {| columns := (λ c, (c, default DObject (col_dtype c (columns df)))) <$> cs;
          rows := (λ r : Row, list_to_map ((λ c, (c, cell c r)) <$> cs)) <$> rows df |}.
Proof. intros H. unfold select_columns. by rewrite missing_column_None. Qed.

Lemma dt_total_seconds_Ok vs :
  dt_total_seconds (mkS DTimedelta vs) = Ok (mkS DFloat (total_seconds <$> vs)).
Proof. done. Qed.

Lemma dt_floor_D_Ok vs :
  dt_floor_D (mkS DDatetime vs) = Ok (mkS DDatetime (floor_day <$> vs)).
Proof. done. Qed.

Lemma groupby_size_Ok bys df :
  Forall (λ c, c ∈ col_names df) bys →
  groupby_size bys df =
    Ok (groupby_reduce bys [("size", DInt, λ g, VInt (Z.of_nat (length g)))] df).
Proof. intros H. unfold groupby_size. by rewrite missing_column_None. Qed.

Lemma groupby_agg_Ok bys specs df :
  missing_column (bys ++ ((λ s : string * string * aggfun, s.1.2) <$> specs)) df = None →
  groupby_agg bys specs df =
    Ok (groupby_reduce bys
          ((λ s : string * string * aggfun,
              (s.1.1, agg_dtype s.2 (default DObject (col_dtype s.1.2 (columns df))),
               λ g : list Row, apply_agg s.2 (cell s.1.2 <$> g))) <$> specs) df).
Proof. intros H. unfold groupby_agg. by rewrite H. Qed.

Lemma mapM_Ok_fmap {A B} (f : A → res B) (g : A → B) (l : list A) :
  Forall (λ x, f x = Ok (g x)) l → mapM f l = Ok (g <$> l).
Proof.
  induction 1 as [|x l Hx Hl IH]; [done|]. simpl. rewrite Hx. simpl.
  rewrite IH. done.
Qed.

Lemma mapM_Ok_same {A} (f : A → res A) (l : list A) :
  Forall (λ x, f x = Ok x) l → mapM f l = Ok l.
Proof. intros H. rewrite (mapM_Ok_fmap f id), ?list_fmap_id; done. Qed.

Lemma series_sub_Ok a b :
  Forall (λ v, check_int64 v = Ok v) (zip_with delta a b) →
  series_sub (mkS DDatetime a) (mkS DDatetime b) =
    Ok (mkS DTimedelta (zip_with delta a b)).
Proof.
  intros H. unfold series_sub. cbn [sdtype svals].
  rewrite decide_True by (by left). by rewrite mapM_Ok_same.
Qed.

(** The difference of two timestamps within [2^62] nanoseconds of the epoch
    is an int64. *)
Lemma check_int64_delta a b :
  in_range a = true → in_range b = true → check_int64 (delta a b) = Ok (delta a b).
Proof.
  destruct a as [| | | |ta| | |], b as [| | | |tb| | |]; try done.
  intros [? ?]%bool_decide_eq_true [? ?]%bool_decide_eq_true.
  cbn [delta check_int64]. unfold fits_int64. rewrite bool_decide_eq_true_2; [done|].
  change (2 ^ 63) with (2 * 2 ^ 62). lia.
Qed.

Lemma group_shift_elem {K A} `{EqDecision K} (seen l : list (K * A)) p :
  p ∈ group_shift seen l → p = None ∨ ∃ k x, p = Some x ∧ (k, x) ∈ seen ++ l.
Proof.
  revert seen. induction l as [|[k x] l IH]; intros seen; csimpl.
  - by intros ?%elem_of_nil.
  - intros [->|Hp]%elem_of_cons.
    + destruct (find _ seen) as [[k' x']|] eqn:E; [|by left]. right.
      apply find_some in E as [Hin _]. exists k', x'. split; [done|].
      apply elem_of_app. left. by apply list_elem_of_In.
    + apply IH in Hp as [->|(k' & x' & -> & Hin)]; [by left|right].
      exists k', x'. split; [done|].
      rewrite elem_of_app, elem_of_cons in Hin. rewrite elem_of_app, elem_of_cons.
      naive_solver.
Qed.

(** [diff] on timestamps within [2^62] nanoseconds of the epoch does not
    leave the int64 numbers. *)
Lemma group_diffs_in_range (keys : list (list value)) (vs : list value) :
  Forall (λ v, in_range v = true) vs →
  Forall (λ v, check_int64 v = Ok v) (group_diffs VNA delta_prev keys vs).
Proof.
  intros Hvs. rewrite Forall_forall in Hvs. apply Forall_forall.
  unfold group_diffs. intros v ([k a] & p & -> & Hka & Hp)%elem_of_zip_with.
  cbn [fst snd]. destruct (key_na k); [done|].
  apply group_shift_elem in Hp as [->|(k' & x & -> & Hx)]; [done|].
  cbn [delta_prev]. rewrite app_nil_l in Hx.
  apply check_int64_delta; apply Hvs.
  - apply elem_of_zip_r in Hka. done.
  - apply elem_of_zip_r in Hx. done.
Qed.

Lemma to_Float64_total_seconds v : to_Float64 (total_seconds v) = Ok (total_seconds v).
Proof. by destruct v. Qed.

Lemma to_Float64_mean vs : to_Float64 (apply_agg AggMean vs) = Ok (apply_agg AggMean vs).
Proof. unfold apply_agg. by destruct (filter _ vs). Qed.

Lemma astype_Float64_series_map (d : gmap string Z) dt (vs : list value) :
  astype_Float64 (series_map d (mkS dt vs)) =
    Ok (mkS DFloat
          ((λ v, match v with
                 | VStr k => match d !! k with
                             | Some n => mkfloat (inject_Z n)
                             | None => VNA
                             end
                 | _ => VNA
                 end) <$> vs)).
Proof.
  unfold astype_Float64, series_map. cbn [svals].
  induction vs as [|v vs IH]; [done|]. csimpl.
  destruct (mapM to_Float64 _) as [l|e] eqn:E; [|done]. simplify_eq/=.
  destruct v as [k| | | | | | |]; try done. by destruct (d !! k).
Qed.

(** ** Groups and their keys *)

Lemma elem_of_group_keys bys rs k :
  k ∈ group_keys bys rs ↔ key_na k = false ∧ ∃ r, r ∈ rs ∧ key_of bys r = k.
Proof.
  unfold group_keys. rewrite stable_sort_perm, elem_of_remove_dups, list_elem_of_filter.
  rewrite list_elem_of_fmap. naive_solver.
Qed.

Lemma NoDup_group_keys bys rs : NoDup (group_keys bys rs).
Proof. unfold group_keys. rewrite stable_sort_perm. apply NoDup_remove_dups. Qed.

Lemma key_of_insert_notin bys c v (r : Row) :
  c ∉ bys → key_of bys (<[c := v]> r) = key_of bys r.
Proof.
  intros Hc. unfold key_of. apply fmap_ext_elem. intros c' Hc'.
  apply cell_insert_ne. by intros ->.
Qed.

(** ** Aggregates *)

Lemma fold_min_times v (vs : list value) :
  Forall (λ x, is_time x = true) (v :: vs) →
  ∃ m, foldr (λ a b, if value_leb a b then a else b) v vs = VTime m ∧
       VTime m ∈ v :: vs ∧ ∀ t, VTime t ∈ v :: vs → m ≤ t.
Proof.
  induction vs as [|x vs IH]; intros Hall.
  - inversion_clear Hall as [|? ? Hv _]. destruct v; try done. exists ns.
    split_and!; [done|constructor|]. intros t [= ->]%list_elem_of_singleton. done.
  - inversion_clear Hall as [|? ? Hv Hrest]. inversion_clear Hrest as [|? ? Hx Hvs].
    destruct IH as (m & Hm & Hin & Hle); [by constructor|].
    destruct x as [| | | |tx| | |]; try done.
    destruct v as [| | | |tv| | |]; try done. cbn [foldr]. rewrite Hm. cbn [value_leb].
    assert (m ≤ tv) by (apply Hle; constructor).
    assert (∀ t, VTime t ∈ vs → m ≤ t) by (intros; apply Hle; by constructor).
    apply elem_of_cons in Hin.
    destruct (tx <=? m) eqn:E; [apply Z.leb_le in E|apply Z.leb_gt in E].
    + exists tx. split_and!; [done|by repeat constructor|].
      intros t Ht. rewrite !elem_of_cons in Ht.
      destruct Ht as [[= ->]|[[= ->]|Ht%H0]]; lia.
    + exists m. split_and!; [done| |].
      * destruct Hin as [->|?]; [constructor|by do 2 constructor].
      * intros t Ht. rewrite !elem_of_cons in Ht.
        destruct Ht as [[= ->]|[[= ->]|Ht%H0]]; lia.
Qed.

Lemma fold_max_times v (vs : list value) :
  Forall (λ x, is_time x = true) (v :: vs) →
  ∃ m, foldr (λ a b, if value_leb a b then b else a) v vs = VTime m ∧
       VTime m ∈ v :: vs ∧ ∀ t, VTime t ∈ v :: vs → t ≤ m.
Proof.
  induction vs as [|x vs IH]; intros Hall.
  - inversion_clear Hall as [|? ? Hv _]. destruct v; try done. exists ns.
    split_and!; [done|constructor|]. intros t [= ->]%list_elem_of_singleton. done.
  - inversion_clear Hall as [|? ? Hv Hrest]. inversion_clear Hrest as [|? ? Hx Hvs].
    destruct IH as (m & Hm & Hin & Hle); [by constructor|].
    destruct x as [| | | |tx| | |]; try done.
    destruct v as [| | | |tv| | |]; try done. cbn [foldr]. rewrite Hm. cbn [value_leb].
    assert (tv ≤ m) by (apply Hle; constructor).
    assert (∀ t, VTime t ∈ vs → t ≤ m) by (intros; apply Hle; by constructor).
    apply elem_of_cons in Hin.
    destruct (tx <=? m) eqn:E; [apply Z.leb_le in E|apply Z.leb_gt in E].
    + exists m. split_and!; [done| |].
      * destruct Hin as [->|?]; [constructor|by do 2 constructor].
      * intros t Ht. rewrite !elem_of_cons in Ht.
        destruct Ht as [[= ->]|[[= ->]|Ht%H0]]; lia.
    + exists tx. split_and!; [done|by repeat constructor|].
      intros t Ht. rewrite !elem_of_cons in Ht.
      destruct Ht as [[= ->]|[[= ->]|Ht%H0]]; lia.
Qed.

Lemma filter_present_times (vs : list value) :
  Forall (λ x, is_time x = true) vs → filter (λ v, v ≠ VNA) vs = vs.
Proof.
  induction 1 as [|v vs Hv Hvs IH]; [done|]. rewrite filter_cons, IH.
  rewrite decide_True; [done|]. by destruct v.
Qed.

Lemma agg_min_max_times (vs : list value) :
  vs ≠ [] → Forall (λ x, is_time x = true) vs →
  ∃ tmin tmax,
    apply_agg AggMin vs = VTime tmin ∧ apply_agg AggMax vs = VTime tmax ∧
    VTime tmin ∈ vs ∧ VTime tmax ∈ vs ∧ ∀ t, VTime t ∈ vs → tmin ≤ t ≤ tmax.
Proof.
  intros Hne Hall. unfold apply_agg. rewrite filter_present_times by done.
  destruct vs as [|v vs]; [done|].
  destruct (fold_min_times v vs Hall) as (m & Hm & Hmin & Hmle).
  destruct (fold_max_times v vs Hall) as (M & HM & HMin & HMle).
  exists m, M. split_and!; try done. intros t Ht. split; auto.
Qed.

Lemma agg_count_present (vs : list value) :
  Forall (λ v, is_na v = false) vs → apply_agg AggCount vs = VInt (Z.of_nat (length vs)).
Proof.
  intros Hall. unfold apply_agg.
  assert (filter (λ v, v ≠ VNA) vs = vs) as ->; [|done].
  induction Hall as [|v vs Hv Hvs IH]; [done|]. rewrite filter_cons, IH.
  rewrite decide_True; [done|]. by destruct v.
Qed.

Lemma sum_ints_counts {A} (n : A → nat) (l : list A) :
  sum_ints ((λ x, VInt (Z.of_nat (n x))) <$> l) = Z.of_nat (sum_list_with n l).
Proof. induction l as [|x l IH]; [done|]. csimpl. rewrite IH. lia. Qed.

Lemma agg_mean_counts {A} (n : A → nat) (l : list A) :
  l ≠ [] →
  apply_agg AggMean ((λ x, VInt (Z.of_nat (n x))) <$> l) =
    mkfloat (float_div (Z.of_nat (sum_list_with n l)) (Z.of_nat (length l))).
Proof.
  intros Hl. unfold apply_agg.
  assert (filter (λ v, v ≠ VNA) ((λ x, VInt (Z.of_nat (n x))) <$> l) =
          (λ x, VInt (Z.of_nat (n x))) <$> l) as ->.
  { clear Hl. induction l as [|x l IH]; [done|]. csimpl.
    rewrite filter_cons, decide_True by done. by rewrite IH. }
  rewrite <-sum_ints_counts, <-(length_fmap (λ x, VInt (Z.of_nat (n x))) l).
  destruct l as [|x l]; [done|]. by rewrite fmap_cons.
Qed.

(** ** Left joins on a key that is unique on the right *)

Lemma suffix_if_nil sfx c : suffix_if [] sfx c = c.
Proof. unfold suffix_if. rewrite decide_False; [done|]. by intros ?%elem_of_nil. Qed.

Lemma rename_row_id (f : string → string) (r : Row) : (∀ c, f c = c) → rename_row f r = r.
Proof.
  intros Hf. unfold rename_row.
  rewrite (fmap_ext_elem _ id (map_to_list r)), list_fmap_id.
  - apply list_to_map_to_list.
  - intros [c v] _. simpl. by rewrite Hf.
Qed.

Lemma merge_left_unique on left right (f : list value → Row) (keys : list (list value)) :
  missing_column on right = None → missing_column on left = None →
  (∀ c, c ∈ col_names left → c ∈ col_names right → c ∈ on) →
  rows right = f <$> keys → NoDup keys →
  (∀ k, k ∈ keys → key_of on (f k) = k) →
  (∀ l, l ∈ rows left → key_of on l ∈ keys) →
  merge_left on left right =
    Ok {| columns := columns left ++ filter (λ cd, cd.1 ∉ on) (columns right);
          rows := (λ l, l ∪ foldr delete (f (key_of on l)) on) <$> rows left |}.
Proof.
  intros Hr Hl Hov Hrows Hnd Hkey Hin. unfold merge_left. rewrite Hr, Hl.
  assert (filter (λ c, c ∈ col_names right ∧ c ∉ on) (col_names left) = []) as ->.
  { apply elem_of_nil_inv. intros c [[? ?] ?]%list_elem_of_filter. naive_solver. }
  f_equal. f_equal.
  - f_equal.
    + rewrite <-(list_fmap_id (columns left)) at 2. apply fmap_ext_elem.
      intros [c dt] _. simpl. by rewrite suffix_if_nil.
    + rewrite <-(list_fmap_id (filter _ (columns right))) at 2. apply fmap_ext_elem.
      intros [c dt] _. simpl. by rewrite suffix_if_nil.
  - apply bind_singleton_fmap. intros l Hlin.
    rewrite Hrows, filter_fmap.
    rewrite (filter_ext_elem _ (λ k, k = key_of on l)).
    + rewrite filter_unique by auto. simpl.
      rewrite !rename_row_id by apply suffix_if_nil. done.
    + intros k Hk. by rewrite Hkey.
Qed.

(** * Valid inputs *)

Lemma valid_table_inv fresh df :
  valid_table fresh df = true →
  col_dtype "timestamp" (columns df) = Some DDatetime ∧
  "user_id" ∈ col_names df ∧ "event_id" ∈ col_names df ∧
  (∀ c, c ∈ fresh → c ∉ col_names df) ∧
  Forall (λ r, valid_row fresh r = true) (rows df).
Proof.
  unfold valid_table, is_datetime64_any_dtype.
  rewrite !andb_true_iff, bool_decide_eq_true, !has_column_true, !forallb_forall.
  intros ((((? & ?) & ?) & Hf) & Hr). repeat split; try done.
  - intros c Hc%list_elem_of_In. apply Hf in Hc.
    by apply negb_true_iff, has_column_false in Hc.
  - apply Forall_forall. intros r Hr'%list_elem_of_In. by apply Hr.
Qed.

Lemma valid_row_inv fresh r :
  valid_row fresh r = true →
  (∃ u, r !! "user_id" = Some (VStr u)) ∧ (∃ t, r !! "timestamp" = Some (VTime t)) ∧
  (∃ e, r !! "event_id" = Some e ∧ e ≠ VNA) ∧
  (∀ c, c ∈ fresh → r !! c = None).
Proof.
  unfold valid_row, cell. rewrite !andb_true_iff, forallb_forall.
  intros (((Hu & Ht) & He) & Hf). repeat split.
  - destruct (r !! "user_id") as [[]|]; try done. by eexists.
  - destruct (r !! "timestamp") as [[]|]; try done. by eexists.
  - destruct (r !! "event_id") as [v|]; try done. exists v. split; [done|].
    by destruct v.
  - intros c Hc%list_elem_of_In. apply Hf in Hc. by apply bool_decide_eq_true in Hc.
Qed.

Lemma valid_row_intro fresh (r : Row) u t e :
  r !! "user_id" = Some (VStr u) → r !! "timestamp" = Some (VTime t) →
  r !! "event_id" = Some e → e ≠ VNA → (∀ c, c ∈ fresh → r !! c = None) →
  valid_row fresh r = true.
Proof.
  intros Hu Ht He Hne Hf. unfold valid_row, cell. rewrite Hu, Ht, He.
  rewrite !andb_true_iff. split_and!; try done.
  - by destruct e.
  - apply forallb_forall. intros c Hc%list_elem_of_In. by apply bool_decide_eq_true, Hf.
Qed.

Lemma valid_table_intro fresh df :
  col_dtype "timestamp" (columns df) = Some DDatetime →
  "user_id" ∈ col_names df → "event_id" ∈ col_names df →
  (∀ c, c ∈ fresh → c ∉ col_names df) →
  Forall (λ r, valid_row fresh r = true) (rows df) →
  valid_table fresh df = true.
Proof.
  intros Hts Hu He Hf Hr. unfold valid_table, is_datetime64_any_dtype.
  rewrite !andb_true_iff, bool_decide_eq_true, !has_column_true, !forallb_forall.
  split_and!; try done.
  - intros c Hc%list_elem_of_In. by apply negb_true_iff, has_column_false, Hf.
  - intros r Hr'%list_elem_of_In. rewrite Forall_forall in Hr. by apply Hr.
Qed.

(** A stage that adds the column [c] keeps the table valid for the names that
    are still to be added. *)
Lemma valid_table_extend fresh fresh' df cols' c (g : Row → value) :
  valid_table fresh df = true →
  (∀ x, x ∈ cols'.*1 ↔ x = c ∨ x ∈ col_names df) →
  col_dtype "timestamp" cols' = col_dtype "timestamp" (columns df) →
  c ∉ fresh' → (∀ x, x ∈ fresh' → x ∈ fresh) →
  c ≠ "user_id" → c ≠ "timestamp" → c ≠ "event_id" →
  valid_table fresh' (mkDF cols' ((λ r, <[c := g r]> r) <$> rows df)) = true.
Proof.
  intros (Hts & Hu & He & Hf & Hr)%valid_table_inv Hcols Hdt Hc Hsub H1 H2 H3.
  apply valid_table_intro; unfold col_names; cbn [columns rows].
  - by rewrite Hdt.
  - apply Hcols. by right.
  - apply Hcols. by right.
  - intros x Hx [->|Hin]%Hcols; [done|]. by apply (Hf x); [apply Hsub|].
  - apply Forall_fmap. eapply Forall_impl; [exact Hr|]. intros r Hv. cbn.
    apply valid_row_inv in Hv as ((u & Hu') & (t & Ht') & (e & He' & Hne) & Hnone).
    apply (valid_row_intro _ _ u t e); rewrite ?lookup_insert_ne by done; try done.
    intros x Hx. rewrite lookup_insert_ne by (by intros ->). by apply Hnone, Hsub.
Qed.

Lemma user_time_row_inv fresh r :
  user_time_row fresh r = true →
  (∃ u, r !! "user_id" = Some (VStr u)) ∧ (∃ t, r !! "timestamp" = Some (VTime t)) ∧
  (∀ c, c ∈ fresh → r !! c = None).
Proof.
  unfold user_time_row, cell. rewrite !andb_true_iff, forallb_forall.
  intros ((Hu & Ht) & Hf). repeat split.
  - destruct (r !! "user_id") as [[]|]; try done. by eexists.
  - destruct (r !! "timestamp") as [[]|]; try done. by eexists.
  - intros c Hc%list_elem_of_In. apply Hf in Hc. by apply bool_decide_eq_true in Hc.
Qed.

Lemma user_time_table_inv fresh df :
  user_time_table fresh df = true →
  col_dtype "timestamp" (columns df) = Some DDatetime ∧
  "user_id" ∈ col_names df ∧
  (∀ c, c ∈ fresh → c ∉ col_names df) ∧
  Forall (λ r, user_time_row fresh r = true) (rows df).
Proof.
  unfold user_time_table, is_datetime64_any_dtype.
  rewrite !andb_true_iff, bool_decide_eq_true, !has_column_true, !forallb_forall.
  intros (((? & ?) & Hf) & Hr). repeat split; try done.
  - intros c Hc%list_elem_of_In. apply Hf in Hc.
    by apply negb_true_iff, has_column_false in Hc.
  - apply Forall_forall. intros r Hr'%list_elem_of_In. by apply Hr.
Qed.

Lemma valid_row_user_time fresh r :
  valid_row fresh r = true → user_time_row fresh r = true.
Proof.
  unfold valid_row, user_time_row. rewrite !andb_true_iff. naive_solver.
Qed.

Lemma valid_table_user_time fresh df :
  valid_table fresh df = true → user_time_table fresh df = true.
Proof.
  unfold valid_table, user_time_table. rewrite !andb_true_iff, !forallb_forall.
  intros ((((? & ?) & ?) & ?) & Hr). split_and!; try done.
  intros r Hin. by apply valid_row_user_time, Hr.
Qed.

Lemma times_in_range_inv df :
  times_in_range df = true →
  Forall (λ r, in_range (cell "timestamp" r) = true) (rows df).
Proof.
  unfold times_in_range. rewrite forallb_forall. intros H.
  apply Forall_forall. intros r Hr%list_elem_of_In. by apply H.
Qed.

Lemma times_in_range_intro df :
  Forall (λ r, in_range (cell "timestamp" r) = true) (rows df) →
  times_in_range df = true.
Proof.
  intros H. unfold times_in_range. apply forallb_forall.
  intros r Hr%list_elem_of_In. rewrite Forall_forall in H. by apply H.
Qed.

Lemma session_ready_inv df :
  session_ready df = true →
  valid_table session_names df = true ∧
  Forall (λ r, in_range (cell "timestamp" r) = true) (rows df).
Proof.
  unfold session_ready. intros [? ?%times_in_range_inv]%andb_true_iff. done.
Qed.

Lemma valid_input_inv df :
  valid_input df = true →
  has_column "severity" df = true ∧ valid_table derived_names df = true ∧
  Forall (λ r, in_range (cell "timestamp" r) = true) (rows df).
Proof.
  unfold valid_input. intros [[? ?]%andb_true_iff ?%times_in_range_inv]%andb_true_iff.
  done.
Qed.

Lemma baseline_ready_inv df :
  baseline_ready df = true →
  user_time_table ["user_daily_avg_events"] df = true ∧
  Forall (λ r, in_range (cell "timestamp" r) = true) (rows df).
Proof.
  unfold baseline_ready. intros [? ?%times_in_range_inv]%andb_true_iff. done.
Qed.

Lemma valid_row_key_not_na fresh r :
  valid_row fresh r = true → key_na (key_of ["user_id"] r) = false.
Proof.
  intros ((u & Hu) & _)%valid_row_inv. unfold key_of, cell. simpl. by rewrite Hu.
Qed.

Lemma valid_row_user_not_na fresh r :
  valid_row fresh r = true → is_na (cell "user_id" r) = false.
Proof. intros ((u & Hu) & _)%valid_row_inv. unfold cell. by rewrite Hu. Qed.

Lemma has_column_set_dtype c c' dt df cols rs :
  cols = set_dtype c' dt (columns df) →
  has_column c (mkDF cols rs) = bool_decide (c = c' ∨ c ∈ col_names df).
Proof.
  intros ->. unfold has_column, col_names. cbn [columns].
  apply bool_decide_ext. apply elem_of_set_dtype.
Qed.

Lemma has_column_setcol_ne c c' dt df rs :
  c ≠ c' → has_column c (mkDF (set_dtype c' dt (columns df)) rs) = has_column c df.
Proof.
  intros Hne. rewrite (has_column_set_dtype c c' dt df) by done.
  unfold has_column. apply bool_decide_ext. naive_solver.
Qed.

(** * Severity Scorer *)

Lemma add_severity_score_rows df :
  has_column "severity" df = true →
  add_severity_score df =
    Returned {| columns := set_dtype "severity_score" DFloat (columns df);
                rows := (λ r, <["severity_score" := score_cell (cell "severity" r)]> r)
                          <$> rows df |}.
Proof.
  intros [dt Hdt]%has_column_dtype. unfold add_severity_score, body.
  rewrite (getcol_Ok _ _ dt) by done. cbn [mbind res_bind].
  rewrite astype_Float64_series_map. cbn [mbind res_bind].
  unfold setcol. cbn [sdtype svals].
  rewrite <-list_fmap_compose. by rewrite zip_with_fmap_same.
Qed.

Lemma sev_to_score_other k :
  k ∉ ["info"; "low"; "medium"; "high"; "critical"] → sev_to_score !! k = None.
Proof.
  rewrite !not_elem_of_cons. intros (? & ? & ? & ? & ? & _). unfold sev_to_score.
  rewrite !lookup_insert_ne by done. by rewrite lookup_singleton_ne.
Qed.

(** C4.  On a table with a [severity] column the scorer returns, and gives
    each row the score of its label: 0 to 4 for the five labels, and a
    missing value, which is not the score 0, for anything else. *)
Theorem severity_score_lookup df :
  has_column "severity" df = true →
  ∃ df', add_severity_score df = Returned df' ∧
    length (rows df') = length (rows df) ∧
    VNA ≠ VFloat 0 ∧
    ∀ i r r', rows df !! i = Some r → rows df' !! i = Some r' →
      (cell "severity" r = VStr "info" → cell "severity_score" r' = VFloat 0) ∧
      (cell "severity" r = VStr "low" → cell "severity_score" r' = VFloat 1) ∧
      (cell "severity" r = VStr "medium" → cell "severity_score" r' = VFloat 2) ∧
      (cell "severity" r = VStr "high" → cell "severity_score" r' = VFloat 3) ∧
      (cell "severity" r = VStr "critical" → cell "severity_score" r' = VFloat 4) ∧
      (cell "severity" r ∉ [VStr "info"; VStr "low"; VStr "medium"; VStr "high";
                            VStr "critical"] →
       cell "severity_score" r' = VNA).
Proof.
  intros Hsev. rewrite add_severity_score_rows by done. eexists. split; [done|].
  cbn [rows]. split; [by rewrite length_fmap|]. split; [done|].
  intros i r r' Hr. rewrite list_lookup_fmap, Hr. intros [= <-].
  rewrite cell_insert_eq. split_and!; try (by intros ->).
  intros Hout. unfold score_cell. destruct (cell "severity" r) as [k| | | | | | |]; try done.
  rewrite sev_to_score_other; [done|]. intros Hk. apply Hout.
  rewrite !elem_of_cons in Hk. rewrite !elem_of_cons.
  destruct Hk as [->|[->|[->|[->|[->|[]%elem_of_nil]]]]]; auto 10.
Qed.

Lemma severity_score_lookup_witness :
  ∃ df', add_severity_score severity_table = Returned df' ∧
    length (rows df') = length (rows severity_table) ∧
    VNA ≠ VFloat 0 ∧
    ∀ i r r', rows severity_table !! i = Some r → rows df' !! i = Some r' →
      (cell "severity" r = VStr "info" → cell "severity_score" r' = VFloat 0) ∧
      (cell "severity" r = VStr "low" → cell "severity_score" r' = VFloat 1) ∧
      (cell "severity" r = VStr "medium" → cell "severity_score" r' = VFloat 2) ∧
      (cell "severity" r = VStr "high" → cell "severity_score" r' = VFloat 3) ∧
      (cell "severity" r = VStr "critical" → cell "severity_score" r' = VFloat 4) ∧
      (cell "severity" r ∉ [VStr "info"; VStr "low"; VStr "medium"; VStr "high";
                            VStr "critical"] →
       cell "severity_score" r' = VNA).
Proof. apply (severity_score_lookup severity_table). reflexivity. Defined.

(** The example of the spec: info, high, unknown, critical. *)
Example severity_score_example :
  ∃ df', add_severity_score severity_table = Returned df' ∧
    cell "severity_score" <$> rows df' = [VFloat 0; VFloat 3; VNA; VFloat 4].
Proof. eexists. split; [vm_compute; reflexivity|]. by vm_compute. Qed.

(** * User Frequency Aggregator *)

Lemma add_user_event_frequency_rows df :
  has_column "user_id" df = true → has_column "event_id" df = true →
  ∃ g : Row → value,
    add_user_event_frequency df =
      Returned {| columns := set_dtype "user_event_count_total"
                               (transform_count_dtype ["user_id"] (rows df)) (columns df);
                  rows := (λ r, <["user_event_count_total" := g r]> r) <$> rows df |}.
Proof.
  intros Hu [dt Hdt]%has_column_dtype. unfold add_user_event_frequency. rewrite Hu.
  cbn [negb]. unfold body, groupby_transform_count.
  rewrite missing_column_None by (repeat constructor; by apply has_column_true).
  rewrite (getcol_Ok _ _ dt) by done. cbn [mbind res_bind].
  eexists. unfold setcol. cbn [sdtype svals]. by rewrite zip_with_fmap_same.
Qed.

Lemma add_user_event_frequency_table df :
  has_column "user_id" df = true → has_column "event_id" df = true →
  add_user_event_frequency df =
    Returned {| columns := set_dtype "user_event_count_total"
                             (transform_count_dtype ["user_id"] (rows df)) (columns df);
                rows := (λ r, <["user_event_count_total" := user_event_count (rows df) r]> r)
                          <$> rows df |}.
Proof.
  intros Hu [dt Hdt]%has_column_dtype. unfold add_user_event_frequency. rewrite Hu.
  cbn [negb]. unfold body, groupby_transform_count.
  rewrite missing_column_None by (repeat constructor; by apply has_column_true).
  rewrite (getcol_Ok _ _ dt) by done. cbn [mbind res_bind].
  unfold setcol. cbn [sdtype svals]. by rewrite zip_with_fmap_same.
Qed.

Lemma key_na_user (r : Row) : key_na (key_of ["user_id"] r) = is_na (cell "user_id" r).
Proof. unfold key_of, key_na. simpl. apply orb_false_r. Qed.

Lemma group_count_user rs (r : Row) :
  group_count ["user_id"] "event_id" rs r =
    Z.of_nat (length (filter
      (λ x, cell "user_id" x = cell "user_id" r ∧ cell "event_id" x ≠ VNA) rs)).
Proof.
  unfold group_count. do 2 f_equal. apply list_filter_iff. intros x.
  unfold key_of. simpl. split; [by intros [[= ->] ?]|by intros [-> ?]].
Qed.

Lemma missing_user_false (rs : list Row) :
  existsb (λ r, key_na (key_of ["user_id"] r)) rs = false ↔
  Forall (λ r, cell "user_id" r ≠ VNA) rs.
Proof.
  induction rs as [|r rs IH]; [by split; [constructor|]|]. cbn [existsb].
  rewrite orb_false_iff, Forall_cons, IH, key_na_user.
  destruct (cell "user_id" r); naive_solver.
Qed.

Lemma missing_user_true (rs : list Row) :
  existsb (λ r, key_na (key_of ["user_id"] r)) rs = true ↔
  Exists (λ r, cell "user_id" r = VNA) rs.
Proof.
  induction rs as [|r rs IH]; [by split; [|intros ?%Exists_nil]|]. cbn [existsb].
  rewrite orb_true_iff, Exists_cons, IH, key_na_user.
  destruct (cell "user_id" r); naive_solver.
Qed.

Lemma user_event_count_na rs (r : Row) :
  cell "user_id" r = VNA → user_event_count rs r = VNA.
Proof.
  intros H. unfold user_event_count, transform_count_cell.
  by rewrite key_na_user, H.
Qed.

(** No user is missing: the count is an integer. *)
Lemma user_event_count_user rs (r : Row) :
  Forall (λ x, cell "user_id" x ≠ VNA) rs → cell "user_id" r ≠ VNA →
  user_event_count rs r =
    VInt (Z.of_nat (length (filter
      (λ x, cell "user_id" x = cell "user_id" r ∧ cell "event_id" x ≠ VNA) rs))).
Proof.
  intros Hrs H. unfold user_event_count, transform_count_cell.
  rewrite key_na_user, (proj2 (missing_user_false rs) Hrs), group_count_user.
  by destruct (cell "user_id" r).
Qed.

(** A user is missing on some row: the count is a float. *)
Lemma user_event_count_float rs (r : Row) :
  Exists (λ x, cell "user_id" x = VNA) rs → cell "user_id" r ≠ VNA →
  user_event_count rs r =
    mkfloat (round64 (inject_Z (Z.of_nat (length (filter
      (λ x, cell "user_id" x = cell "user_id" r ∧ cell "event_id" x ≠ VNA) rs))))).
Proof.
  intros Hrs H. unfold user_event_count, transform_count_cell.
  rewrite key_na_user, (proj2 (missing_user_true rs) Hrs), group_count_user.
  by destruct (cell "user_id" r).
Qed.

Lemma transform_count_dtype_user rs :
  Forall (λ x, cell "user_id" x ≠ VNA) rs → transform_count_dtype ["user_id"] rs = DInt.
Proof. intros H. unfold transform_count_dtype. by rewrite (proj2 (missing_user_false rs) H). Qed.

Lemma transform_count_dtype_float rs :
  Exists (λ x, cell "user_id" x = VNA) rs → transform_count_dtype ["user_id"] rs = DFloat.
Proof. intros H. unfold transform_count_dtype. by rewrite (proj2 (missing_user_true rs) H). Qed.

Lemma valid_rows_user_not_na fresh (rs : list Row) :
  Forall (λ r, valid_row fresh r = true) rs → Forall (λ r, cell "user_id" r ≠ VNA) rs.
Proof.
  intros H. eapply Forall_impl; [exact H|].
  intros r ((u & Hu) & _)%valid_row_inv. unfold cell. by rewrite Hu.
Qed.

(** * User Daily-Rate Aggregator *)

(** The row of the per-user means for the user [v], renamed, without its key. *)
Lemma avg_row_cells (v x : value) :
  let m : gmap string value :=
    rename_row (λ c, if decide (c = "size") then "user_daily_avg_events" else c)
      (<["user_id" := v]> (<["size" := x]> ∅)) in
  key_of ["user_id"] m = [v] ∧
  foldr delete m ["user_id"] = {[ "user_daily_avg_events" := x ]}.
Proof.
  intros m. unfold m. split.
  - vm_compute. reflexivity.
  - vm_compute. reflexivity.
Qed.

Lemma with_date_key (r : Row) :
  key_of ["user_id"; "date"]
    (<["date" := floor_day (cell "timestamp" r)]>
       (<["user_id" := cell "user_id" r]> (<["timestamp" := cell "timestamp" r]> ∅)))
  = [cell "user_id" r; floor_day (cell "timestamp" r)].
Proof. unfold key_of, cell at 1 3. simpl. by simplify_map_eq. Qed.

Lemma daily_count_row_cells (rs : list Row) a b :
  let row := reduce_row ["user_id"; "date"]
               [("size", DInt, λ g : list Row, VInt (Z.of_nat (length g)))] rs [a; b] in
  key_of ["user_id"] row = [a] ∧
  cell "size" row = VInt (Z.of_nat (length (group_rows ["user_id"; "date"] [a; b] rs))).
Proof.
  intros row. unfold row, reduce_row, key_of, cell.
  cbn [zip_with app fmap list_fmap list_to_map fold_right fst snd].
  split; by simplify_map_eq.
Qed.

Lemma floor_day_time t : ∃ d, floor_day (VTime t) = VTime d.
Proof. by eexists. Qed.

Lemma elem_of_day_keys (rs : list Row) u d :
  [VStr u; VTime d] ∈ group_keys ["user_id"; "date"] (with_date rs) ↔
  ∃ r, r ∈ rs ∧ cell "user_id" r = VStr u ∧ floor_day (cell "timestamp" r) = VTime d.
Proof.
  rewrite elem_of_group_keys. unfold with_date. split.
  - intros (_ & r' & (r & -> & Hr)%list_elem_of_fmap & Hkey).
    rewrite with_date_key in Hkey. exists r. by simplify_eq.
  - intros (r & Hr & Hu & Hd). split; [done|].
    exists (<["date" := floor_day (cell "timestamp" r)]>
              (<["user_id" := cell "user_id" r]> (<["timestamp" := cell "timestamp" r]> ∅))).
    split.
    + apply list_elem_of_fmap. by exists r.
    + rewrite with_date_key. by rewrite Hu, Hd.
Qed.

Lemma user_key_in_daily_counts fresh (rs : list Row) l :
  Forall (λ r, user_time_row fresh r = true) rs → l ∈ rs →
  key_of ["user_id"] l ∈ group_keys ["user_id"] (daily_counts_rows rs).
Proof.
  intros Hrs Hl. rewrite Forall_forall in Hrs.
  destruct (user_time_row_inv _ _ (Hrs l Hl)) as ((u & Hlu) & (t & Hlt) & _).
  assert (Hcu : cell "user_id" l = VStr u) by (unfold cell; by rewrite Hlu).
  assert (Hct : cell "timestamp" l = VTime t) by (unfold cell; by rewrite Hlt).
  destruct (floor_day_time t) as [d Hd].
  change (key_of ["user_id"] l) with [cell "user_id" l]. rewrite Hcu.
  apply elem_of_group_keys. split; [done|]. unfold daily_counts_rows.
  eexists. split.
  - apply list_elem_of_fmap_2. apply (elem_of_day_keys rs u d).
    exists l. by rewrite Hct.
  - apply daily_count_row_cells.
Qed.

Lemma add_user_activity_baseline_rows fresh df :
  user_time_table fresh df = true → "user_daily_avg_events" ∈ fresh →
  add_user_activity_baseline df =
    Returned
      {| columns := set_dtype "user_daily_avg_events" DFloat
                      (columns df ++ [("user_daily_avg_events", DFloat)]);
         rows := (λ r, <["user_daily_avg_events" := user_mean (rows df) (cell "user_id" r)]> r)
                   <$> rows df |}.
Proof.
  intros Hv Hfr. pose proof Hv as Hv'.
  apply user_time_table_inv in Hv as (Hts & Hu & Hfresh & Hrows).
  assert (Htc : "timestamp" ∈ col_names df) by by eapply col_dtype_Some_elem.
  unfold add_user_activity_baseline.
  rewrite (proj2 (has_column_true _ _)) by done.
  unfold user_time_table in Hv'. rewrite !andb_true_iff in Hv'.
  destruct Hv' as (((-> & _) & _) & _). cbn [negb orb]. unfold body.
  rewrite select_columns_Ok by (by repeat constructor). cbn [mbind res_bind].
  set (tmp := mkDF _ _).
  rewrite (getcol_Ok "timestamp" tmp DDatetime); last first.
  { unfold tmp. cbn [columns fmap list_fmap col_dtype].
    rewrite decide_False by done. rewrite decide_True by done. by rewrite Hts. }
  cbn [mbind res_bind]. rewrite dt_floor_D_Ok. cbn [mbind res_bind].
  set (tmp2 := setcol "date" _ tmp).
  assert (Hr2 : rows tmp2 = with_date (rows df)).
  { unfold tmp2, setcol, tmp. cbn [rows svals].
    by rewrite <-!list_fmap_compose, zip_with_fmap_both. }
  rewrite groupby_size_Ok; last first.
  { unfold tmp2, setcol, tmp, col_names. cbn [columns sdtype fmap list_fmap].
    apply Forall_cons_2; [|apply Forall_cons_2; [|apply Forall_nil_2]];
      rewrite elem_of_set_dtype; [right; by repeat constructor|by left]. }
  cbn [mbind res_bind].
  set (dc := groupby_reduce _ _ tmp2).
  assert (Hdc : rows dc = daily_counts_rows (rows df)).
  { unfold dc, groupby_reduce. cbn [rows]. by rewrite Hr2. }
  rewrite groupby_agg_Ok; last first.
  { apply missing_column_None. unfold dc, groupby_reduce, col_names.
    cbn [columns fmap list_fmap app]. by repeat constructor. }
  cbn [mbind res_bind].
  set (right := rename_columns _ _ _).
  set (f := λ k : list value,
         rename_row (λ c, if decide (c = "size") then "user_daily_avg_events" else c)
           (reduce_row ["user_id"]
              [("size", agg_dtype AggMean (default DObject (col_dtype "size" (columns dc))),
                λ g : list Row, apply_agg AggMean (cell "size" <$> g))] (rows dc) k)).
  assert (Hf : ∀ v,
    key_of ["user_id"] (f [v]) = [v] ∧
    foldr delete (f [v]) ["user_id"] =
      {[ "user_daily_avg_events" := user_mean (rows df) v ]}).
  { intros v. unfold f, reduce_row, user_mean.
    cbn [zip_with app fmap list_fmap list_to_map fold_right fst snd].
    rewrite Hdc. apply avg_row_cells. }
  assert (Havg : "user_daily_avg_events" ∉ col_names df) by by apply Hfresh.
  assert (Hrc : filter (λ cd : string * dtype, cd.1 ∉ ["user_id"]) (columns right) =
                [("user_daily_avg_events", DFloat)]).
  { unfold right, rename_columns, groupby_reduce. cbn [columns]. by vm_compute. }
  rewrite (merge_left_unique _ _ _ f (group_keys ["user_id"] (rows dc))); first last.
  - intros l Hl. rewrite Hdc. by eapply user_key_in_daily_counts.
  - intros k (_ & r & _ & <-)%elem_of_group_keys.
    change (key_of ["user_id"] r) with [cell "user_id" r]. apply Hf.
  - apply NoDup_group_keys.
  - unfold right, rename_columns, groupby_reduce. cbn [rows].
    by rewrite <-list_fmap_compose.
  - intros c Hc Hc'. unfold right, rename_columns, groupby_reduce, col_names in Hc'.
    cbn [columns fmap list_fmap app fst snd] in Hc'.
    rewrite decide_False, decide_True in Hc' by done.
    rewrite !elem_of_cons in Hc'. destruct Hc' as [->|[->|[]%elem_of_nil]]; [constructor|done].
  - by apply missing_column_None; repeat constructor.
  - apply missing_column_None. unfold right, rename_columns, groupby_reduce, col_names.
    cbn [columns fmap list_fmap app fst snd]. rewrite decide_False by done.
    by repeat constructor.
  - cbn [mbind res_bind]. rewrite Hrc.
    set (merged := mkDF _ _).
    rewrite (getcol_Ok _ merged DFloat); last first.
    { unfold merged. cbn [columns]. rewrite col_dtype_app_r by done. cbn [col_dtype].
      by rewrite decide_True. }
    cbn [mbind res_bind]. unfold astype_Float64. cbn [svals].
    assert (Hmr : rows merged =
              (λ l, <["user_daily_avg_events" := user_mean (rows df) (cell "user_id" l)]> l)
                <$> rows df).
    { unfold merged. cbn [rows]. apply fmap_ext_elem. intros l Hl.
      change (key_of ["user_id"] l) with [cell "user_id" l].
      rewrite (proj2 (Hf _)). symmetry. apply insert_union_singleton_r.
      rewrite Forall_forall in Hrows. apply Hrows, user_time_row_inv in Hl as (_ & _ & Hnone).
      by apply Hnone. }
    rewrite Hmr, <-list_fmap_compose.
    rewrite mapM_Ok_same; last first.
    { apply Forall_fmap, Forall_true. intros l. unfold compose.
      rewrite cell_insert_eq. apply to_Float64_mean. }
    cbn [mbind res_bind]. f_equal. unfold setcol. cbn [sdtype svals].
    rewrite Hmr. unfold merged. cbn [columns]. f_equal.
    rewrite zip_with_fmap_both. apply fmap_ext_elem.
    intros l _. unfold compose. rewrite cell_insert_eq. apply insert_insert_eq.
Qed.

(** ** The mean over the active days *)

(** The rows of one (user, day) group of [tmp] are the user's events of that
    day. *)
Lemma length_day_group (rs : list Row) u d :
  length (group_rows ["user_id"; "date"] [VStr u; d] (with_date rs)) = events_on u d rs.
Proof.
  unfold group_rows, with_date, events_on. rewrite filter_fmap, length_fmap. f_equal.
  apply list_filter_iff. intros r. rewrite with_date_key.
  split; [by intros [= -> ->]|by intros [-> ->]].
Qed.

Lemma sum_day_groups (rs : list Row) u (ds : list value) :
  sum_list_with (λ k, length (group_rows ["user_id"; "date"] k (with_date rs)))
    ((λ d, [VStr u; d]) <$> ds) =
  sum_list ((λ d, events_on u d rs) <$> ds).
Proof.
  induction ds as [|d ds IH]; [done|]. csimpl. by rewrite IH, length_day_group.
Qed.

(** The (user, day) groups of one user are the user's active days. *)
Lemma user_day_keys fresh (rs : list Row) u :
  Forall (λ r, user_time_row fresh r = true) rs →
  filter (λ k, head k = Some (VStr u)) (group_keys ["user_id"; "date"] (with_date rs))
  ≡ₚ (λ d, [VStr u; d]) <$> active_days u rs.
Proof.
  intros Hrs. apply NoDup_Permutation.
  - apply NoDup_filter, NoDup_group_keys.
  - apply NoDup_fmap_2; [by intros ?? [= ->]|]. apply NoDup_remove_dups.
  - intros k. rewrite list_elem_of_filter, elem_of_group_keys, list_elem_of_fmap.
    unfold active_days, with_date, rows_of_user. split.
    + intros (Hhd & _ & r' & (r & -> & Hr)%list_elem_of_fmap & <-).
      rewrite with_date_key in Hhd |- *. cbn in Hhd. injection Hhd as Hu.
      exists (floor_day (cell "timestamp" r)). rewrite Hu. split; [done|].
      apply elem_of_remove_dups, list_elem_of_fmap. exists r. split; [done|].
      by apply list_elem_of_filter.
    + intros (d & -> & (r & -> & [Hu Hr]%list_elem_of_filter)%elem_of_remove_dups
                %list_elem_of_fmap).
      split; [done|]. rewrite Forall_forall in Hrs.
      destruct (user_time_row_inv _ _ (Hrs r Hr)) as (_ & (t & Ht) & _).
      split; [unfold cell; by rewrite Ht|].
      exists (<["date" := floor_day (cell "timestamp" r)]>
                (<["user_id" := cell "user_id" r]>
                   (<["timestamp" := cell "timestamp" r]> ∅))).
      split; [apply list_elem_of_fmap; by exists r|].
      rewrite with_date_key. by rewrite Hu.
Qed.

Lemma user_mean_spec fresh (rs : list Row) u r :
  Forall (λ r, user_time_row fresh r = true) rs →
  r ∈ rs → cell "user_id" r = VStr u →
  active_days u rs ≠ [] ∧
  user_mean rs (VStr u) =
    mkfloat (float_div (Z.of_nat (sum_list ((λ d, events_on u d rs) <$> active_days u rs)))
                       (Z.of_nat (length (active_days u rs)))).
Proof.
  intros Hrs Hr Hu. split.
  { intros Hnil. assert (floor_day (cell "timestamp" r) ∈ active_days u rs) as Hin.
    { apply elem_of_remove_dups, list_elem_of_fmap. exists r. split; [done|].
      by apply list_elem_of_filter. }
    rewrite Hnil in Hin. by apply elem_of_nil in Hin. }
  unfold user_mean, daily_counts_rows, group_rows.
  rewrite filter_fmap, <-list_fmap_compose.
  set (keys := group_keys ["user_id"; "date"] (with_date rs)).
  assert (Hk2 : ∀ k, k ∈ keys → ∃ a b, k = [a; b]).
  { intros k (_ & r' & _ & <-)%elem_of_group_keys. by eexists _, _. }
  rewrite (filter_ext_elem _ (λ k, head k = Some (VStr u)) keys); last first.
  { intros k (a & b & ->)%Hk2.
    rewrite (proj1 (daily_count_row_cells (with_date rs) a b)). cbn.
    split; [by intros [= ->]|by intros [= ->]]. }
  pose proof (user_day_keys fresh rs u Hrs) as Hperm. fold keys in Hperm.
  set (L1 := filter _ keys) in *.
  rewrite (fmap_ext_elem _ (λ k, VInt (Z.of_nat
             (length (group_rows ["user_id"; "date"] k (with_date rs))))) L1); last first.
  { intros k [_ (a & b & ->)%Hk2]%list_elem_of_filter. unfold compose.
    by rewrite (proj2 (daily_count_row_cells (with_date rs) a b)). }
  rewrite agg_mean_counts; last first.
  { intros HL1. rewrite HL1 in Hperm. symmetry in Hperm.
    apply Permutation_nil_r, fmap_nil_inv in Hperm.
    assert (floor_day (cell "timestamp" r) ∈ active_days u rs) as Hin.
    { apply elem_of_remove_dups, list_elem_of_fmap. exists r. split; [done|].
      by apply list_elem_of_filter. }
    rewrite Hperm in Hin. by apply elem_of_nil in Hin. }
  rewrite Hperm, length_fmap.
  by rewrite sum_day_groups.
Qed.

Lemma sum_list_indicator {B} `{EqDecision B} (b : B) (ds : list B) :
  NoDup ds → b ∈ ds →
  sum_list ((λ d, if decide (b = d) then 1%nat else 0%nat) <$> ds) = 1%nat.
Proof.
  induction 1 as [|d ds Hd Hnd IH]; [by intros ?%elem_of_nil|].
  csimpl. intros [->|Hin]%elem_of_cons.
  - rewrite decide_True by done. f_equal.
    clear IH Hnd. induction ds as [|d' ds IH]; [done|]. csimpl.
    rewrite decide_False by (intros ->; apply Hd; constructor).
    apply IH. intros ?. apply Hd. by constructor.
  - rewrite decide_False by (by intros ->). by apply IH.
Qed.

(** The groups of a list by the value of [f] have as many elements together
    as the list. *)
Lemma sum_list_groups {A B} `{EqDecision B} (f : A → B) (l : list A) (ds : list B) :
  NoDup ds → (∀ x, x ∈ l → f x ∈ ds) →
  sum_list ((λ d, length (filter (λ x, f x = d) l)) <$> ds) = length l.
Proof.
  intros Hnd. induction l as [|a l IH]; intros Hin.
  - clear. induction ds as [|d ds IHd]; [done|]. csimpl in *. exact IHd.
  - rewrite (fmap_ext_elem _
      (λ d, ((if decide (f a = d) then 1 else 0) + length (filter (λ x, f x = d) l))%nat) ds).
    + assert (∀ (g h : B → nat), sum_list ((λ d, (g d + h d)%nat) <$> ds) =
                (sum_list (g <$> ds) + sum_list (h <$> ds))%nat) as ->.
      { intros g h. clear. induction ds as [|d ds IHd]; [done|]. csimpl. rewrite IHd. lia. }
      rewrite sum_list_indicator by (try done; apply Hin; constructor).
      rewrite IH; [done|]. intros x Hx. apply Hin. by constructor.
    + intros d _. rewrite filter_cons. by destruct (decide (f a = d)).
Qed.

Lemma sum_list_at_least {B} (g : B → nat) (ds : list B) :
  (∀ d, d ∈ ds → (1 ≤ g d)%nat) → (length ds ≤ sum_list (g <$> ds))%nat.
Proof.
  induction ds as [|d ds IH]; intros Hg; [done|]. csimpl.
  pose proof (Hg d ltac:(constructor)).
  assert (length ds ≤ sum_list (g <$> ds))%nat; [|lia].
  apply IH. intros d' Hd'. apply Hg. by constructor.
Qed.

Lemma events_on_user u d (rs : list Row) :
  events_on u d rs =
  length (filter (λ r, floor_day (cell "timestamp" r) = d) (rows_of_user u rs)).
Proof.
  unfold events_on, rows_of_user. f_equal. induction rs as [|r rs IH]; [done|].
  rewrite !filter_cons. destruct (decide (cell "user_id" r = VStr u)) as [Hu|Hu].
  - rewrite filter_cons. destruct (decide (floor_day (cell "timestamp" r) = d)) as [Hd|Hd].
    + rewrite decide_True by done. by rewrite IH.
    + rewrite decide_False by naive_solver. done.
  - rewrite decide_False by naive_solver. done.
Qed.

(** The per-day counts of a user add up to the user's number of rows. *)
Lemma sum_events_on u (rs : list Row) :
  sum_list ((λ d, events_on u d rs) <$> active_days u rs) = length (rows_of_user u rs).
Proof.
  rewrite (fmap_ext_elem _ (λ d, length (filter
             (λ r, floor_day (cell "timestamp" r) = d) (rows_of_user u rs)))
             (active_days u rs)) by (intros; apply events_on_user).
  apply (sum_list_groups (λ r, floor_day (cell "timestamp" r))).
  - apply NoDup_remove_dups.
  - intros x Hx. apply elem_of_remove_dups, list_elem_of_fmap. by exists x.
Qed.

Lemma events_on_active u d (rs : list Row) :
  d ∈ active_days u rs → (1 ≤ events_on u d rs)%nat.
Proof.
  intros (r & -> & Hr)%elem_of_remove_dups%list_elem_of_fmap.
  rewrite events_on_user.
  assert (r ∈ filter (λ r', floor_day (cell "timestamp" r') =
                           floor_day (cell "timestamp" r)) (rows_of_user u rs)) as Hin
    by by apply list_elem_of_filter.
  destruct (filter _ _); [by apply elem_of_nil in Hin|simpl; lia].
Qed.

(** ** Calendar days *)

Lemma floor_day_day_number t : floor_day (VTime t) = VTime (day_number t * ns_per_day).
Proof. done. Qed.

Lemma day_of_time (r : Row) t : cell "timestamp" r = VTime t → day_of r = Some (day_number t).
Proof. intros H. unfold day_of. by rewrite H. Qed.

(** The [date] cell of a row names the calendar day of its timestamp. *)
Lemma floor_day_day_of (r : Row) d :
  floor_day (cell "timestamp" r) = VTime (d * ns_per_day) ↔ day_of r = Some d.
Proof.
  unfold day_of. destruct (cell "timestamp" r) as [| | | |t| | |]; try done.
  rewrite floor_day_day_number. unfold ns_per_day, ns_per_second.
  split; intros [= H]; f_equal; lia.
Qed.

Lemma remove_dups_fmap_inj {A B} `{EqDecision A} `{EqDecision B} (f : A → B) (l : list A) :
  Inj (=) (=) f → remove_dups (f <$> l) = f <$> remove_dups l.
Proof.
  intros Hf. induction l as [|x l IH]; [done|]. csimpl.
  destruct (decide_rel elem_of x l) as [Hx|Hx],
    (decide_rel elem_of (f x) (f <$> l)) as [Hy|Hy]; csimpl.
  - done.
  - exfalso. apply Hy. by apply list_elem_of_fmap_2.
  - exfalso. apply list_elem_of_fmap in Hy as (y & Hy & Hin). apply Hf in Hy. by subst.
  - by rewrite IH.
Qed.

Lemma dates_of_days fresh (rs : list Row) :
  Forall (λ r, user_time_row fresh r = true) rs →
  (λ r, floor_day (cell "timestamp" r)) <$> rs =
  (λ d, VTime (d * ns_per_day)) <$> omap day_of rs.
Proof.
  induction 1 as [|r rs Hr Hrs IH]; [done|]. csimpl.
  apply user_time_row_inv in Hr as (_ & (t & Ht) & _).
  assert (Hc : cell "timestamp" r = VTime t) by (unfold cell; by rewrite Ht).
  rewrite (day_of_time r t Hc), Hc. csimpl. by rewrite IH.
Qed.

Lemma active_days_days_of fresh (rs : list Row) u :
  Forall (λ r, user_time_row fresh r = true) rs →
  active_days u rs = (λ d, VTime (d * ns_per_day)) <$> days_of u rs.
Proof.
  intros Hrs. unfold active_days, days_of.
  rewrite (dates_of_days fresh); last first.
  { apply Forall_forall. intros r [_ Hr]%list_elem_of_filter.
    rewrite Forall_forall in Hrs. by apply Hrs. }
  apply remove_dups_fmap_inj. intros d1 d2 [= H].
  unfold ns_per_day, ns_per_second in H. lia.
Qed.

Lemma events_on_events_on_day u d (rs : list Row) :
  events_on u (VTime (d * ns_per_day)) rs = events_on_day u d rs.
Proof.
  rewrite events_on_user. unfold events_on_day. f_equal.
  apply list_filter_iff. intros r. apply floor_day_day_of.
Qed.

(** The per-day counts of a user are not zero and add up to the number of
    the user's rows. *)
Lemma day_counts fresh (rs : list Row) u :
  Forall (λ r, user_time_row fresh r = true) rs →
  (λ d, events_on u d rs) <$> active_days u rs =
    (λ d, events_on_day u d rs) <$> days_of u rs ∧
  length (active_days u rs) = length (days_of u rs) ∧
  sum_list ((λ d, events_on_day u d rs) <$> days_of u rs) = length (rows_of_user u rs) ∧
  (length (days_of u rs) ≤ length (rows_of_user u rs))%nat.
Proof.
  intros Hrs.
  assert (H1 : (λ d, events_on u d rs) <$> active_days u rs =
               (λ d, events_on_day u d rs) <$> days_of u rs).
  { rewrite (active_days_days_of fresh) by done. rewrite <-list_fmap_compose.
    apply list_fmap_ext. intros i d _. apply events_on_events_on_day. }
  assert (H2 : length (active_days u rs) = length (days_of u rs)).
  { by rewrite (active_days_days_of fresh), length_fmap. }
  split; [done|]. split; [done|]. rewrite <-H1, <-H2. split; [apply sum_events_on|].
  rewrite <-(sum_events_on u rs).
  apply (sum_list_at_least (λ d, events_on u d rs)). intros d. apply events_on_active.
Qed.

Lemma mkfloat_eq (x y : Q) : (x == y)%Q → mkfloat x = mkfloat y.
Proof. intros H. unfold mkfloat. f_equal. by apply Qred_complete. Qed.

(** The mean of line 54 for a user: the number of the user's events divided
    by the number of the user's days, rounded to binary64. *)
Lemma user_mean_days fresh (rs : list Row) u r :
  Forall (λ r, user_time_row fresh r = true) rs → Z.of_nat (length rs) ≤ 2 ^ 53 →
  r ∈ rs → cell "user_id" r = VStr u →
  days_of u rs ≠ [] ∧
  user_mean rs (VStr u) =
    mkfloat (round64 (inject_Z (Z.of_nat (length (rows_of_user u rs)))
                      / inject_Z (Z.of_nat (length (days_of u rs))))).
Proof.
  intros Hrs Hlen Hr Hu.
  destruct (user_mean_spec fresh rs u r Hrs Hr Hu) as [Hne ->].
  destruct (day_counts fresh rs u Hrs) as (Hc & Hl & Hsum & Hle).
  split.
  { intros Hnil. apply Hne. apply length_zero_iff_nil. rewrite Hl, Hnil. done. }
  rewrite Hc, Hl, Hsum. apply mkfloat_eq, float_div_exact.
  - pose proof (length_filter (λ r, cell "user_id" r = VStr u) rs).
    unfold rows_of_user. lia.
  - pose proof (length_filter (λ r, cell "user_id" r = VStr u) rs).
    unfold rows_of_user in Hle. lia.
Qed.

(** C6.  Every record gets, as [user_daily_avg_events], the mean of the
    per-day event counts of its user over the calendar days on which the user
    has an event: the number of the user's events divided by the number of
    those days, as a binary64 number.  Three events on one day and one on
    another give 2, and a single active day gives that day's count.  The
    other cells of the record stay as they are. *)
Theorem daily_average_over_active_days df :
  baseline_ready df = true → Z.of_nat (length (rows df)) ≤ 2 ^ 53 →
  ∃ df', add_user_activity_baseline df = Returned df' ∧
    Forall2 (λ r r',
      (∀ c, c ≠ "user_daily_avg_events" → r' !! c = r !! c) ∧
      ∀ u, cell "user_id" r = VStr u →
        let days := days_of u (rows df) in
        let counts := (λ d, events_on_day u d (rows df)) <$> days in
        days ≠ [] ∧
        sum_list counts = length (rows_of_user u (rows df)) ∧
        cell "user_daily_avg_events" r' =
          mkfloat (round64 (inject_Z (Z.of_nat (sum_list counts))
                            / inject_Z (Z.of_nat (length days)))) ∧
        (counts ≡ₚ [3%nat; 1%nat] → cell "user_daily_avg_events" r' = VFloat 2) ∧
        (∀ d, days = [d] →
           cell "user_daily_avg_events" r' =
             mkfloat (inject_Z (Z.of_nat (events_on_day u d (rows df))))))
      (rows df) (rows df').
Proof.
  intros [Hv _]%baseline_ready_inv Hlen.
  rewrite (add_user_activity_baseline_rows _ df Hv) by constructor.
  apply user_time_table_inv in Hv as (_ & _ & _ & Hrows).
  eexists. split; [done|]. cbn [rows].
  apply Forall2_fmap_r, Forall_Forall2_diag, Forall_forall. intros r Hr. split.
  { intros c Hc. by rewrite lookup_insert_ne. }
  intros u Hu. cbv zeta. rewrite cell_insert_eq, Hu.
  destruct (user_mean_days _ (rows df) u r Hrows Hlen Hr Hu) as [Hne ->].
  destruct (day_counts _ (rows df) u Hrows) as (_ & _ & Hsum & Hle).
  rewrite Hsum. split_and!; [done|done|done| |].
  - intros Hc.
    assert (length (days_of u (rows df)) = 2%nat) as ->
      by by rewrite <-(length_fmap (λ d, events_on_day u d (rows df))), Hc.
    rewrite <-Hsum, Hc. by vm_compute.
  - intros d Hd. rewrite Hd in Hsum |- *. csimpl in Hsum. rewrite Nat.add_0_r in Hsum.
    rewrite Hsum. cbn [length]. apply mkfloat_eq.
    pose proof (length_filter (λ r, cell "user_id" r = VStr u) (rows df)).
    unfold rows_of_user. change (Z.of_nat 1) with 1.
    rewrite <-(round64_Z (Z.of_nat (length (filter _ (rows df))))) at 2 by lia.
    apply round64_eq. unfold Qdiv. change (/ inject_Z 1)%Q with 1%Q. ring.
Qed.

Lemma daily_average_over_active_days_witness :
  ∃ df', add_user_activity_baseline daily_table = Returned df' ∧
    Forall2 (λ r r',
      (∀ c, c ≠ "user_daily_avg_events" → r' !! c = r !! c) ∧
      ∀ u, cell "user_id" r = VStr u →
        let days := days_of u (rows daily_table) in
        let counts := (λ d, events_on_day u d (rows daily_table)) <$> days in
        days ≠ [] ∧
        sum_list counts = length (rows_of_user u (rows daily_table)) ∧
        cell "user_daily_avg_events" r' =
          mkfloat (round64 (inject_Z (Z.of_nat (sum_list counts))
                            / inject_Z (Z.of_nat (length days)))) ∧
        (counts ≡ₚ [3%nat; 1%nat] → cell "user_daily_avg_events" r' = VFloat 2) ∧
        (∀ d, days = [d] →
           cell "user_daily_avg_events" r' =
             mkfloat (inject_Z (Z.of_nat (events_on_day u d (rows daily_table))))))
      (rows daily_table) (rows df').
Proof.
  apply (daily_average_over_active_days daily_table); [reflexivity|by vm_compute].
Defined.

(** The example of the spec: U1 has three events on one day and one on the
    next, U2 two events on a single day. *)
Example daily_average_example :
  ∃ df', add_user_activity_baseline daily_table = Returned df' ∧
    cell "user_id" <$> rows df' =
      [VStr "u1"; VStr "u2"; VStr "u1"; VStr "u1"; VStr "u1"; VStr "u2"] ∧
    cell "user_daily_avg_events" <$> rows df' =
      [VFloat 2; VFloat 2; VFloat 2; VFloat 2; VFloat 2; VFloat 2] ∧
    days_of "u1" (rows daily_table) = [1; 0] ∧
    (λ d, events_on_day "u1" d (rows daily_table)) <$> days_of "u1" (rows daily_table)
      = [1%nat; 3%nat] ∧
    (λ d, events_on_day "u2" d (rows daily_table)) <$> days_of "u2" (rows daily_table)
      = [2%nat].
Proof. eexists. split; [vm_compute; reflexivity|]. by vm_compute. Qed.

(** A mean that is no binary64 number is rounded: four events on three days
    give 1.3333333333333333, which is not 4/3. *)
Example daily_average_rounded :
  ∃ df', add_user_activity_baseline three_day_table = Returned df' ∧
    cell "user_daily_avg_events" <$> rows df' =
      [VFloat (6004799503160661 # 4503599627370496);
       VFloat (6004799503160661 # 4503599627370496);
       VFloat (6004799503160661 # 4503599627370496);
       VFloat (6004799503160661 # 4503599627370496)] ∧
    ¬ (6004799503160661 # 4503599627370496 == 4 # 3)%Q.
Proof. eexists. split; [vm_compute; reflexivity|]. split; [by vm_compute|]. by intros H. Qed.

(** * Session Segmenter and Session Aggregator *)

(** ** The rows that [add_session_features] returns *)

Lemma stats_row_cells (a b c d e v : value) :
  let m : gmap string value :=
    <["user_id" := a]> (<["session_id" := b]> (<["session_event_count" := c]>
      (<["session_start" := d]> (<["session_end" := e]> ∅)))) in
  cell "session_end" m = e ∧ cell "session_start" m = d ∧
  key_of ["user_id"; "session_id"]
    (foldr delete (<["session_duration_seconds" := v]> m)
       ["session_start"; "session_end"]) = [a; b] ∧
  foldr delete
    (foldr delete (<["session_duration_seconds" := v]> m)
       ["session_start"; "session_end"])
    ["user_id"; "session_id"]
  = {[ "session_event_count" := c; "session_duration_seconds" := v ]}.
Proof.
  intros m. unfold m, cell. split_and!.
  - by simplify_map_eq.
  - by simplify_map_eq.
  - unfold key_of, cell. simpl. by simplify_map_eq.
  - apply map_eq. intros i. simpl.
    rewrite !lookup_delete, !lookup_insert, lookup_empty, lookup_singleton.
    repeat case_decide; simplify_eq; done.
Qed.

Lemma elem_of_segmented gap rs l :
  l ∈ segmented gap rs →
  ∃ r n, l = <["session_id" := VInt n]> r ∧
         r ∈ stable_sort (row_leb ["user_id"; "timestamp"]) rs.
Proof.
  unfold segmented. intros (r & n & -> & Hr & _)%elem_of_zip_with. eauto.
Qed.

Lemma in_range_is_time v : in_range v = true → is_time v = true.
Proof. by destruct v. Qed.

Lemma segmented_in_range gap (rs : list Row) x :
  Forall (λ r, in_range (cell "timestamp" r) = true) rs →
  x ∈ segmented gap rs → in_range (cell "timestamp" x) = true.
Proof.
  intros Hrs (r & n & -> & Hr)%elem_of_segmented.
  rewrite stable_sort_perm in Hr. rewrite Forall_forall in Hrs.
  rewrite cell_insert_ne by done. by apply Hrs.
Qed.

(** The earliest and the latest timestamp of a group of rows whose
    timestamps are within [2^62] nanoseconds of the epoch are an int64
    apart. *)
Lemma check_int64_span (g : list Row) :
  g ≠ [] → Forall (λ r, in_range (cell "timestamp" r) = true) g →
  check_int64 (delta (apply_agg AggMax (cell "timestamp" <$> g))
                     (apply_agg AggMin (cell "timestamp" <$> g)))
  = Ok (delta (apply_agg AggMax (cell "timestamp" <$> g))
              (apply_agg AggMin (cell "timestamp" <$> g))).
Proof.
  intros Hne Hg.
  destruct (agg_min_max_times (cell "timestamp" <$> g))
    as (tmin & tmax & -> & -> & Hmin & Hmax & _).
  - by intros ?%fmap_nil_inv.
  - apply Forall_fmap. eapply Forall_impl; [exact Hg|]. intros r. apply in_range_is_time.
  - rewrite Forall_forall in Hg.
    apply list_elem_of_fmap in Hmin as (a & Ha & Hina), Hmax as (b & Hb & Hinb).
    apply check_int64_delta; [rewrite Hb|rewrite Ha]; by apply Hg.
Qed.

Lemma add_session_features_table df gap :
  session_ready df = true →
  add_session_features df gap =
    Returned {| columns := columns df ++ session_columns;
                rows := (λ r, r ∪ session_stats (segmented gap (rows df)) r)
                          <$> segmented gap (rows df) |}.
Proof.
  intros [Hv Hrange]%session_ready_inv.
  apply valid_table_inv in Hv as (Hts & Hu & He & Hfresh & Hrows).
  assert (Htc : "timestamp" ∈ col_names df) by by eapply col_dtype_Some_elem.
  unfold add_session_features. rewrite (proj2 (has_column_true _ _)) by done.
  simpl negb. cbv iota. unfold body.
  unfold sort_values. rewrite missing_column_None by (by repeat constructor).
  cbn [mbind res_bind].
  set (srt := stable_sort (row_leb ["user_id"; "timestamp"]) (rows df)).
  assert (Hsrt : Forall (λ r, valid_row session_names r = true) srt).
  { unfold srt. by rewrite stable_sort_perm. }
  assert (Hsrt_range : Forall (λ r, in_range (cell "timestamp" r) = true) srt).
  { unfold srt. by rewrite stable_sort_perm. }
  (* line 75-77 *)
  unfold groupby_diff. rewrite missing_column_None by (by repeat constructor).
  rewrite (getcol_Ok "timestamp" _ DDatetime) by done.
  cbn [mbind res_bind sdtype svals rows].
  rewrite mapM_Ok_same by (by apply group_diffs_in_range, Forall_fmap).
  cbn [mbind res_bind]. unfold group_diffs.
  rewrite zip_fmap_same, zip_with_fmap_in. cbn [fst snd].
  rewrite (zip_with_ext_elem _ (λ r p, delta_prev (cell "timestamp" r) p)); last first.
  { intros r p Hr. rewrite Forall_forall in Hsrt.
    by rewrite (valid_row_key_not_na session_names r) by auto. }
  rewrite dt_total_seconds_Ok. cbn [mbind res_bind].
  unfold fillna_inf. cbn [sdtype svals].
  rewrite !fmap_zip_with_out.
  set (filled := zip_with _ srt _).
  assert (Hlen : length filled = length srt).
  { unfold filled. rewrite length_zip_with_l_eq; [done|].
    by rewrite length_group_shift, length_fmap. }
  set (df2 := setcol "_time_diff_sec" _ _).
  rewrite (getcol_Ok "_time_diff_sec" df2 DFloat) by apply col_dtype_set_dtype_eq.
  destruct (col_dtype_is_Some "user_id" (columns df) Hu) as [dtu Hdtu].
  rewrite (getcol_Ok "user_id" df2 dtu)
    by (unfold df2, setcol; cbn [columns]; by rewrite col_dtype_set_dtype_ne).
  cbn [mbind res_bind].
  assert (Htd : cell "_time_diff_sec" <$> rows df2 = filled)
    by (by apply cell_setcol_eq).
  assert (Hus : cell "user_id" <$> rows df2 = cell "user_id" <$> srt)
    by (by apply cell_setcol_ne).
  rewrite Htd, Hus.
  (* line 79-81 *)
  unfold astype_int, groupby_cumsum, series_gt. cbn [sdtype svals].
  assert (Hfl : as_bool <$> ((λ v, VBool (gt_scalar (gap * 60) v)) <$> filled)
                = session_flags (gap * 60) srt).
  { unfold filled. rewrite !fmap_zip_with_out. reflexivity. }
  rewrite Hfl. fold (session_ids (gap * 60) srt).
  assert (Hidlen : length (session_ids (gap * 60) srt) = length srt).
  { unfold session_ids. rewrite length_group_cumsum, length_zip_with_l_eq, length_fmap; [done|].
    unfold session_flags. rewrite length_fmap, length_zip_with_l_eq; [done|].
    by rewrite length_group_shift, length_fmap. }
  rewrite zip_with_not_na; last first.
  { by rewrite length_fmap. }
  { apply Forall_fmap. eapply Forall_impl; [exact Hsrt|].
    intros r Hr. exact (valid_row_user_not_na _ _ Hr). }
  rewrite mapM_Ok_same by (apply Forall_fmap, Forall_true; done).
  cbn [mbind res_bind sdtype svals].
  set (df3 := setcol "session_id" _ df2).
  rewrite (drop_columns_Ok _ df3); last first.
  { repeat constructor. unfold df3, df2, setcol, col_names. cbn [columns].
    rewrite !elem_of_set_dtype. auto. }
  cbn [mbind res_bind].
  assert (Hr3 : (λ r : Row, foldr delete r ["_time_diff_sec"]) <$> rows df3 =
                segmented gap (rows df)).
  { unfold df3, df2, setcol. cbn [rows svals].
    rewrite drop_after_setcol; [| done | done |].
    - unfold segmented. fold srt. by rewrite zip_with_fmap_r.
    - eapply Forall_impl; [exact Hsrt|]. intros r (_ & _ & _ & Hf)%valid_row_inv.
      apply Hf. set_solver. }
  rewrite Hr3.
  set (rs2 := segmented gap (rows df)).
  set (cols4 := filter _ (columns df3)).
  assert (Hc4 : ∀ c, c ∈ cols4.*1 ↔
                     (c = "session_id" ∨ c ∈ col_names df) ∧ c ≠ "_time_diff_sec").
  { intros c. unfold cols4. rewrite elem_of_filter_columns.
    unfold df3, df2, setcol. cbn [columns sdtype]. rewrite !elem_of_set_dtype.
    rewrite list_elem_of_singleton. unfold col_names.
    assert ("_time_diff_sec" ∉ col_names df) by (apply Hfresh; by repeat constructor).
    split; [|naive_solver]. intros [[?|[?|?]] ?]; naive_solver. }
  assert (Hts4 : col_dtype "timestamp" cols4 = Some DDatetime).
  { unfold cols4. rewrite col_dtype_filter_columns by set_solver.
    unfold df3, df2, setcol. cbn [columns sdtype].
    by rewrite !col_dtype_set_dtype_ne. }
  rewrite groupby_agg_Ok; last first.
  { apply missing_column_None. unfold col_names. cbn [columns].
    repeat constructor; apply Hc4; auto. }
  cbn [mbind res_bind].
  set (stats := groupby_reduce _ _ _).
  rewrite (getcol_Ok "session_end" stats DDatetime); last first.
  { unfold stats, groupby_reduce. cbn [columns fmap list_fmap app col_dtype fst snd].
    rewrite !decide_False by done. rewrite decide_True by done.
    cbn [agg_dtype]. by rewrite Hts4. }
  rewrite (getcol_Ok "session_start" stats DDatetime); last first.
  { unfold stats, groupby_reduce. cbn [columns fmap list_fmap app col_dtype fst snd].
    rewrite !decide_False by done. rewrite decide_True by done.
    cbn [agg_dtype]. by rewrite Hts4. }
  cbn [mbind res_bind]. rewrite series_sub_Ok; last first.
  { rewrite zip_with_fmap_both. unfold stats, groupby_reduce. cbn [rows].
    apply Forall_fmap, Forall_fmap, Forall_forall.
    intros k (_ & r & Hr & <-)%elem_of_group_keys. unfold compose.
    change (key_of ["user_id"; "session_id"] r)
      with [cell "user_id" r; cell "session_id" r].
    unfold reduce_row.
    cbn [zip_with app fmap list_fmap list_to_map fold_right fst snd].
    match goal with
    | |- context [<["session_event_count" := ?c]> (<["session_start" := ?d]>
                     (<["session_end" := ?e]> ∅))] =>
        destruct (stats_row_cells (cell "user_id" r) (cell "session_id" r) c d e VNA)
          as (He1 & He2 & _)
    end.
    rewrite He1, He2. apply check_int64_span.
    - intros Hnil. assert (r ∈ group_rows ["user_id"; "session_id"]
                                 [cell "user_id" r; cell "session_id" r] rs2) as Hin
        by by apply list_elem_of_filter.
      rewrite Hnil in Hin. by apply elem_of_nil in Hin.
    - apply Forall_forall. intros x [_ Hx]%list_elem_of_filter.
      by apply (segmented_in_range gap (rows df)). }
  cbn [mbind res_bind].
  rewrite dt_total_seconds_Ok. cbn [mbind res_bind].
  unfold astype_Float64. cbn [svals].
  rewrite mapM_Ok_same; last first.
  { apply Forall_fmap, Forall_true. intros v. apply to_Float64_total_seconds. }
  cbn [mbind res_bind].
  rewrite zip_with_fmap_both, <-list_fmap_compose.
  set (h := total_seconds ∘ _).
  rewrite drop_columns_Ok; last first.
  { unfold setcol, col_names, stats, groupby_reduce. cbn [columns sdtype].
    repeat constructor; rewrite elem_of_set_dtype; right; cbn; set_solver. }
  cbn [mbind res_bind].
  unfold setcol at 2. cbn [rows svals].
  rewrite zip_with_fmap_same, <-list_fmap_compose.
  unfold stats at 3, groupby_reduce. cbn [rows]. rewrite <-list_fmap_compose.
  set (f := _ ∘ reduce_row _ _ _).
  assert (Hf : ∀ a b,
    key_of ["user_id"; "session_id"] (f [a; b]) = [a; b] ∧
    foldr delete (f [a; b]) ["user_id"; "session_id"] =
      {[ "session_event_count" :=
           apply_agg AggCount
             (cell "event_id" <$> group_rows ["user_id"; "session_id"] [a; b] rs2);
         "session_duration_seconds" :=
           total_seconds (delta
             (apply_agg AggMax
                (cell "timestamp" <$> group_rows ["user_id"; "session_id"] [a; b] rs2))
             (apply_agg AggMin
                (cell "timestamp" <$> group_rows ["user_id"; "session_id"] [a; b] rs2))) ]}).
  { intros a b. unfold f, h, compose, reduce_row.
    cbn [zip_with app fmap list_fmap list_to_map fold_right fst snd].
    match goal with
    | |- context [<["session_event_count" := ?c]> (<["session_start" := ?d]>
                     (<["session_end" := ?e]> ∅))] =>
        destruct (stats_row_cells a b c d e (total_seconds (delta e d)))
          as (He1 & He2 & He3 & He4)
    end.
    rewrite He1, He2. split; [exact He3|exact He4]. }
  erewrite (merge_left_unique _ _ _ f); [| | | | reflexivity | | |].
  - apply (f_equal Returned). cbn [columns rows]. apply (f_equal2 mkDF).
    + assert (Hn1 : "_time_diff_sec" ∉ (columns df).*1) by (apply Hfresh; by repeat constructor).
      assert (Hn2 : "session_id" ∉ (columns df).*1) by (apply Hfresh; by repeat constructor).
      change session_columns with
        ([("session_id", DInt)] ++
         [("session_event_count", DInt); ("session_duration_seconds", DFloat)]).
      rewrite (assoc app). f_equal.
      unfold cols4, df3, df2, setcol. cbn [columns sdtype].
      rewrite (set_dtype_fresh "_time_diff_sec") by done.
      rewrite (set_dtype_fresh "session_id"); last first.
      { rewrite fmap_app, elem_of_app. intros [?|?%list_elem_of_singleton]; done. }
      rewrite !filter_app, filter_columns_fresh by done.
      rewrite <-(assoc app). f_equal.
    + apply fmap_ext_elem. intros l Hl.
      change (key_of ["user_id"; "session_id"] l)
        with [cell "user_id" l; cell "session_id" l].
      by rewrite (proj2 (Hf _ _)).
  - apply missing_column_None. unfold col_names. cbn [columns].
    repeat constructor; rewrite elem_of_filter_columns;
      (split; [|set_solver]); unfold setcol, stats, groupby_reduce;
      cbn [columns sdtype]; rewrite elem_of_set_dtype; right; cbn; set_solver.
  - apply missing_column_None. unfold col_names. cbn [columns].
    repeat constructor; apply Hc4; auto.
  - unfold col_names. cbn [columns]. intros c [Hc Hne]%Hc4.
    rewrite elem_of_filter_columns.
    unfold setcol, stats, groupby_reduce. cbn [columns sdtype].
    rewrite elem_of_set_dtype. cbn. intros [Hc' Hdrop].
    assert ("session_event_count" ∉ col_names df) by (apply Hfresh; by repeat constructor).
    assert ("session_duration_seconds" ∉ col_names df) by (apply Hfresh; by repeat constructor).
    rewrite !not_elem_of_cons in Hdrop. rewrite !elem_of_cons in Hc'. rewrite !elem_of_cons.
    destruct Hc as [->|Hc]; [by auto|].
    destruct Hdrop as (Hd1 & Hd2 & _).
    destruct Hc' as [->|[->|[->|[->|[->|[->|[]%elem_of_nil]]]]]];
      first [ by left | by right; left | contradiction ].
  - apply NoDup_group_keys.
  - intros k (_ & r & _ & <-)%elem_of_group_keys.
    change (key_of ["user_id"; "session_id"] r)
      with [cell "user_id" r; cell "session_id" r].
    apply Hf.
  - cbn [rows]. intros l Hl. apply elem_of_group_keys. split; [|by eauto].
    apply elem_of_segmented in Hl as (r & n & -> & Hr).
    fold srt in Hr. rewrite Forall_forall in Hsrt. apply Hsrt in Hr.
    apply valid_row_inv in Hr as ((u & Hu') & _).
    unfold key_of, cell. simpl. rewrite lookup_insert_ne by done. rewrite Hu'.
    by rewrite lookup_insert_eq.
Qed.

Lemma add_session_features_rows df gap :
  session_ready df = true →
  ∃ cols, add_session_features df gap =
    Returned {| columns := cols;
                rows := (λ r, r ∪ session_stats (segmented gap (rows df)) r)
                          <$> segmented gap (rows df) |}.
Proof. intros Hv. eexists. by apply add_session_features_table. Qed.

Lemma session_stats_lookup_other rs (r : Row) c :
  c ≠ "session_event_count" → c ≠ "session_duration_seconds" →
  session_stats rs r !! c = None.
Proof.
  intros H1 H2. unfold session_stats. cbv zeta.
  rewrite lookup_insert_ne by done. by rewrite lookup_singleton_ne.
Qed.

Lemma attach_session_lookup_other rs (r : Row) n c :
  c ≠ "session_id" → c ≠ "session_event_count" → c ≠ "session_duration_seconds" →
  attach_session rs r n !! c = r !! c.
Proof.
  intros H1 H2 H3. unfold attach_session.
  rewrite lookup_union_l by by apply session_stats_lookup_other.
  by rewrite lookup_insert_ne.
Qed.

Lemma attach_session_cell_other rs (r : Row) n c :
  c ≠ "session_id" → c ≠ "session_event_count" → c ≠ "session_duration_seconds" →
  cell c (attach_session rs r n) = cell c r.
Proof. intros. unfold cell. by rewrite attach_session_lookup_other. Qed.

Lemma attach_session_cell_sid rs (r : Row) n :
  cell "session_id" (attach_session rs r n) = VInt n.
Proof.
  unfold attach_session, cell.
  by rewrite lookup_union_l, lookup_insert_eq by by apply session_stats_lookup_other.
Qed.

Lemma add_session_features_attach df gap :
  session_ready df = true →
  ∃ cols, add_session_features df gap =
    Returned
      {| columns := cols;
         rows :=
           let srt := stable_sort (row_leb ["user_id"; "timestamp"]) (rows df) in
           zip_with (attach_session (segmented gap (rows df))) srt
             (session_ids (gap * 60) srt) |}.
Proof.
  intros Hv. destruct (add_session_features_rows df gap Hv) as [cols ->].
  exists cols. f_equal. f_equal. unfold segmented at 2. cbv zeta.
  rewrite (zip_with_as_fmap (λ (r : Row) n, <["session_id" := VInt n]> r)).
  rewrite (zip_with_as_fmap (attach_session _)).
  rewrite <-list_fmap_compose. done.
Qed.

Lemma length_session_ids gs (rs : list Row) : length (session_ids gs rs) = length rs.
Proof.
  unfold session_ids.
  rewrite length_group_cumsum, length_zip_with_l_eq, length_fmap; [done|].
  unfold session_flags. rewrite length_fmap, length_zip_with_l_eq; [done|].
  by rewrite length_group_shift, length_fmap.
Qed.

Lemma add_session_features_length df gap :
  session_ready df = true →
  ∃ df', add_session_features df gap = Returned df' ∧
         length (rows df') = length (rows df).
Proof.
  intros Hv. destruct (add_session_features_attach df gap Hv) as [cols ->].
  eexists. split; [done|]. cbn [rows].
  rewrite length_zip_with_l_eq by by rewrite length_session_ids.
  apply length_stable_sort.
Qed.

(** ** The session ids of one user *)

Lemma key_of_user_iff (r : Row) v : key_of ["user_id"] r = [v] ↔ cell "user_id" r = v.
Proof. unfold key_of. simpl. naive_solver. Qed.

(** The session ids that the grouped computation gives to the rows of one
    user are those of the running count over that user's rows alone. *)
Lemma session_ids_user gs (rs : list Row) v :
  filter (λ p : Row * Z, cell "user_id" p.1 = v) (zip rs (session_ids gs rs)) =
  zip (filter (λ r, cell "user_id" r = v) rs)
      (user_session_ids gs (filter (λ r, cell "user_id" r = v) rs)).
Proof.
  unfold session_ids. rewrite (group_cumsum_group (cell "user_id") v). f_equal.
  unfold user_session_ids. f_equal.
  unfold session_flags. rewrite zip_zip_with, filter_fmap. cbn [fst].
  rewrite (list_filter_iff _ (λ p : Row * option value, key_of ["user_id"] p.1 = [v]))
    by (intros; by rewrite key_of_user_iff).
  rewrite (group_shift_group (key_of ["user_id"]) (cell "timestamp") [v] []).
  rewrite (list_filter_iff (λ r, key_of ["user_id"] r = [v]) (λ r, cell "user_id" r = v))
    by (intros; by rewrite key_of_user_iff).
  by rewrite snd_zip_decorate.
Qed.

Lemma rows_of_user_attach gap (rs : list Row) u :
  let srt := stable_sort (row_leb ["user_id"; "timestamp"]) rs in
  rows_of_user u
    (zip_with (attach_session (segmented gap rs)) srt (session_ids (gap * 60) srt)) =
  zip_with (attach_session (segmented gap rs)) (rows_of_user u srt)
    (user_session_ids (gap * 60) (rows_of_user u srt)).
Proof.
  intros srt. unfold rows_of_user.
  rewrite (zip_with_as_fmap _ srt), (zip_with_as_fmap _ (filter _ srt)).
  rewrite filter_fmap.
  rewrite (list_filter_iff _ (λ p : Row * Z, cell "user_id" p.1 = VStr u))
    by (intros; by rewrite attach_session_cell_other).
  by rewrite session_ids_user.
Qed.

(** The running count, unfolded at one position. *)
Lemma starts_session_first gs r : starts_session gs r None = true.
Proof. unfold starts_session. by destruct (cell "timestamp" r). Qed.

Lemma user_session_ids_head gs r g :
  user_session_ids gs (r :: g) !! 0%nat = Some 1.
Proof.
  unfold user_session_ids. cbn [fmap list_fmap shift_from zip_with cumsum_from].
  by rewrite starts_session_first.
Qed.

Lemma cumsum_from_step a prev gs (l1 : list Row) r1 r2 l2 :
  ∃ n,
    cumsum_from a (zip_with (starts_session gs) (l1 ++ r1 :: r2 :: l2)
                     (shift_from prev (cell "timestamp" <$> l1 ++ r1 :: r2 :: l2)))
      !! length l1 = Some n ∧
    cumsum_from a (zip_with (starts_session gs) (l1 ++ r1 :: r2 :: l2)
                     (shift_from prev (cell "timestamp" <$> l1 ++ r1 :: r2 :: l2)))
      !! S (length l1) =
      Some (n + if starts_session gs r2 (Some (cell "timestamp" r1)) then 1 else 0).
Proof.
  revert a prev. induction l1 as [|r l1 IH]; intros a prev; csimpl.
  - eexists. split; reflexivity.
  - apply IH.
Qed.

Lemma user_session_ids_step gs (l1 : list Row) r1 r2 l2 :
  ∃ n,
    user_session_ids gs (l1 ++ r1 :: r2 :: l2) !! length l1 = Some n ∧
    user_session_ids gs (l1 ++ r1 :: r2 :: l2) !! S (length l1) =
      Some (n + if starts_session gs r2 (Some (cell "timestamp" r1)) then 1 else 0).
Proof. apply cumsum_from_step. Qed.

Lemma length_user_session_ids gs g : length (user_session_ids gs g) = length g.
Proof.
  unfold user_session_ids. generalize 0 (@None value).
  induction g as [|r g IH]; intros a prev; csimpl; [done|]. by rewrite IH.
Qed.

Lemma user_session_ids_lookup_step gs (g : list Row) i r1 r2 :
  g !! i = Some r1 → g !! S i = Some r2 →
  ∃ n,
    user_session_ids gs g !! i = Some n ∧
    user_session_ids gs g !! S i =
      Some (n + if starts_session gs r2 (Some (cell "timestamp" r1)) then 1 else 0).
Proof.
  intros H1 H2.
  assert (g = take i g ++ r1 :: r2 :: drop (S (S i)) g) as Hg.
  { rewrite <-(take_drop_middle g i r1) at 1 by done. do 2 f_equal.
    by apply drop_S. }
  assert (length (take i g) = i) as Hlen.
  { apply length_take_le. apply lookup_lt_Some in H1. lia. }
  destruct (user_session_ids_step gs (take i g) r1 r2 (drop (S (S i)) g)) as [n Hn].
  rewrite <-Hg, Hlen in Hn. by exists n.
Qed.

Lemma user_session_ids_ext gs {A} (f1 f2 : A → Row) (l : list A) :
  (∀ x, cell "timestamp" (f1 x) = cell "timestamp" (f2 x)) →
  user_session_ids gs (f1 <$> l) = user_session_ids gs (f2 <$> l).
Proof.
  intros Hf. unfold user_session_ids. generalize 0 (@None value).
  induction l as [|x l IH]; intros a prev; csimpl; [done|].
  assert (starts_session gs (f1 x) prev = starts_session gs (f2 x) prev) as ->
    by (unfold starts_session; by rewrite Hf).
  rewrite Hf. f_equal. apply IH.
Qed.

(** ** The gap test *)

(** The test of line 79 for a row and the timestamp of the previous row of
    its user: on binary64 seconds. *)
Lemma starts_session_spec gs (r : Row) t1 t2 :
  cell "timestamp" r = VTime t2 →
  starts_session gs r (Some (VTime t1)) = true ↔
  (round64 (inject_Z gs) < float_seconds (t2 - t1))%Q.
Proof.
  intros Ht. unfold starts_session. rewrite Ht. cbn [delta_prev delta total_seconds].
  unfold mkfloat. cbn [is_na gt_scalar]. rewrite negb_true_iff.
  rewrite <-not_true_iff_false, Qle_bool_iff, Qred_correct.
  split; [apply Qnot_le_lt|apply Qlt_not_le].
Qed.




(** ** The distinct session ids of a user *)

Lemma first_occurrences_cumsum a seen bs :
  (∀ x, x ∈ seen → x ≤ a) →
  a ∈ seen ∨ head bs = Some true ∨ bs = [] →
  ∃ k : nat, first_occurrences seen (cumsum_from a bs) = (λ i : nat, a + Z.of_nat i) <$> seq 1 k.
Proof.
  revert a seen. induction bs as [|b bs IH]; intros a seen Hle Hstart.
  - by exists 0%nat.
  - cbn [cumsum_from first_occurrences]. destruct b.
    + rewrite decide_False by (intros ?%Hle; lia).
      destruct (IH (a + 1) ((a + 1) :: seen)) as [k Hk].
      * intros x [->|?%Hle]%elem_of_cons; lia.
      * left. constructor.
      * exists (S k). rewrite Hk. change (seq 1 (S k)) with (1%nat :: seq 2 k).
        rewrite fmap_cons. apply (f_equal (cons (a + 1))).
        rewrite <-(fmap_S_seq 1 k), <-list_fmap_compose. apply list_fmap_ext.
        intros; simpl; lia.
    + rewrite Z.add_0_r. destruct Hstart as [Ha|[?|?]]; try done.
      rewrite decide_True by done. apply IH; auto.
Qed.

Lemma first_occurrences_user_session_ids gs g :
  ∃ k : nat, first_occurrences [] (user_session_ids gs g) = Z.of_nat <$> seq 1 k.
Proof.
  unfold user_session_ids.
  destruct (first_occurrences_cumsum 0 []
    (zip_with (starts_session gs) g (shift_from None (cell "timestamp" <$> g))))
    as [k Hk].
  - by intros x ?%elem_of_nil.
  - destruct g as [|r g]; [by auto|]. right; left. csimpl.
    by rewrite starts_session_first.
  - exists k. rewrite Hk. apply list_fmap_ext. intros; simpl; lia.
Qed.

(** ** Time order within a user *)

Lemma sorted_user_chronological fresh (rs : list Row) u :
  Forall (λ r, valid_row fresh r = true) rs →
  chronological (rows_of_user u (stable_sort (row_leb ["user_id"; "timestamp"]) rs)).
Proof.
  intros Hrs i j r1 r2 Hij Hi Hj.
  assert (Hin : ∀ k r, rows_of_user u (stable_sort (row_leb ["user_id"; "timestamp"]) rs)
                         !! k = Some r →
                       cell "user_id" r = VStr u ∧ valid_row fresh r = true).
  { intros k r Hk%list_elem_of_lookup_2. apply list_elem_of_filter in Hk as [? Hk].
    split; [done|]. rewrite stable_sort_perm in Hk. rewrite Forall_forall in Hrs. auto. }
  destruct (Hin _ _ Hi) as [Hu1 (_ & (t1 & Ht1) & _)%valid_row_inv].
  destruct (Hin _ _ Hj) as [Hu2 (_ & (t2 & Ht2) & _)%valid_row_inv].
  assert (Hc1 : cell "timestamp" r1 = VTime t1) by (unfold cell; by rewrite Ht1).
  assert (Hc2 : cell "timestamp" r2 = VTime t2) by (unfold cell; by rewrite Ht2).
  exists t1, t2. split; [exact Hc1|]. split; [exact Hc2|].
  eapply (row_leb_same_user r1 r2 u); try done.
  apply (StronglySorted_lookup_lt
           (λ a b, row_leb ["user_id"; "timestamp"] a b = true)
           (rows_of_user u (stable_sort (row_leb ["user_id"; "timestamp"]) rs))
           i j); [|done..].
  apply StronglySorted_filter, stable_sort_sorted;
    [apply row_leb_total|apply row_leb_trans].
Qed.

(** ** The rows of one user in the output *)

Lemma cell_sid_attach rs (g : list Row) (ids : list Z) :
  length g = length ids →
  cell "session_id" <$> zip_with (attach_session rs) g ids = VInt <$> ids.
Proof.
  revert ids. induction g as [|r g IH]; intros [|n ids] Hlen; simplify_eq/=; [done|].
  by rewrite attach_session_cell_sid, IH.
Qed.

Lemma user_session_ids_attach gs rs (g : list Row) (ids : list Z) :
  length g = length ids →
  user_session_ids gs (zip_with (attach_session rs) g ids) = user_session_ids gs g.
Proof.
  intros Hlen. rewrite zip_with_as_fmap.
  rewrite <-(fst_zip g ids) at 2 by lia.
  apply user_session_ids_ext. intros [r n]. by apply attach_session_cell_other.
Qed.

Lemma chronological_attach rs (g : list Row) (ids : list Z) :
  chronological g → chronological (zip_with (attach_session rs) g ids).
Proof.
  intros Hg i j r1 r2 Hij
    (b1 & n1 & -> & Hb1 & _)%lookup_zip_with_Some
    (b2 & n2 & -> & Hb2 & _)%lookup_zip_with_Some.
  rewrite !attach_session_cell_other by done. by eapply Hg.
Qed.

Lemma agrees_on_attach cs rs (r : Row) n :
  "session_id" ∉ cs → "session_event_count" ∉ cs → "session_duration_seconds" ∉ cs →
  agrees_on cs r (attach_session rs r n).
Proof.
  intros H1 H2 H3 c Hc. apply attach_session_lookup_other; by intros ->.
Qed.

Lemma Forall2_zip_with_attach cs rs (g : list Row) (ids : list Z) :
  "session_id" ∉ cs → "session_event_count" ∉ cs → "session_duration_seconds" ∉ cs →
  length g = length ids →
  Forall2 (agrees_on cs) g (zip_with (attach_session rs) g ids).
Proof.
  intros H1 H2 H3. revert ids.
  induction g as [|r g IH]; intros [|n ids] Hlen; simplify_eq/=; constructor.
  - by apply agrees_on_attach.
  - by apply IH.
Qed.

Lemma session_fresh_not_in df :
  session_ready df = true →
  ("session_id" ∉ col_names df) ∧ ("session_event_count" ∉ col_names df) ∧
  ("session_duration_seconds" ∉ col_names df).
Proof.
  intros [(_ & _ & _ & Hf & _)%valid_table_inv _]%session_ready_inv.
  split_and!; apply Hf; by repeat constructor.
Qed.

(** What [add_session_features] returns for the rows of one user: the user's
    rows in time order, each with the running count of the user's session
    starts and the statistics of its session. *)
Lemma add_session_features_user df gap :
  session_ready df = true →
  ∃ df', add_session_features df gap = Returned df' ∧
    ∀ u, ∃ g,
      g ≡ₚ rows_of_user u (rows df) ∧
      chronological g ∧
      rows_of_user u (rows df') =
        zip_with (attach_session (segmented gap (rows df))) g
          (user_session_ids (gap * 60) g).
Proof.
  intros Hv. destruct (add_session_features_attach df gap Hv) as [cols ->].
  eexists. split; [done|]. intros u. cbn [rows].
  exists (rows_of_user u (stable_sort (row_leb ["user_id"; "timestamp"]) (rows df))).
  split; [|split; [|apply rows_of_user_attach]].
  - unfold rows_of_user. by rewrite stable_sort_perm.
  - apply session_ready_inv in Hv as [(_ & _ & _ & _ & Hrows)%valid_table_inv _].
    by eapply sorted_user_chronological.
Qed.

(** The rows of one user that [add_session_features] returns are the rows
    that the user has in the input, rearranged, with their input cells. *)
Lemma user_rows_from_input df gap (g : list Row) u :
  session_ready df = true →
  g ≡ₚ rows_of_user u (rows df) →
  ∃ p, p ≡ₚ rows_of_user u (rows df) ∧
       Forall2 (agrees_on (col_names df)) p
         (zip_with (attach_session (segmented gap (rows df))) g
            (user_session_ids (gap * 60) g)).
Proof.
  intros Hv Hg. destruct (session_fresh_not_in df Hv) as (H1 & H2 & H3).
  exists g. split; [done|].
  apply Forall2_zip_with_attach; try done. by rewrite length_user_session_ids.
Qed.

(** ** Session ids *)

(** C1, as the code has it.  The rows that [add_session_features] returns for
    a user are the user's input rows in time order; their session ids are the
    running count of the user's session starts over these rows.  The count
    starts with the first row, so the first row has the id 1 and the ids met
    in time order are 1, 2, ..., k. *)
Theorem session_ids_count_from_one df gap :
  session_ready df = true → gap_ok gap = true →
  ∃ df', add_session_features df gap = Returned df' ∧
    ∀ u, let g := rows_of_user u (rows df') in
      (∃ p, p ≡ₚ rows_of_user u (rows df) ∧ Forall2 (agrees_on (col_names df)) p g) ∧
      chronological g ∧
      cell "session_id" <$> g = VInt <$> user_session_ids (gap * 60) g ∧
      (∀ r, g !! 0%nat = Some r → cell "session_id" r = VInt 1) ∧
      ∃ k : nat,
        first_occurrences [] (user_session_ids (gap * 60) g) = Z.of_nat <$> seq 1 k.
Proof.
  intros Hv _. destruct (add_session_features_user df gap Hv) as (df' & Hret & Hu).
  exists df'. split; [done|]. intros u. cbv zeta.
  destruct (Hu u) as (g & Hperm & Hchron & ->).
  assert (Hlen : length g = length (user_session_ids (gap * 60) g))
    by by rewrite length_user_session_ids.
  split; [by apply user_rows_from_input|].
  rewrite user_session_ids_attach by done. split_and!.
  - by apply chronological_attach.
  - by apply cell_sid_attach.
  - intros r (b & n & -> & Hb & Hn)%lookup_zip_with_Some.
    destruct g as [|b' g]; [done|].
    rewrite user_session_ids_head in Hn. injection Hn as <-.
    apply attach_session_cell_sid.
  - apply first_occurrences_user_session_ids.
Qed.

Lemma session_ids_count_from_one_witness :
  ∃ df', add_session_features scenario_table 30 = Returned df' ∧
    ∀ u, let g := rows_of_user u (rows df') in
      (∃ p, p ≡ₚ rows_of_user u (rows scenario_table) ∧
            Forall2 (agrees_on (col_names scenario_table)) p g) ∧
      chronological g ∧
      cell "session_id" <$> g = VInt <$> user_session_ids (30 * 60) g ∧
      (∀ r, g !! 0%nat = Some r → cell "session_id" r = VInt 1) ∧
      ∃ k : nat,
        first_occurrences [] (user_session_ids (30 * 60) g) = Z.of_nat <$> seq 1 k.
Proof. apply (session_ids_count_from_one scenario_table 30); reflexivity. Defined.

(** C1 as stated fails: on the scenario of the spec (events at 00:00, 00:20
    and 01:05, gap 30 minutes) the session ids are 1, 1, 2 and not 0, 0, 1;
    the first session of the user has id 1. *)
Lemma session_ids_do_not_start_at_zero :
  ∃ df', add_session_features scenario_table 30 = Returned df' ∧
    cell "session_id" <$> rows_of_user "u" (rows df') = [VInt 1; VInt 1; VInt 2] ∧
    cell "session_id" <$> rows_of_user "u" (rows df') ≠ [VInt 0; VInt 0; VInt 1].
Proof. eexists. split; [vm_compute; reflexivity|]. split; [by vm_compute|]. by vm_compute. Qed.



(** C3 as stated fails for long gaps.  With a gap of 300000 minutes two
    events of a user that are 18000000 s and one nanosecond apart, which is
    more than the gap, stay in one session: the binary64 number of seconds
    between them is 18000000. *)
Lemma gap_boundary_not_exact :
  session_ready long_gap_table = true ∧ gap_ok 300000 = true ∧
  (∃ t1 t2, cell "timestamp" <$> rows long_gap_table = [VTime t1; VTime t2] ∧
            300000 * 60 * ns_per_second < t2 - t1) ∧
  ∃ df', add_session_features long_gap_table 300000 = Returned df' ∧
    cell "user_id" <$> rows df' = [VStr "u"; VStr "u"] ∧
    cell "session_id" <$> rows df' = [VInt 1; VInt 1].
Proof.
  split; [reflexivity|]. split; [reflexivity|]. split.
  - eexists _, _. split; [reflexivity|]. by vm_compute.
  - eexists. split; [vm_compute; reflexivity|]. by vm_compute.
Qed.

(** With a gap of 30 minutes, an event 1800 s after the previous one stays in
    its session and an event 1801 s after the previous one starts the next. *)
Example gap_boundary_example :
  ∃ df', add_session_features boundary_table 30 = Returned df' ∧
    cell "session_id" <$> rows df' = [VInt 1; VInt 1; VInt 2].
Proof. eexists. split; [vm_compute; reflexivity|]. by vm_compute. Qed.

(** The same with the third event 1800 s and one nanosecond after the
    second. *)
Example gap_boundary_nanosecond :
  ∃ df', add_session_features nanosecond_table 30 = Returned df' ∧
    cell "session_id" <$> rows df' = [VInt 1; VInt 1; VInt 2].
Proof. eexists. split; [vm_compute; reflexivity|]. by vm_compute. Qed.

(** Two timestamps of one user that are more than [2^63 - 1] nanoseconds
    apart: the subtraction of line 76 raises. *)
Example far_apart_overflow :
  add_session_features far_apart_table 30 =
    Raised "add_session_features" (OverflowError "Overflow in int64 addition").
Proof. by vm_compute. Qed.

(** ** Session aggregates *)

Lemma segmented_row_facts gap (rs : list Row) l :
  Forall (λ r, valid_row session_names r = true) rs →
  l ∈ segmented gap rs →
  is_time (cell "timestamp" l) = true ∧ is_na (cell "event_id" l) = false ∧
  l !! "session_event_count" = None ∧ l !! "session_duration_seconds" = None.
Proof.
  intros Hrs (r & n & -> & Hr)%elem_of_segmented.
  rewrite stable_sort_perm in Hr. rewrite Forall_forall in Hrs.
  apply Hrs, valid_row_inv in Hr as (_ & (t & Ht) & (e & He & Hne) & Hf).
  unfold cell. rewrite !lookup_insert_ne by done. rewrite Ht, He. split_and!.
  - done.
  - by destruct e.
  - apply Hf. by repeat constructor.
  - apply Hf. by repeat constructor.
Qed.

Lemma with_stats_cell_other rs (l : Row) c :
  c ≠ "session_event_count" → c ≠ "session_duration_seconds" →
  cell c (l ∪ session_stats rs l) = cell c l.
Proof.
  intros. unfold cell. by rewrite lookup_union_l by by apply session_stats_lookup_other.
Qed.

Lemma session_key_iff (l : Row) ku ks :
  key_of ["user_id"; "session_id"] l = [ku; ks] ↔
  cell "user_id" l = ku ∧ cell "session_id" l = ks.
Proof. unfold key_of. simpl. naive_solver. Qed.

Lemma rows_of_session_with_stats rs ku ks :
  rows_of_session ku ks ((λ l, l ∪ session_stats rs l) <$> rs) =
  (λ l, l ∪ session_stats rs l) <$> group_rows ["user_id"; "session_id"] [ku; ks] rs.
Proof.
  unfold rows_of_session, group_rows. rewrite filter_fmap. f_equal.
  apply list_filter_iff. intros l. rewrite !with_stats_cell_other by done.
  by rewrite session_key_iff.
Qed.

(** A time of whole seconds, up to [2^53] nanoseconds, is that number of
    seconds as a float. *)
Lemma float_seconds_whole s :
  0 ≤ s → s * ns_per_second ≤ 2 ^ 53 →
  (float_seconds (s * ns_per_second) == inject_Z s)%Q.
Proof.
  intros Hs Hle. unfold ns_per_second in *.
  apply Qle_antisym; [apply float_div_le|apply float_div_ge];
    unfold ns_per_second; lia.
Qed.

(** C8.  The returned rows are the input rows, rearranged.  Every returned
    row carries the number of rows of its (user, session) group and the time
    between the earliest and the latest timestamp of the group as a binary64
    number of seconds ([total_seconds] of their difference), which is that
    number of seconds itself when the time is a whole number of seconds of at
    most [2^53] nanoseconds.  The duration is not negative, is zero for a
    session of one event, and both values are the same on all rows of the
    group. *)
Theorem session_aggregates df gap :
  session_ready df = true → gap_ok gap = true →
  ∃ df', add_session_features df gap = Returned df' ∧
    (∃ p, p ≡ₚ rows df ∧ Forall2 (agrees_on (col_names df)) p (rows df')) ∧
    ∀ r, r ∈ rows df' →
      let g := rows_of_session (cell "user_id" r) (cell "session_id" r) (rows df') in
      cell "session_event_count" r = VInt (Z.of_nat (length g)) ∧
      (∃ tmin tmax,
         (∃ a, a ∈ g ∧ cell "timestamp" a = VTime tmin) ∧
         (∃ b, b ∈ g ∧ cell "timestamp" b = VTime tmax) ∧
         (∀ x t, x ∈ g → cell "timestamp" x = VTime t → tmin ≤ t ≤ tmax) ∧
         cell "session_duration_seconds" r = mkfloat (float_seconds (tmax - tmin)) ∧
         (0 <= float_seconds (tmax - tmin))%Q ∧
         (∀ s, tmax - tmin = s * ns_per_second → s * ns_per_second ≤ 2 ^ 53 →
            cell "session_duration_seconds" r = mkfloat (inject_Z s))) ∧
      (length g = 1%nat → cell "session_duration_seconds" r = VFloat 0) ∧
      (∀ r2, r2 ∈ g →
         cell "session_event_count" r2 = cell "session_event_count" r ∧
         cell "session_duration_seconds" r2 = cell "session_duration_seconds" r).
Proof.
  intros Hv _. destruct (add_session_features_rows df gap Hv) as [cols Hret].
  destruct (add_session_features_attach df gap Hv) as [cols' Hret'].
  destruct (session_fresh_not_in df Hv) as (Hf1 & Hf2 & Hf3).
  rewrite Hret. rewrite Hret in Hret'. injection Hret' as _ Hrs.
  apply session_ready_inv in Hv as [(_ & _ & _ & _ & Hrows)%valid_table_inv _].
  eexists. split; [done|]. cbn [rows]. split.
  { exists (stable_sort (row_leb ["user_id"; "timestamp"]) (rows df)).
    split; [apply stable_sort_perm|]. rewrite Hrs.
    apply Forall2_zip_with_attach; try done. by rewrite length_session_ids. }
  clear Hrs. set (rs2 := segmented gap (rows df)).
  intros r (l & -> & Hl)%list_elem_of_fmap. cbv zeta.
  rewrite (with_stats_cell_other _ _ "user_id"),
    (with_stats_cell_other _ _ "session_id") by done.
  rewrite rows_of_session_with_stats.
  set (grp := group_rows _ _ rs2).
  assert (Hgrp : ∀ x, x ∈ grp → x ∈ rs2 ∧
            key_of ["user_id"; "session_id"] x = key_of ["user_id"; "session_id"] l).
  { intros x [? ?]%list_elem_of_filter. by split. }
  assert (Hl_grp : l ∈ grp) by (apply list_elem_of_filter; by split).
  assert (Hstats : ∀ x, x ∈ grp →
            cell "session_event_count" (x ∪ session_stats rs2 x) =
              apply_agg AggCount (cell "event_id" <$> grp) ∧
            cell "session_duration_seconds" (x ∪ session_stats rs2 x) =
              total_seconds (delta (apply_agg AggMax (cell "timestamp" <$> grp))
                                       (apply_agg AggMin (cell "timestamp" <$> grp)))).
  { intros x [Hx Hkey]%Hgrp.
    destruct (segmented_row_facts gap (rows df) x Hrows Hx) as (_ & _ & Hc & Hd).
    unfold cell. rewrite !lookup_union_r by done. unfold session_stats. cbv zeta.
    rewrite Hkey. fold grp. rewrite lookup_insert_eq.
    rewrite lookup_insert_ne by done. by rewrite lookup_singleton_eq. }
  destruct (Hstats l Hl_grp) as [-> ->].
  assert (Htimes : Forall (λ v, is_time v = true) (cell "timestamp" <$> grp)).
  { apply Forall_fmap, Forall_forall. intros x [Hx _]%Hgrp.
    by destruct (segmented_row_facts gap (rows df) x Hrows Hx) as (? & _). }
  destruct (agg_min_max_times (cell "timestamp" <$> grp))
    as (tmin & tmax & HaggMin & HaggMax & Hmin & Hmax & Hbounds); [|done|].
  { intros Hnil%fmap_nil_inv. rewrite Hnil in Hl_grp. by apply elem_of_nil in Hl_grp. }
  rewrite HaggMin, HaggMax in Hstats |- *.
  cbn [delta total_seconds] in Hstats |- *. rewrite length_fmap. split_and!.
  - rewrite agg_count_present; [by rewrite length_fmap|].
    apply Forall_fmap, Forall_forall. intros x [Hx _]%Hgrp.
    by destruct (segmented_row_facts gap (rows df) x Hrows Hx) as (_ & ? & _).
  - exists tmin, tmax. split_and!.
    + apply list_elem_of_fmap in Hmin as (a & Ha & Hin). exists (a ∪ session_stats rs2 a).
      split; [by apply (list_elem_of_fmap_2 (λ l, l ∪ session_stats rs2 l))|].
      by rewrite with_stats_cell_other.
    + apply list_elem_of_fmap in Hmax as (b & Hb & Hin). exists (b ∪ session_stats rs2 b).
      split; [by apply (list_elem_of_fmap_2 (λ l, l ∪ session_stats rs2 l))|].
      by rewrite with_stats_cell_other.
    + intros x t (x0 & -> & Hx0)%list_elem_of_fmap. rewrite with_stats_cell_other by done.
      intros Ht. apply Hbounds. rewrite <-Ht.
      by apply (list_elem_of_fmap_2 (cell "timestamp")).
    + done.
    + apply float_seconds_nonneg. apply Hbounds in Hmin. lia.
    + intros s Hs Hle. apply mkfloat_eq. rewrite Hs. apply float_seconds_whole; [|done].
      apply Hbounds in Hmin. unfold ns_per_second in *. lia.
  - intros Hone.
    assert (Hlen1 : length (cell "timestamp" <$> grp) = 1%nat) by by rewrite length_fmap.
    destruct (cell "timestamp" <$> grp) as [|v [|? ?]]; try done.
    apply list_elem_of_singleton in Hmin, Hmax. rewrite <-Hmin in Hmax.
    injection Hmax as ->. rewrite Z.sub_diag. by vm_compute.
  - intros r2 (x & -> & Hx)%list_elem_of_fmap.
    destruct (Hstats x Hx) as [Hc Hd]. split; [exact Hc|exact Hd].
Qed.

Lemma session_aggregates_witness :
  ∃ df', add_session_features scenario_table 30 = Returned df' ∧
    (∃ p, p ≡ₚ rows scenario_table ∧
          Forall2 (agrees_on (col_names scenario_table)) p (rows df')) ∧
    ∀ r, r ∈ rows df' →
      let g := rows_of_session (cell "user_id" r) (cell "session_id" r) (rows df') in
      cell "session_event_count" r = VInt (Z.of_nat (length g)) ∧
      (∃ tmin tmax,
         (∃ a, a ∈ g ∧ cell "timestamp" a = VTime tmin) ∧
         (∃ b, b ∈ g ∧ cell "timestamp" b = VTime tmax) ∧
         (∀ x t, x ∈ g → cell "timestamp" x = VTime t → tmin ≤ t ≤ tmax) ∧
         cell "session_duration_seconds" r = mkfloat (float_seconds (tmax - tmin)) ∧
         (0 <= float_seconds (tmax - tmin))%Q ∧
         (∀ s, tmax - tmin = s * ns_per_second → s * ns_per_second ≤ 2 ^ 53 →
            cell "session_duration_seconds" r = mkfloat (inject_Z s))) ∧
      (length g = 1%nat → cell "session_duration_seconds" r = VFloat 0) ∧
      (∀ r2, r2 ∈ g →
         cell "session_event_count" r2 = cell "session_event_count" r ∧
         cell "session_duration_seconds" r2 = cell "session_duration_seconds" r).
Proof. apply (session_aggregates scenario_table 30); reflexivity. Defined.

(** A session of three events within 0.1 s: the duration is the binary64
    number 0.1, which is not the rational 1/10. *)
Example session_duration_rounded :
  ∃ df', add_session_features tenth_table 30 = Returned df' ∧
    cell "session_event_count" <$> rows df' = [VInt 3; VInt 3; VInt 3] ∧
    cell "session_duration_seconds" <$> rows df' =
      [VFloat (3602879701896397 # 36028797018963968);
       VFloat (3602879701896397 # 36028797018963968);
       VFloat (3602879701896397 # 36028797018963968)] ∧
    ¬ (3602879701896397 # 36028797018963968 == 1 # 10)%Q.
Proof. eexists. split; [vm_compute; reflexivity|]. split_and!; [by vm_compute..|]. by intros H. Qed.

(** ** Row order *)

(** C9.  The rows of one user with one and the same timestamp come back in
    the order they have in the input. *)
Theorem equal_timestamps_keep_input_order df gap :
  session_ready df = true → gap_ok gap = true →
  ∃ df', add_session_features df gap = Returned df' ∧
    ∀ u t,
      Forall2 (agrees_on (col_names df))
        (filter (λ r, cell "user_id" r = u ∧ cell "timestamp" r = t) (rows df))
        (filter (λ r, cell "user_id" r = u ∧ cell "timestamp" r = t) (rows df')).
Proof.
  intros Hv _. destruct (add_session_features_attach df gap Hv) as [cols ->].
  destruct (session_fresh_not_in df Hv) as (H1 & H2 & H3).
  eexists. split; [done|]. intros u t. cbn [rows].
  set (srt := stable_sort _ (rows df)).
  set (P := λ r : Row, cell "user_id" r = u ∧ cell "timestamp" r = t).
  rewrite <-(stable_sort_stable (row_leb ["user_id"; "timestamp"])
               (row_leb_total _) (row_leb_trans _) P (rows df)); last first.
  { intros x y [Hx1 Hx2] [Hy1 Hy2]. unfold row_leb, key_of. simpl.
    rewrite Hx1, Hx2, Hy1, Hy2. apply (keys_leb_refl [u; t]). }
  fold srt. rewrite zip_with_as_fmap, filter_fmap.
  rewrite (list_filter_iff _ (λ p : Row * Z, P p.1)); last first.
  { intros [r n]. unfold P. cbn [fst snd]. by rewrite !attach_session_cell_other. }
  rewrite <-(fst_zip_filter P srt (session_ids (gap * 60) srt))
    by by rewrite length_session_ids.
  apply Forall2_fmap, Forall_Forall2_diag, Forall_forall.
  intros [r n] _. by apply agrees_on_attach.
Qed.

Lemma equal_timestamps_keep_input_order_witness :
  ∃ df', add_session_features tied_table 30 = Returned df' ∧
    ∀ u t,
      Forall2 (agrees_on (col_names tied_table))
        (filter (λ r, cell "user_id" r = u ∧ cell "timestamp" r = t)
           (rows tied_table))
        (filter (λ r, cell "user_id" r = u ∧ cell "timestamp" r = t) (rows df')).
Proof. apply (equal_timestamps_keep_input_order tied_table 30); reflexivity. Defined.

(** * Missing columns *)

Lemma add_session_features_without_user_id df gap :
  has_column "timestamp" df = true → has_column "user_id" df = false →
  add_session_features df gap = Raised "add_session_features" (KeyError "user_id").
Proof.
  intros Ht Hu%has_column_false. unfold add_session_features. rewrite Ht.
  cbn [negb]. unfold sort_values. by rewrite missing_column_head.
Qed.

(** C5, as the code has it.  Three stages pass the table through when a
    column is missing: the frequency stage without [user_id], the daily-rate
    stage without a datetime [timestamp], and [add_session_features] without
    [timestamp].  The severity scorer raises without [severity], and
    [add_session_features] raises when [timestamp] is there and [user_id] is
    not. *)
Theorem fallback_stages df gap :
  (has_column "user_id" df = false → add_user_event_frequency df = Returned df) ∧
  (has_column "timestamp" df = false ∨ is_datetime64_any_dtype "timestamp" df = false →
   add_user_activity_baseline df = Returned df) ∧
  (has_column "timestamp" df = false → add_session_features df gap = Returned df) ∧
  (has_column "severity" df = false →
   add_severity_score df = Raised "add_severity_score" (KeyError "severity")) ∧
  (has_column "timestamp" df = true → has_column "user_id" df = false →
   add_session_features df gap = Raised "add_session_features" (KeyError "user_id")).
Proof.
  split_and!.
  - intros H. unfold add_user_event_frequency. by rewrite H.
  - intros H. unfold add_user_activity_baseline. by destruct H as [-> | ->]; [|rewrite orb_true_r].
  - intros H. unfold add_session_features. by rewrite H.
  - intros H%has_column_false%col_dtype_None. unfold add_severity_score, getcol.
    by rewrite H.
  - apply add_session_features_without_user_id.
Qed.

Lemma fallback_stages_witness :
  add_user_event_frequency empty_table = Returned empty_table ∧
  add_user_activity_baseline empty_table = Returned empty_table ∧
  add_session_features empty_table 30 = Returned empty_table ∧
  add_severity_score empty_table = Raised "add_severity_score" (KeyError "severity") ∧
  add_session_features no_user_table 30 =
    Raised "add_session_features" (KeyError "user_id").
Proof.
  destruct (fallback_stages empty_table 30) as (H1 & H2 & H3 & H4 & _).
  destruct (fallback_stages no_user_table 30) as (_ & _ & _ & _ & H5).
  split_and!; [apply H1|apply H2; left|apply H3|apply H4|apply H5]; reflexivity.
Defined.

(** C5 as stated fails: [add_session_features] has a pass-through of its own.
    A table without [timestamp] comes back unchanged, with no session column
    and no exception. *)
Lemma session_stage_passes_through :
  has_column "timestamp" no_timestamp_table = false ∧
  add_session_features no_timestamp_table 30 = Returned no_timestamp_table.
Proof. split; reflexivity. Qed.

(** * The core *)

(** The cells of the first three stages depend on the [user_id], [event_id]
    and [timestamp] cells only, so a stage that adds another column does not
    change them. *)
Lemma user_event_count_fmap (f : Row → Row) rs r :
  (∀ x, cell "user_id" (f x) = cell "user_id" x) →
  (∀ x, cell "event_id" (f x) = cell "event_id" x) →
  user_event_count (f <$> rs) (f r) = user_event_count rs r.
Proof.
  intros Hu He. unfold user_event_count, transform_count_cell.
  rewrite !key_na_user, Hu.
  assert (group_count ["user_id"] "event_id" (f <$> rs) (f r) =
          group_count ["user_id"] "event_id" rs r) as ->.
  { rewrite !group_count_user. rewrite filter_fmap, length_fmap. do 2 f_equal.
    apply list_filter_iff. intros x. by rewrite !Hu, He. }
  assert (existsb (λ r', key_na (key_of ["user_id"] r')) (f <$> rs) =
          existsb (λ r', key_na (key_of ["user_id"] r')) rs) as ->; [|done].
  induction rs as [|x rs IH]; [done|]. rewrite fmap_cons. cbn [existsb].
  by rewrite IH, !key_na_user, Hu.
Qed.

Lemma with_date_fmap (f : Row → Row) rs :
  (∀ x, cell "user_id" (f x) = cell "user_id" x) →
  (∀ x, cell "timestamp" (f x) = cell "timestamp" x) →
  with_date (f <$> rs) = with_date rs.
Proof.
  intros Hu Ht. unfold with_date. rewrite <-list_fmap_compose. apply fmap_ext_elem.
  intros x _. unfold compose. by rewrite Hu, Ht.
Qed.

Lemma user_mean_fmap (f : Row → Row) rs v :
  (∀ x, cell "user_id" (f x) = cell "user_id" x) →
  (∀ x, cell "timestamp" (f x) = cell "timestamp" x) →
  user_mean (f <$> rs) v = user_mean rs v.
Proof. intros Hu Ht. unfold user_mean, daily_counts_rows. by rewrite with_date_fmap. Qed.

(** On a valid table the first three stages return and hand a table to
    [add_session_features] that is ready for it: the input with three more
    columns. *)
Lemma run_all_session_stage df gap :
  valid_input df = true →
  ∃ df3,
    run_all df gap = add_session_features df3 gap ∧
    session_ready df3 = true ∧
    columns df3 = columns df ++ [("severity_score", DFloat); ("user_event_count_total", DInt);
                                 ("user_daily_avg_events", DFloat)] ∧
    rows df3 = with_user_features (rows df) <$> rows df.
Proof.
  intros (Hsev & Hv & Hrange)%valid_input_inv.
  pose proof (valid_table_inv _ _ Hv) as (Hts & Hu & He & Hf & Hr).
  unfold run_all. rewrite add_severity_score_rows by done. cbn [mbind outcome_bind].
  rewrite (set_dtype_fresh "severity_score") by (apply Hf; by repeat constructor).
  set (df1 := mkDF _ _).
  assert (Hv1 : valid_table (["user_event_count_total"; "user_daily_avg_events"]
                             ++ session_names) df1 = true).
  { apply (valid_table_extend derived_names); try done.
    - intros x. rewrite fmap_app, elem_of_app. cbn. rewrite list_elem_of_singleton.
      unfold col_names. naive_solver.
    - rewrite Hts. by apply col_dtype_app_l.
    - by compute_done.
    - intros x Hx. by right. }
  pose proof (valid_table_inv _ _ Hv1) as (Hts1 & Hu1 & He1 & Hf1 & Hr1).
  rewrite (add_user_event_frequency_table df1) by by apply has_column_true.
  rewrite (transform_count_dtype_user (rows df1)) by by eapply valid_rows_user_not_na.
  cbn [mbind outcome_bind].
  rewrite (set_dtype_fresh "user_event_count_total") by (apply Hf1; by repeat constructor).
  set (df2 := mkDF _ _).
  assert (Hv2 : valid_table ("user_daily_avg_events" :: session_names) df2 = true).
  { apply (valid_table_extend (["user_event_count_total"; "user_daily_avg_events"]
                               ++ session_names)); try done.
    - intros x. rewrite fmap_app, elem_of_app. cbn. rewrite list_elem_of_singleton.
      unfold col_names. naive_solver.
    - rewrite Hts1. by apply col_dtype_app_l.
    - by compute_done.
    - intros x Hx. by right. }
  pose proof (valid_table_inv _ _ Hv2) as (Hts2 & _ & _ & Hf2 & _).
  rewrite (add_user_activity_baseline_rows _ df2 (valid_table_user_time _ _ Hv2))
    by constructor.
  cbn [mbind outcome_bind].
  rewrite (set_dtype_app_fresh "user_daily_avg_events") by (apply Hf2; by repeat constructor).
  set (df3 := mkDF _ _).
  exists df3. split_and!.
  - by destruct (add_session_features df3 gap).
  - unfold session_ready. apply andb_true_iff. split.
    + apply (valid_table_extend ("user_daily_avg_events" :: session_names)); try done.
      * intros x. rewrite fmap_app, elem_of_app. cbn. rewrite list_elem_of_singleton.
        unfold col_names. naive_solver.
      * rewrite Hts2. by apply col_dtype_app_l.
      * by compute_done.
      * intros x Hx. by right.
    + apply times_in_range_intro. unfold df3, df2, df1. cbn [rows].
      rewrite !Forall_fmap. eapply Forall_impl; [exact Hrange|].
      intros r Hin. unfold compose. by rewrite !cell_insert_ne.
  - unfold df3, df2, df1. cbn [columns]. by rewrite <-!(assoc app).
  - unfold df3, df2, df1. cbn [rows]. rewrite <-!list_fmap_compose.
    apply fmap_ext_elem. intros r _. unfold compose, with_user_features.
    rewrite !cell_insert_ne by done. f_equal.
    + rewrite user_mean_fmap; [done|..]; intros x; by rewrite !cell_insert_ne.
    + f_equal. rewrite (user_event_count_fmap
        (λ r0, <["severity_score" := score_cell (cell "severity" r0)]> r0)); [done|..];
        intros x; by rewrite cell_insert_ne.
Qed.

Lemma run_all_table df gap :
  valid_input df = true →
  run_all df gap =
    Returned
      {| columns := columns df ++ derived_columns;
         rows := (λ r, r ∪ session_stats
                         (segmented gap (with_user_features (rows df) <$> rows df)) r)
                 <$> segmented gap (with_user_features (rows df) <$> rows df) |}.
Proof.
  intros (df3 & -> & Hv3 & Hc & Hr)%(run_all_session_stage df gap).
  rewrite (add_session_features_table df3 gap Hv3), Hc, Hr. by rewrite <-(assoc app).
Qed.

Lemma with_user_features_lookup_other rs (r : Row) c :
  c ≠ "severity_score" → c ≠ "user_event_count_total" → c ≠ "user_daily_avg_events" →
  with_user_features rs r !! c = r !! c.
Proof. intros. unfold with_user_features. by rewrite !lookup_insert_ne. Qed.

Lemma with_user_features_cell_other rs (r : Row) c :
  c ≠ "severity_score" → c ≠ "user_event_count_total" → c ≠ "user_daily_avg_events" →
  cell c (with_user_features rs r) = cell c r.
Proof. intros. unfold cell. by rewrite with_user_features_lookup_other. Qed.

Lemma insert_sorted_fmap {A B} (le : B → B → bool) (le' : A → A → bool) (f : A → B)
    (x : A) (l : list A) :
  (∀ a b, le (f a) (f b) = le' a b) →
  insert_sorted le (f x) (f <$> l) = f <$> insert_sorted le' x l.
Proof.
  intros Hle. induction l as [|y l IH]; [done|]. csimpl. rewrite Hle.
  destruct (le' x y); [done|]. csimpl. by rewrite IH.
Qed.

(** Sorting commutes with a map that keeps the order. *)
Lemma stable_sort_fmap {A B} (le : B → B → bool) (le' : A → A → bool) (f : A → B)
    (l : list A) :
  (∀ a b, le (f a) (f b) = le' a b) →
  stable_sort le (f <$> l) = f <$> stable_sort le' l.
Proof.
  intros Hle. induction l as [|x l IH]; [done|]. csimpl.
  unfold stable_sort in *. cbn [foldr]. rewrite IH. by apply insert_sorted_fmap.
Qed.

Lemma Forall2_zip_with_l {A B C} (R : A → C → Prop) (f : A → B → C) (l : list A)
    (k : list B) :
  length l = length k → (∀ x y, x ∈ l → R x (f x y)) → Forall2 R l (zip_with f l k).
Proof.
  revert k. induction l as [|x l IH]; intros [|y k] Hlen HR; simplify_eq/=; constructor.
  - apply HR. constructor.
  - apply IH; [done|]. intros x' y' Hx'. apply HR. by constructor.
Qed.

(** The stable sort on user and timestamp gives the sorted rows of its
    argument. *)
Lemma sorted_rows_of_sort cs (rs rs' : list Row) :
  Forall2 (agrees_on cs) (stable_sort (row_leb ["user_id"; "timestamp"]) rs) rs' →
  sorted_rows_of cs rs rs'.
Proof.
  intros H. exists (stable_sort (row_leb ["user_id"; "timestamp"]) rs). split_and!.
  - apply stable_sort_perm.
  - apply stable_sort_sorted; [apply row_leb_total|apply row_leb_trans].
  - intros u t. apply stable_sort_stable; [apply row_leb_total|apply row_leb_trans|].
    intros x y [Hx1 Hx2] [Hy1 Hy2]. unfold row_leb, key_of. simpl.
    rewrite Hx1, Hx2, Hy1, Hy2. apply (keys_leb_refl [u; t]).
  - done.
Qed.

(** What [run_all] returns on a valid table, row by row: the rows of the
    input in the order of the sort, each with the cells of the three
    user-level stages, a session id and the cells of its session. *)
Lemma run_all_sorted df gap :
  valid_input df = true →
  ∃ df' ids,
    run_all df gap = Returned df' ∧
    length ids = length (rows df) ∧
    rows df' =
      zip_with (λ r n, attach_session
                         (segmented gap (with_user_features (rows df) <$> rows df))
                         (with_user_features (rows df) r) n)
        (stable_sort (row_leb ["user_id"; "timestamp"]) (rows df)) ids.
Proof.
  intros Hv. destruct (run_all_session_stage df gap Hv) as (df3 & Hrun & Hv3 & Hc3 & Hr3).
  destruct (add_session_features_attach df3 gap Hv3) as [cols Hret].
  rewrite Hrun, Hret. eexists _, _. split; [done|]. cbn [rows]. rewrite Hr3.
  rewrite (stable_sort_fmap _ (row_leb ["user_id"; "timestamp"])); last first.
  { intros a b. unfold row_leb, key_of. cbn [fmap list_fmap].
    by rewrite !with_user_features_cell_other. }
  split; [|by rewrite zip_with_fmap_l].
  by rewrite length_session_ids, length_fmap, length_stable_sort.
Qed.

Lemma agrees_on_run_all df (r : Row) n rs :
  valid_input df = true →
  agrees_on (col_names df) r (attach_session rs (with_user_features (rows df) r) n).
Proof.
  intros (_ & (_ & _ & _ & Hf & _)%valid_table_inv & _)%valid_input_inv c Hc.
  assert (c ∉ derived_names) as Hd by (intros Hd; by apply (Hf c)).
  unfold derived_names, session_names in Hd. cbn [app] in Hd.
  rewrite !not_elem_of_cons in Hd. destruct Hd as (? & ? & ? & ? & ? & ? & _).
  rewrite attach_session_lookup_other by done.
  by apply with_user_features_lookup_other.
Qed.

Lemma run_all_sorted_rows df gap :
  valid_input df = true →
  ∃ df', run_all df gap = Returned df' ∧
    sorted_rows_of (col_names df) (rows df) (rows df') ∧
    length (rows df') = length (rows df).
Proof.
  intros Hv. destruct (run_all_sorted df gap Hv) as (df' & ids & Hrun & Hlen & Hrows).
  exists df'. split; [done|]. rewrite Hrows. split.
  - apply sorted_rows_of_sort. apply Forall2_zip_with_l.
    + by rewrite length_stable_sort.
    + intros r n _. by apply agrees_on_run_all.
  - rewrite length_zip_with_l_eq by by rewrite length_stable_sort.
    apply length_stable_sort.
Qed.

(** C2, as the code has it.  [add_session_features] returns every input row
    once, with its input cells unchanged, in the order of its sort: by user,
    then by timestamp, rows with the same user and timestamp in their input
    order.  The order of the input is not restored, and [run_all], whose last
    stage this is, returns the rows in the same order. *)
Theorem session_rows_in_sorted_order df gap :
  session_ready df = true → gap_ok gap = true →
  (∃ df', add_session_features df gap = Returned df' ∧
     sorted_rows_of (col_names df) (rows df) (rows df') ∧
     length (rows df') = length (rows df)) ∧
  (valid_input df = true →
   ∃ df', run_all df gap = Returned df' ∧
     sorted_rows_of (col_names df) (rows df) (rows df') ∧
     length (rows df') = length (rows df)).
Proof.
  intros Hv _. split; [|by apply run_all_sorted_rows].
  destruct (add_session_features_attach df gap Hv) as [cols ->].
  destruct (session_fresh_not_in df Hv) as (H1 & H2 & H3).
  eexists. split; [done|]. cbn [rows]. split.
  - apply sorted_rows_of_sort.
    apply Forall2_zip_with_attach; try done. by rewrite length_session_ids.
  - rewrite length_zip_with_l_eq by by rewrite length_session_ids.
    apply length_stable_sort.
Qed.

Lemma session_rows_in_sorted_order_witness :
  (∃ df', add_session_features two_user_table 30 = Returned df' ∧
     sorted_rows_of (col_names two_user_table) (rows two_user_table) (rows df') ∧
     length (rows df') = length (rows two_user_table)) ∧
  (∃ df', run_all two_user_table 30 = Returned df' ∧
     sorted_rows_of (col_names two_user_table) (rows two_user_table) (rows df') ∧
     length (rows df') = length (rows two_user_table)).
Proof.
  destruct (session_rows_in_sorted_order two_user_table 30) as [H1 H2];
    [reflexivity..|].
  split; [exact H1|apply H2; reflexivity].
Defined.

(** C2 as stated fails: a table whose first row belongs to user "bob" and
    whose second row to user "alice" comes back with the row of "alice"
    first, from [add_session_features] and from [run_all]. *)
Lemma input_order_not_restored :
  cell "event_id" <$> rows two_user_table = [VStr "e1"; VStr "e2"] ∧
  (∃ df', add_session_features two_user_table 30 = Returned df' ∧
     cell "event_id" <$> rows df' = [VStr "e2"; VStr "e1"] ∧
     ¬ Forall2 (agrees_on (col_names two_user_table)) (rows two_user_table) (rows df')) ∧
  (∃ df', run_all two_user_table 30 = Returned df' ∧
     cell "event_id" <$> rows df' = [VStr "e2"; VStr "e1"] ∧
     ¬ Forall2 (agrees_on (col_names two_user_table)) (rows two_user_table) (rows df')).
Proof.
  split; [by vm_compute|].
  split; (eexists; split; [vm_compute; reflexivity|]; split; [by vm_compute|];
    intros H; apply Forall2_cons_1 in H as [H _];
    specialize (H "event_id"); vm_compute in H;
    discriminate H; by repeat constructor).
Qed.



(** C7 as stated fails: the required columns, temporal timestamps and unique
    event ids do not make [run_all] return.  Two timestamps of one user that
    are more than [2^63 - 1] nanoseconds apart make the subtraction of line 76
    raise [OverflowError], and a column that is already called
    [user_daily_avg_events] makes line 57 raise [KeyError]. *)
Lemma run_all_does_not_always_return :
  (validate_required_columns far_apart_table None = Valid far_apart_table ∧
   valid_table [] far_apart_table = true ∧
   NoDup (cell "event_id" <$> rows far_apart_table) ∧
   run_all far_apart_table 30 =
     Raised "add_session_features" (OverflowError "Overflow in int64 addition")) ∧
  (validate_required_columns named_like_derived_table None =
     Valid named_like_derived_table ∧
   valid_table [] named_like_derived_table = true ∧
   NoDup (cell "event_id" <$> rows named_like_derived_table) ∧
   run_all named_like_derived_table 30 =
     Raised "add_user_activity_baseline" (KeyError "user_daily_avg_events")).
Proof.
  split; (split_and!; [reflexivity|reflexivity| |by vm_compute]);
    vm_compute; repeat constructor; set_solver.
Qed.

(** A user with a single event: one session of one event and of duration 0. *)
Example run_all_single_event :
  ∃ df', run_all single_event_table 30 = Returned df' ∧
    cell "session_id" <$> rows df' = [VInt 1] ∧
    cell "session_event_count" <$> rows df' = [VInt 1] ∧
    cell "session_duration_seconds" <$> rows df' = [VFloat 0] ∧
    cell "user_daily_avg_events" <$> rows df' = [VFloat 1].
Proof. eexists. split; [vm_compute; reflexivity|]. by vm_compute. Qed.

(** The scenario of the spec through the whole core. *)
Example run_all_scenario :
  ∃ df', run_all scenario_table 30 = Returned df' ∧
    cell "session_id" <$> rows df' = [VInt 1; VInt 1; VInt 2] ∧
    cell "session_event_count" <$> rows df' = [VInt 2; VInt 2; VInt 1] ∧
    cell "session_duration_seconds" <$> rows df' = [VFloat 1200; VFloat 1200; VFloat 0] ∧
    cell "user_event_count_total" <$> rows df' = [VInt 3; VInt 3; VInt 3] ∧
    cell "user_daily_avg_events" <$> rows df' = [VFloat 3; VFloat 3; VFloat 3].
Proof. eexists. split; [vm_compute; reflexivity|]. by vm_compute. Qed.

(** C10, as the code has it.  On a table with [severity] and a datetime
    [timestamp] but without [user_id], the frequency stage passes the table
    through and the exception of [run_all] comes from the daily-rate stage,
    which tests for [timestamp] only and then selects [user_id];
    [add_session_features] is not reached, and would raise as well. *)
Theorem run_all_without_user_id df gap :
  has_column "severity" df = true →
  is_datetime64_any_dtype "timestamp" df = true →
  has_column "user_id" df = false →
  run_all df gap = Raised "add_user_activity_baseline" (KeyError "user_id") ∧
  add_user_event_frequency df = Returned df ∧
  add_user_activity_baseline df = Raised "add_user_activity_baseline" (KeyError "user_id") ∧
  add_session_features df gap = Raised "add_session_features" (KeyError "user_id").
Proof.
  intros Hsev Hts Hu.
  assert (Htc : has_column "timestamp" df = true).
  { apply has_column_true. apply bool_decide_eq_true in Hts.
    by eapply col_dtype_Some_elem. }
  assert (Hbase : ∀ df1, is_datetime64_any_dtype "timestamp" df1 = true →
            has_column "user_id" df1 = false →
            add_user_activity_baseline df1 =
              Raised "add_user_activity_baseline" (KeyError "user_id")).
  { intros df1 Hts1 Hu1. unfold add_user_activity_baseline.
    assert (has_column "timestamp" df1 = true) as ->.
    { apply has_column_true. apply bool_decide_eq_true in Hts1.
      by eapply col_dtype_Some_elem. }
    rewrite Hts1. cbn [negb orb]. unfold select_columns.
    apply has_column_false in Hu1. by rewrite missing_column_head. }
  split_and!.
  - unfold run_all. rewrite add_severity_score_rows by done.
    cbn [mbind outcome_bind].
    set (df1 := mkDF _ _).
    assert (Hu1 : has_column "user_id" df1 = false).
    { apply has_column_false. unfold df1, col_names. cbn [columns].
      rewrite elem_of_set_dtype. apply has_column_false in Hu. naive_solver. }
    unfold add_user_event_frequency. rewrite Hu1. cbn [negb mbind outcome_bind].
    rewrite Hbase; [done| |done].
    unfold is_datetime64_any_dtype, df1. cbn [columns].
    by rewrite col_dtype_set_dtype_ne.
  - unfold add_user_event_frequency. by rewrite Hu.
  - by apply Hbase.
  - by apply add_session_features_without_user_id.
Qed.

Lemma run_all_without_user_id_witness :
  run_all no_user_table 30 = Raised "add_user_activity_baseline" (KeyError "user_id") ∧
  add_user_event_frequency no_user_table = Returned no_user_table ∧
  add_user_activity_baseline no_user_table =
    Raised "add_user_activity_baseline" (KeyError "user_id") ∧
  add_session_features no_user_table 30 =
    Raised "add_session_features" (KeyError "user_id").
Proof. apply (run_all_without_user_id no_user_table 30); reflexivity. Defined.

(** C10 as stated fails: the daily-rate stage does not skip such a table, and
    the exception of [run_all] is not raised in [add_session_features]. *)
Lemma run_all_error_is_not_from_session_stage :
  is_datetime64_any_dtype "timestamp" no_user_table = true ∧
  has_column "user_id" no_user_table = false ∧
  add_user_activity_baseline no_user_table ≠ Returned no_user_table ∧
  run_all no_user_table 30 = Raised "add_user_activity_baseline" (KeyError "user_id") ∧
  ∀ e, run_all no_user_table 30 ≠ Raised "add_session_features" e.
Proof. split_and!; try reflexivity; try (intros; by vm_compute). Qed.

(** * Further properties of the stages *)

(** ** User Frequency Aggregator *)

(** X1.  On a table with the columns [user_id] and [event_id],
    [add_user_event_frequency] returns the rows in their order with every
    other cell unchanged.  When no [user_id] is missing the new column is an
    integer column, and each row has the number of rows of the same user
    whose [event_id] is not missing.  When a [user_id] is missing the new
    column is a float column: a row without a user has NaN, and the other
    rows have their count as a float. *)
Theorem user_event_count_total_counts df :
  has_column "user_id" df = true → has_column "event_id" df = true →
  ∃ df', add_user_event_frequency df = Returned df' ∧
    Forall2 (λ r r', ∀ c, c ≠ "user_event_count_total" → r' !! c = r !! c)
      (rows df) (rows df') ∧
    let count (r : Row) :=
      Z.of_nat (length (filter
        (λ x, cell "user_id" x = cell "user_id" r ∧ cell "event_id" x ≠ VNA)
        (rows df))) in
    (Forall (λ r, cell "user_id" r ≠ VNA) (rows df) →
     col_dtype "user_event_count_total" (columns df') = Some DInt ∧
     Forall2 (λ r r', cell "user_event_count_total" r' = VInt (count r))
       (rows df) (rows df')) ∧
    (Exists (λ r, cell "user_id" r = VNA) (rows df) →
     col_dtype "user_event_count_total" (columns df') = Some DFloat ∧
     Forall2 (λ r r', cell "user_event_count_total" r' =
                if decide (cell "user_id" r = VNA) then VNA
                else mkfloat (round64 (inject_Z (count r))))
       (rows df) (rows df')).
Proof.
  intros Hu He. rewrite add_user_event_frequency_table by done.
  eexists. split; [done|]. cbn [rows columns]. split_and!.
  - apply Forall2_fmap_r, Forall_Forall2_diag, Forall_forall.
    intros r _ c Hc. by rewrite lookup_insert_ne.
  - intros Hall. rewrite transform_count_dtype_user by done.
    split; [apply col_dtype_set_dtype_eq|].
    apply Forall2_fmap_r, Forall_Forall2_diag, Forall_forall. intros r Hr. unfold compose.
    rewrite cell_insert_eq. apply user_event_count_user; [done|].
    rewrite Forall_forall in Hall. by apply Hall.
  - intros Hex. rewrite transform_count_dtype_float by done.
    split; [apply col_dtype_set_dtype_eq|].
    apply Forall2_fmap_r, Forall_Forall2_diag, Forall_forall. intros r Hr. unfold compose.
    rewrite cell_insert_eq. destruct (decide (cell "user_id" r = VNA)) as [Hna|Hna].
    + by apply user_event_count_na.
    + by apply user_event_count_float.
Qed.

Lemma user_event_count_total_counts_witness :
  ∃ df', add_user_event_frequency scenario_table = Returned df' ∧
    Forall2 (λ r r', ∀ c, c ≠ "user_event_count_total" → r' !! c = r !! c)
      (rows scenario_table) (rows df') ∧
    let count (r : Row) :=
      Z.of_nat (length (filter
        (λ x, cell "user_id" x = cell "user_id" r ∧ cell "event_id" x ≠ VNA)
        (rows scenario_table))) in
    (Forall (λ r, cell "user_id" r ≠ VNA) (rows scenario_table) →
     col_dtype "user_event_count_total" (columns df') = Some DInt ∧
     Forall2 (λ r r', cell "user_event_count_total" r' = VInt (count r))
       (rows scenario_table) (rows df')) ∧
    (Exists (λ r, cell "user_id" r = VNA) (rows scenario_table) →
     col_dtype "user_event_count_total" (columns df') = Some DFloat ∧
     Forall2 (λ r r', cell "user_event_count_total" r' =
                if decide (cell "user_id" r = VNA) then VNA
                else mkfloat (round64 (inject_Z (count r))))
       (rows scenario_table) (rows df')).
Proof. apply (user_event_count_total_counts scenario_table); reflexivity. Defined.

(** Three events of one user, and two events of another user with a row
    without a user between them. *)
Example user_event_count_examples :
  (∃ df', add_user_event_frequency scenario_table = Returned df' ∧
     col_dtype "user_event_count_total" (columns df') = Some DInt ∧
     cell "user_event_count_total" <$> rows df' = [VInt 3; VInt 3; VInt 3]) ∧
  (∃ df', add_user_event_frequency missing_user_table = Returned df' ∧
     col_dtype "user_event_count_total" (columns df') = Some DFloat ∧
     cell "user_event_count_total" <$> rows df' = [VFloat 2; VNA; VFloat 2]).
Proof.
  split; (eexists; split; [vm_compute; reflexivity|]; split; by vm_compute).
Qed.

Lemma add_user_event_frequency_without_event_id df :
  has_column "user_id" df = true → has_column "event_id" df = false →
  add_user_event_frequency df = Raised "add_user_event_frequency" (KeyError "event_id").
Proof.
  intros Hu He%has_column_false%col_dtype_None. unfold add_user_event_frequency.
  rewrite Hu. cbn [negb]. unfold body, groupby_transform_count.
  rewrite missing_column_None by (repeat constructor; by apply has_column_true).
  unfold getcol. by rewrite He.
Qed.

(** X2.  The guard of [add_user_event_frequency] tests for [user_id] only:
    on a table with [user_id] and without [event_id] the stage raises
    [KeyError] for [event_id], and so does [run_all]. *)
Theorem run_all_without_event_id df gap :
  has_column "severity" df = true → has_column "user_id" df = true →
  has_column "event_id" df = false →
  add_user_event_frequency df = Raised "add_user_event_frequency" (KeyError "event_id") ∧
  run_all df gap = Raised "add_user_event_frequency" (KeyError "event_id").
Proof.
  intros Hs Hu He. split; [by apply add_user_event_frequency_without_event_id|].
  unfold run_all. rewrite add_severity_score_rows by done. cbn [mbind outcome_bind].
  rewrite add_user_event_frequency_without_event_id; [done| |];
    by rewrite has_column_setcol_ne.
Qed.

Lemma run_all_without_event_id_witness :
  add_user_event_frequency no_event_id_table =
    Raised "add_user_event_frequency" (KeyError "event_id") ∧
  run_all no_event_id_table 30 = Raised "add_user_event_frequency" (KeyError "event_id").
Proof. apply (run_all_without_event_id no_event_id_table 30); reflexivity. Defined.

(** ** Severity Scorer *)

(** X3.  [add_severity_score] can be applied again: on its own output it
    returns that output.  An existing [severity_score] column is overwritten
    in place, a new one is appended as the last column, and no other cell
    changes. *)
Theorem add_severity_score_idempotent df :
  has_column "severity" df = true →
  ∃ df', add_severity_score df = Returned df' ∧
    add_severity_score df' = Returned df' ∧
    (has_column "severity_score" df = true → col_names df' = col_names df) ∧
    (has_column "severity_score" df = false →
     columns df' = columns df ++ [("severity_score", DFloat)]) ∧
    ∀ i r r', rows df !! i = Some r → rows df' !! i = Some r' →
      ∀ c, c ≠ "severity_score" → r' !! c = r !! c.
Proof.
  intros Hs. rewrite add_severity_score_rows by done. eexists. split; [done|].
  split_and!.
  - rewrite add_severity_score_rows by by rewrite has_column_setcol_ne.
    cbn [columns rows]. rewrite set_dtype_idemp, <-list_fmap_compose. f_equal. f_equal.
    apply fmap_ext_elem. intros r _. cbn. rewrite cell_insert_ne by done.
    apply insert_insert_eq.
  - intros H%has_column_true. unfold col_names. cbn [columns]. by apply set_dtype_names.
  - intros H%has_column_false. cbn [columns]. by apply set_dtype_fresh.
  - cbn [rows]. intros i r r' Hr. rewrite list_lookup_fmap, Hr. intros [= <-] c Hc.
    by rewrite lookup_insert_ne.
Qed.

Lemma add_severity_score_idempotent_witness :
  ∃ df', add_severity_score severity_table = Returned df' ∧
    add_severity_score df' = Returned df' ∧
    (has_column "severity_score" severity_table = true →
     col_names df' = col_names severity_table) ∧
    (has_column "severity_score" severity_table = false →
     columns df' = columns severity_table ++ [("severity_score", DFloat)]) ∧
    ∀ i r r', rows severity_table !! i = Some r → rows df' !! i = Some r' →
      ∀ c, c ≠ "severity_score" → r' !! c = r !! c.
Proof. apply (add_severity_score_idempotent severity_table). reflexivity. Defined.

(** ** User Daily-Rate Aggregator *)

(** A table that already has a [user_daily_avg_events] column: the join of
    line 56 renames the two columns of that name apart, and line 57 finds
    neither. *)
Lemma add_user_activity_baseline_existing df :
  has_column "user_id" df = true → is_datetime64_any_dtype "timestamp" df = true →
  has_column "user_daily_avg_events" df = true →
  add_user_activity_baseline df =
    Raised "add_user_activity_baseline" (KeyError "user_daily_avg_events").
Proof.
  intros Hu%has_column_true Hdt Havg%has_column_true.
  pose proof Hdt as Hts. apply bool_decide_eq_true in Hts.
  assert (Htc : "timestamp" ∈ col_names df) by by eapply col_dtype_Some_elem.
  unfold add_user_activity_baseline.
  rewrite (proj2 (has_column_true _ _)) by done. rewrite Hdt. cbn [negb orb]. unfold body.
  rewrite select_columns_Ok by (by repeat constructor). cbn [mbind res_bind].
  set (tmp := mkDF _ _).
  rewrite (getcol_Ok "timestamp" tmp DDatetime); last first.
  { unfold tmp. cbn [columns fmap list_fmap col_dtype].
    rewrite decide_False by done. rewrite decide_True by done. by rewrite Hts. }
  cbn [mbind res_bind]. rewrite dt_floor_D_Ok. cbn [mbind res_bind].
  set (tmp2 := setcol "date" _ tmp).
  rewrite groupby_size_Ok; last first.
  { unfold tmp2, setcol, tmp, col_names. cbn [columns sdtype fmap list_fmap].
    apply Forall_cons_2; [|apply Forall_cons_2; [|apply Forall_nil_2]];
      rewrite elem_of_set_dtype; [right; by repeat constructor|by left]. }
  cbn [mbind res_bind].
  set (dc := groupby_reduce _ _ tmp2).
  rewrite groupby_agg_Ok; last first.
  { apply missing_column_None. unfold dc, groupby_reduce, col_names.
    cbn [columns fmap list_fmap app]. by repeat constructor. }
  cbn [mbind res_bind].
  set (right := rename_columns _ _ _).
  assert (Hrn : col_names right = ["user_id"; "user_daily_avg_events"]).
  { unfold right, rename_columns, groupby_reduce, col_names. cbn [columns]. by vm_compute. }
  unfold merge_left.
  rewrite (missing_column_None _ right)
    by (rewrite Hrn; by repeat constructor).
  rewrite (missing_column_None _ df) by (by repeat constructor).
  cbn [mbind res_bind]. unfold getcol. cbn [columns].
  set (overlap := filter _ (col_names df)).
  assert (Hov : "user_daily_avg_events" ∈ overlap).
  { apply list_elem_of_filter. rewrite Hrn. split; [|done].
    split; [by repeat constructor|]. by intros ?%list_elem_of_singleton. }
  assert (col_dtype "user_daily_avg_events"
            (((λ cd, (suffix_if overlap "_x" cd.1, cd.2)) <$> columns df) ++
             ((λ cd, (suffix_if overlap "_y" cd.1, cd.2)) <$>
                filter (λ cd : string * dtype, cd.1 ∉ ["user_id"]) (columns right))) = None)
    as ->; [|done].
  apply col_dtype_None. rewrite fmap_app, <-!list_fmap_compose, elem_of_app.
  rewrite !list_elem_of_fmap.
  assert (Hsfx : ∀ sfx c, (sfx = "_x" ∨ sfx = "_y") →
            suffix_if overlap sfx c ≠ "user_daily_avg_events").
  { intros sfx c Hs. unfold suffix_if. destruct (decide (c ∈ overlap)) as [Hin|Hin].
    - apply list_elem_of_filter in Hin as [[Hr Hon] _]. rewrite Hrn in Hr.
      rewrite !elem_of_cons in Hr. destruct Hr as [->|[->|[]%elem_of_nil]].
      + exfalso. apply Hon. constructor.
      + by destruct Hs as [-> | ->].
    - by intros ->. }
  intros [([c dt] & Hc & _)|([c dt] & Hc & _)]; cbn in Hc; symmetry in Hc;
    by apply Hsfx in Hc; auto.
Qed.



(** ** A [timestamp] column that is not temporal *)

Lemma mapM_id_Raise {A} (l : list (res A)) e : mapM id l = Raise e → Raise e ∈ l.
Proof.
  induction l as [|x l IH]; [done|]. cbn [mapM]. destruct x as [a|e']; cbn.
  - destruct (mapM id l) as [k|e'']; cbn; [done|]. intros [= ->]. right. by apply IH.
  - intros [= ->]. left.
Qed.

Lemma object_diff_error a b e : object_diff a b = Raise e → ∃ w, e = TypeError w.
Proof.
  unfold object_diff. destruct a, b as [[]|]; intros H; simplify_eq; by eexists.
Qed.

Lemma add_session_features_not_datetime df gap dt :
  has_column "user_id" df = true → col_dtype "timestamp" (columns df) = Some dt →
  dt ≠ DDatetime → dt ≠ DTimedelta →
  ∃ e, add_session_features df gap = Raised "add_session_features" e ∧
       is_type_or_attribute_error e.
Proof.
  intros Hu%has_column_true Hdt Hne1 Hne2.
  assert (Htc : "timestamp" ∈ col_names df) by by eapply col_dtype_Some_elem.
  unfold add_session_features. rewrite (proj2 (has_column_true _ _)) by done.
  cbn [negb]. unfold body, sort_values.
  rewrite missing_column_None by (by repeat constructor). cbn [mbind res_bind].
  unfold groupby_diff. rewrite missing_column_None by (by repeat constructor).
  rewrite (getcol_Ok "timestamp" _ dt) by done. cbn [mbind res_bind sdtype].
  destruct dt; try done; cbn [mbind res_bind].
  3,4: (eexists; split; [reflexivity|]; right; by eexists).
  all: match goal with
       | |- context [mapM id ?l] =>
           destruct (mapM id l) as [vs|e] eqn:E; cbn [mbind res_bind];
           [eexists; split; [reflexivity|]; right; by eexists
           |exists e; split; [reflexivity|]; left;
            apply mapM_id_Raise in E; unfold group_diffs in E;
            apply elem_of_zip_with in E as ([k a] & p & Heq & _);
            cbn [fst snd] in Heq; destruct (key_na k); [done|];
            symmetry in Heq; by apply object_diff_error in Heq]
       end.
Qed.

Lemma is_datetime_set_dtype c dt df rs :
  c ≠ "timestamp" →
  is_datetime64_any_dtype "timestamp" (mkDF (set_dtype c dt (columns df)) rs) =
  is_datetime64_any_dtype "timestamp" df.
Proof.
  intros Hc. unfold is_datetime64_any_dtype. cbn [columns].
  by rewrite col_dtype_set_dtype_ne.
Qed.

Lemma not_datetime dt df :
  col_dtype "timestamp" (columns df) = Some dt → dt ≠ DDatetime →
  is_datetime64_any_dtype "timestamp" df = false.
Proof.
  intros Hdt Hne. unfold is_datetime64_any_dtype. rewrite Hdt.
  apply bool_decide_eq_false. by intros [= ->].
Qed.

(** X5.  A [timestamp] column that is there but not temporal (text or
    numbers, as before [standardize_timestamps]): the daily-rate stage passes
    the table through, but [add_session_features], whose guard looks at the
    name only, raises a [TypeError] or an [AttributeError], and [run_all]
    with it. *)
Theorem run_all_timestamp_not_temporal df gap dt :
  has_column "severity" df = true → has_column "user_id" df = true →
  has_column "event_id" df = true →
  col_dtype "timestamp" (columns df) = Some dt → dt ≠ DDatetime → dt ≠ DTimedelta →
  add_user_activity_baseline df = Returned df ∧
  (∃ e, add_session_features df gap = Raised "add_session_features" e ∧
        is_type_or_attribute_error e) ∧
  (∃ e, run_all df gap = Raised "add_session_features" e ∧
        is_type_or_attribute_error e).
Proof.
  intros Hs Hu He Hdt Hne1 Hne2. split_and!.
  - unfold add_user_activity_baseline. rewrite (not_datetime dt) by done.
    by rewrite orb_true_r.
  - by eapply add_session_features_not_datetime.
  - unfold run_all. rewrite add_severity_score_rows by done. cbn [mbind outcome_bind].
    rewrite add_user_event_frequency_table by (by rewrite has_column_setcol_ne).
    cbn [mbind outcome_bind columns rows].
    set (df2 := mkDF _ _).
    assert (Hdt2 : col_dtype "timestamp" (columns df2) = Some dt).
    { unfold df2. cbn [columns]. by rewrite !col_dtype_set_dtype_ne. }
    unfold add_user_activity_baseline. rewrite (not_datetime dt df2) by done.
    rewrite orb_true_r. cbn [mbind outcome_bind].
    destruct (add_session_features_not_datetime df2 gap dt) as (e & -> & Hex);
      try done; [|by exists e].
    apply has_column_true. unfold df2, col_names. cbn [columns].
    rewrite !elem_of_set_dtype. apply has_column_true in Hu. auto.
Qed.

Lemma run_all_timestamp_not_temporal_witness :
  add_user_activity_baseline text_timestamp_table = Returned text_timestamp_table ∧
  (∃ e, add_session_features text_timestamp_table 30 = Raised "add_session_features" e ∧
        is_type_or_attribute_error e) ∧
  (∃ e, run_all text_timestamp_table 30 = Raised "add_session_features" e ∧
        is_type_or_attribute_error e).
Proof.
  apply (run_all_timestamp_not_temporal text_timestamp_table 30 DObject);
    first [reflexivity | discriminate].
Defined.

(** X6.  Without [user_id] and with a [timestamp] column that is not
    temporal, the frequency stage and the daily-rate stage both pass the
    table through, and [run_all] raises the [KeyError] for [user_id] in
    [add_session_features]. *)
Theorem run_all_without_user_id_not_temporal df gap :
  has_column "severity" df = true → has_column "user_id" df = false →
  has_column "timestamp" df = true → is_datetime64_any_dtype "timestamp" df = false →
  run_all df gap = Raised "add_session_features" (KeyError "user_id").
Proof.
  intros Hs Hu Ht Hdt. unfold run_all.
  rewrite add_severity_score_rows by done. cbn [mbind outcome_bind].
  set (df1 := mkDF _ _).
  assert (Hu1 : has_column "user_id" df1 = false) by by unfold df1; rewrite has_column_setcol_ne.
  assert (Ht1 : has_column "timestamp" df1 = true) by by unfold df1; rewrite has_column_setcol_ne.
  assert (Hdt1 : is_datetime64_any_dtype "timestamp" df1 = false)
    by by unfold df1; rewrite is_datetime_set_dtype.
  unfold add_user_event_frequency. rewrite Hu1. cbn [negb mbind outcome_bind].
  unfold add_user_activity_baseline. rewrite Hdt1, orb_true_r. cbn [mbind outcome_bind].
  by rewrite add_session_features_without_user_id.
Qed.

Lemma run_all_without_user_id_not_temporal_witness :
  run_all text_timestamp_no_user_table 30 = Raised "add_session_features" (KeyError "user_id").
Proof.
  apply (run_all_without_user_id_not_temporal text_timestamp_no_user_table 30); reflexivity.
Defined.

(** X7.  With [severity] but with neither [user_id] nor [timestamp] all
    three later stages pass the table through: [run_all] returns what
    [add_severity_score] returns, the input with the [severity_score]
    cells. *)
Theorem run_all_severity_only df gap :
  has_column "severity" df = true → has_column "user_id" df = false →
  has_column "timestamp" df = false →
  ∃ df', run_all df gap = Returned df' ∧ add_severity_score df = Returned df' ∧
    (has_column "severity_score" df = false →
     columns df' = columns df ++ [("severity_score", DFloat)]) ∧
    rows df' = (λ r, <["severity_score" := score_cell (cell "severity" r)]> r) <$> rows df.
Proof.
  intros Hs Hu Ht. unfold run_all.
  rewrite add_severity_score_rows by done. cbn [mbind outcome_bind].
  set (df1 := mkDF _ _).
  assert (Hu1 : has_column "user_id" df1 = false) by by unfold df1; rewrite has_column_setcol_ne.
  assert (Ht1 : has_column "timestamp" df1 = false) by by unfold df1; rewrite has_column_setcol_ne.
  unfold add_user_event_frequency. rewrite Hu1. cbn [negb mbind outcome_bind].
  unfold add_user_activity_baseline. rewrite Ht1. cbn [negb orb mbind outcome_bind].
  unfold add_session_features. rewrite Ht1. cbn [negb mbind outcome_bind].
  exists df1. split_and!; try done.
  intros H%has_column_false. unfold df1. cbn [columns]. by apply set_dtype_fresh.
Qed.

Lemma run_all_severity_only_witness :
  ∃ df', run_all severity_only_table 30 = Returned df' ∧
    add_severity_score severity_only_table = Returned df' ∧
    (has_column "severity_score" severity_only_table = false →
     columns df' = columns severity_only_table ++ [("severity_score", DFloat)]) ∧
    rows df' = (λ r, <["severity_score" := score_cell (cell "severity" r)]> r)
                 <$> rows severity_only_table.
Proof. apply (run_all_severity_only severity_only_table 30); reflexivity. Defined.

(** ** The table that the core returns *)

(** X8.  On a valid table [run_all] keeps the columns of the input in place
    and appends six columns in this order: [severity_score] (float),
    [user_event_count_total] (integer), [user_daily_avg_events] (float),
    [session_id] (integer), [session_event_count] (integer) and
    [session_duration_seconds] (float). *)
Theorem run_all_columns df gap :
  valid_input df = true → gap_ok gap = true →
  ∃ df', run_all df gap = Returned df' ∧
    columns df' = columns df ++ derived_columns ∧
    col_names df' =
      col_names df ++ ["severity_score"; "user_event_count_total"; "user_daily_avg_events";
                       "session_id"; "session_event_count"; "session_duration_seconds"].
Proof.
  intros Hv _. rewrite run_all_table by done. eexists. split; [done|]. split; [done|].
  unfold col_names. cbn [columns]. by rewrite fmap_app.
Qed.

Lemma run_all_columns_witness :
  ∃ df', run_all scenario_table 30 = Returned df' ∧
    columns df' = columns scenario_table ++ derived_columns ∧
    col_names df' =
      col_names scenario_table ++
        ["severity_score"; "user_event_count_total"; "user_daily_avg_events";
         "session_id"; "session_event_count"; "session_duration_seconds"].
Proof. apply (run_all_columns scenario_table 30); reflexivity. Defined.

Lemma user_event_count_valid fresh rs (r : Row) u :
  Forall (λ r, valid_row fresh r = true) rs → cell "user_id" r = VStr u →
  user_event_count rs r = VInt (Z.of_nat (length (rows_of_user u rs))).
Proof.
  intros Hrs Hu.
  rewrite user_event_count_user by (by rewrite ?Hu; eauto using valid_rows_user_not_na).
  do 2 f_equal. unfold rows_of_user. f_equal. rewrite Hu.
  apply filter_ext_elem. intros x Hx. rewrite Forall_forall in Hrs.
  apply Hrs, valid_row_inv in Hx as (_ & _ & (e & He & Hne) & _).
  unfold cell at 2. rewrite He. naive_solver.
Qed.

(** Every row of the table that the core returns is a row of the input with
    the cells of the three user-level stages, the session id and the cells of
    its session. *)
Lemma run_all_rows_shape df gap :
  valid_input df = true →
  ∃ df', run_all df gap = Returned df' ∧
    ∀ r', r' ∈ rows df' →
      ∃ r n, r ∈ rows df ∧
        r' = attach_session (segmented gap (with_user_features (rows df) <$> rows df))
               (with_user_features (rows df) r) n.
Proof.
  intros Hv. rewrite run_all_table by done. eexists. split; [done|]. cbn [rows].
  intros r' (l & -> & (r0 & n & -> & Hr0)%elem_of_segmented)%list_elem_of_fmap.
  rewrite stable_sort_perm in Hr0. apply list_elem_of_fmap in Hr0 as (r & -> & Hr).
  by exists r, n.
Qed.

(** X9.  The sort and the join of the session stage do not disturb the
    cells of the earlier stages.  The rows that [run_all] returns are the
    rows of the input, rearranged; each has its input cells, the score of its
    severity, the number of rows of its user in the input, and the number of
    the user's rows divided by the number of calendar days on which the user
    has an event, rounded to binary64. *)
Theorem run_all_user_features df gap :
  valid_input df = true → gap_ok gap = true → Z.of_nat (length (rows df)) ≤ 2 ^ 53 →
  ∃ df', run_all df gap = Returned df' ∧
    ∃ p, p ≡ₚ rows df ∧
      Forall2 (λ r r',
        agrees_on (col_names df) r r' ∧
        cell "severity_score" r' = score_cell (cell "severity" r) ∧
        ∀ u, cell "user_id" r = VStr u →
          cell "user_event_count_total" r' =
            VInt (Z.of_nat (length (rows_of_user u (rows df)))) ∧
          cell "user_daily_avg_events" r' =
            mkfloat (round64 (inject_Z (Z.of_nat (length (rows_of_user u (rows df))))
                              / inject_Z (Z.of_nat (length (days_of u (rows df)))))))
        p (rows df').
Proof.
  intros Hv _ Hlen.
  destruct (run_all_sorted df gap Hv) as (df' & ids & Hrun & Hlen' & Hrows).
  exists df'. split; [done|].
  exists (stable_sort (row_leb ["user_id"; "timestamp"]) (rows df)).
  split; [apply stable_sort_perm|]. rewrite Hrows.
  apply Forall2_zip_with_l; [by rewrite length_stable_sort|].
  intros r n Hr. rewrite stable_sort_perm in Hr.
  split; [by apply agrees_on_run_all|].
  apply valid_input_inv in Hv as (_ & (_ & _ & _ & Hf & Hall)%valid_table_inv & _).
  rewrite !attach_session_cell_other by done. split.
  { unfold with_user_features. rewrite !cell_insert_ne by done. apply cell_insert_eq. }
  intros u Hu. split.
  - unfold with_user_features. rewrite cell_insert_ne by done. rewrite cell_insert_eq.
    by eapply user_event_count_valid.
  - unfold with_user_features. rewrite cell_insert_eq, Hu.
    eapply user_mean_days; try done.
    eapply Forall_impl; [exact Hall|]. intros x. apply valid_row_user_time.
Qed.

Lemma run_all_user_features_witness :
  ∃ df', run_all scenario_table 30 = Returned df' ∧
    ∃ p, p ≡ₚ rows scenario_table ∧
      Forall2 (λ r r',
        agrees_on (col_names scenario_table) r r' ∧
        cell "severity_score" r' = score_cell (cell "severity" r) ∧
        ∀ u, cell "user_id" r = VStr u →
          cell "user_event_count_total" r' =
            VInt (Z.of_nat (length (rows_of_user u (rows scenario_table)))) ∧
          cell "user_daily_avg_events" r' =
            mkfloat (round64
              (inject_Z (Z.of_nat (length (rows_of_user u (rows scenario_table))))
               / inject_Z (Z.of_nat (length (days_of u (rows scenario_table)))))))
        p (rows df').
Proof.
  apply (run_all_user_features scenario_table 30); [reflexivity|reflexivity|by vm_compute].
Defined.

(** X10.  [run_all] cannot be applied to its own output: the second run
    raises [KeyError] for [user_daily_avg_events] in
    [add_user_activity_baseline], whatever the gap.  (The two side conditions
    keep the suffixed names of the join free; pandas refuses a join that
    would produce a column name twice.) *)
Theorem run_all_twice df gap gap' :
  valid_input df = true → gap_ok gap = true →
  has_column "user_daily_avg_events_x" df = false →
  has_column "user_daily_avg_events_y" df = false →
  ∃ df', run_all df gap = Returned df' ∧
    run_all df' gap' =
      Raised "add_user_activity_baseline" (KeyError "user_daily_avg_events").
Proof.
  intros Hv _ _ _. rewrite run_all_table by done. eexists. split; [done|].
  apply valid_input_inv in Hv as (Hsev%has_column_true & Hv & _).
  apply valid_table_inv in Hv as (Hts & Hu & He & _ & _).
  set (df' := mkDF _ _).
  assert (Hin : ∀ c, c ∈ col_names df → c ∈ col_names df').
  { intros c Hc. unfold df', col_names. cbn [columns]. rewrite fmap_app, elem_of_app.
    by left. }
  unfold run_all. rewrite add_severity_score_rows by by apply has_column_true, Hin.
  cbn [mbind outcome_bind].
  rewrite add_user_event_frequency_table; first last.
  { apply has_column_true. unfold col_names. cbn [columns].
    rewrite elem_of_set_dtype. right. by apply Hin. }
  { apply has_column_true. unfold col_names. cbn [columns].
    rewrite elem_of_set_dtype. right. by apply Hin. }
  cbn [mbind outcome_bind columns rows].
  rewrite add_user_activity_baseline_existing; [done|..].
  - apply has_column_true. unfold col_names. cbn [columns].
    rewrite !elem_of_set_dtype. right. right. by apply Hin.
  - unfold is_datetime64_any_dtype. cbn [columns]. apply bool_decide_eq_true.
    rewrite !col_dtype_set_dtype_ne by done. by apply col_dtype_app_l.
  - apply has_column_true. unfold col_names. cbn [columns].
    rewrite !elem_of_set_dtype. right. right. unfold df'. cbn [columns].
    rewrite fmap_app, elem_of_app. right. by compute_done.
Qed.

Lemma run_all_twice_witness :
  ∃ df', run_all scenario_table 30 = Returned df' ∧
    run_all df' 30 =
      Raised "add_user_activity_baseline" (KeyError "user_daily_avg_events").
Proof. apply (run_all_twice scenario_table 30 30); reflexivity. Defined.

(** ** The sessions of one user *)

(** The running count along the time-ordered rows of one user. *)
Section session_runs.
Context (gs : Z) (g : list Row).
Hypothesis Hchron : chronological g.





(** For a gap below [2^23] seconds the test of line 79 is exact. *)
Hypothesis Hgs : - 2 ^ 53 ≤ gs < 2 ^ 23.



End session_runs.

Lemma rows_of_session_user u n (rs : list Row) :
  rows_of_session (VStr u) (VInt n) rs =
  filter (λ x, cell "session_id" x = VInt n) (rows_of_user u rs).
Proof.
  unfold rows_of_session, rows_of_user. induction rs as [|r rs IH]; [done|].
  rewrite !filter_cons. destruct (decide (cell "user_id" r = VStr u)) as [Hu|Hu].
  - rewrite filter_cons. destruct (decide (cell "session_id" r = VInt n)) as [Hn|Hn].
    + rewrite decide_True by done. by rewrite IH.
    + rewrite decide_False by naive_solver. done.
  - rewrite decide_False by naive_solver. done.
Qed.

(** What the returned table says about the sessions of its rows: the rows of
    a user are in time order and numbered by the running count, and every
    row carries the size and the time span of its session. *)
Lemma add_session_features_sessions df gap :
  session_ready df = true →
  ∃ df', add_session_features df gap = Returned df' ∧
    (∀ u, chronological (rows_of_user u (rows df')) ∧
          cell "session_id" <$> rows_of_user u (rows df') =
            VInt <$> user_session_ids (gap * 60) (rows_of_user u (rows df'))) ∧
    (∀ r, r ∈ rows df' →
       ∃ u n tmin tmax a b,
         cell "user_id" r = VStr u ∧ cell "session_id" r = VInt n ∧
         a ∈ filter (λ x, cell "session_id" x = VInt n) (rows_of_user u (rows df')) ∧
         b ∈ filter (λ x, cell "session_id" x = VInt n) (rows_of_user u (rows df')) ∧
         cell "timestamp" a = VTime tmin ∧ cell "timestamp" b = VTime tmax ∧
         tmin ≤ tmax ∧
         cell "session_event_count" r =
           VInt (Z.of_nat (length (filter (λ x, cell "session_id" x = VInt n)
                                          (rows_of_user u (rows df'))))) ∧
         cell "session_duration_seconds" r = mkfloat (float_seconds (tmax - tmin))).
Proof.
  intros Hv. destruct (add_session_features_user df gap Hv) as (df' & Hret & Hu).
  exists df'. split; [done|]. split.
  { intros u. destruct (Hu u) as (g & _ & Hchron & ->).
    assert (Hlen : length g = length (user_session_ids (gap * 60) g))
      by by rewrite length_user_session_ids.
    rewrite user_session_ids_attach by done. split.
    - by apply chronological_attach.
    - by apply cell_sid_attach. }
  clear Hu. destruct (add_session_features_rows df gap Hv) as [cols Hret2].
  rewrite Hret2 in Hret. injection Hret as <-. clear Hret2.
  apply session_ready_inv in Hv as [(_ & _ & _ & _ & Hrows)%valid_table_inv _].
  cbn [rows]. set (rs2 := segmented gap (rows df)).
  intros r (l & -> & Hl)%list_elem_of_fmap.
  assert (∃ u n, cell "user_id" l = VStr u ∧ cell "session_id" l = VInt n) as (u & n & Hlu & Hln).
  { apply elem_of_segmented in Hl as (r0 & n & -> & Hr0).
    rewrite stable_sort_perm in Hr0. rewrite Forall_forall in Hrows.
    apply Hrows, valid_row_inv in Hr0 as ((u & Hu) & _).
    exists u, n. unfold cell. rewrite lookup_insert_ne by done. rewrite Hu.
    by rewrite lookup_insert_eq. }
  pose proof (rows_of_session_with_stats rs2 (VStr u) (VInt n)) as Hsess.
  rewrite rows_of_session_user in Hsess.
  set (grp := group_rows _ _ rs2) in Hsess.
  assert (Hkey : key_of ["user_id"; "session_id"] l = [VStr u; VInt n])
    by by apply session_key_iff.
  assert (Hgrp : ∀ x, x ∈ grp → x ∈ rs2 ∧
            key_of ["user_id"; "session_id"] x = [VStr u; VInt n]).
  { intros x [? ?]%list_elem_of_filter. by split. }
  assert (Hl_grp : l ∈ grp) by (apply list_elem_of_filter; by split).
  assert (Htimes : Forall (λ v, is_time v = true) (cell "timestamp" <$> grp)).
  { apply Forall_fmap, Forall_forall. intros x [Hx _]%Hgrp.
    by destruct (segmented_row_facts gap (rows df) x Hrows Hx) as (? & _). }
  destruct (agg_min_max_times (cell "timestamp" <$> grp))
    as (tmin & tmax & HaggMin & HaggMax & Hmin & Hmax & Hbounds); [|done|].
  { intros Hnil%fmap_nil_inv. rewrite Hnil in Hl_grp. by apply elem_of_nil in Hl_grp. }
  apply list_elem_of_fmap in Hmin as (a & Ha & Hain).
  apply list_elem_of_fmap in Hmax as (b & Hb & Hbin).
  exists u, n, tmin, tmax, (a ∪ session_stats rs2 a), (b ∪ session_stats rs2 b).
  rewrite Hsess, !with_stats_cell_other by done. rewrite length_fmap.
  destruct (segmented_row_facts gap (rows df) l Hrows Hl) as (_ & _ & Hc & Hd).
  split_and!; try done.
  - by apply (list_elem_of_fmap_2 (λ l, l ∪ session_stats rs2 l)).
  - by apply (list_elem_of_fmap_2 (λ l, l ∪ session_stats rs2 l)).
  - assert (tmin ≤ tmin ≤ tmax); [|lia]. apply Hbounds. rewrite Ha.
    by apply (list_elem_of_fmap_2 (cell "timestamp")).
  - unfold cell. rewrite lookup_union_r by done. unfold session_stats. cbv zeta.
    rewrite Hkey. fold grp. rewrite lookup_insert_eq.
    rewrite agg_count_present; [by rewrite length_fmap|].
    apply Forall_fmap, Forall_forall. intros x [Hx _]%Hgrp.
    by destruct (segmented_row_facts gap (rows df) x Hrows Hx) as (_ & ? & _).
  - unfold cell. rewrite lookup_union_r by done. unfold session_stats. cbv zeta.
    rewrite Hkey. fold grp. rewrite lookup_insert_ne by done.
    rewrite lookup_singleton_eq. cbn [default]. by rewrite HaggMin, HaggMax.
Qed.


Lemma lookup_cell_of_ids (g : list Row) (ids : list Z) i r n :
  cell "session_id" <$> g = VInt <$> ids →
  g !! i = Some r → ids !! i = Some n → cell "session_id" r = VInt n.
Proof.
  intros Heq Hr Hn.
  assert ((VInt <$> ids) !! i = Some (VInt n)) as H by by rewrite list_lookup_fmap, Hn.
  rewrite <-Heq, list_lookup_fmap, Hr in H. by simplify_eq/=.
Qed.







(** With a negative gap every row starts a session. *)
Lemma round64_negative n : n < 0 → (round64 (inject_Z n) < 0)%Q.
Proof.
  intros Hn. unfold round64.
  assert (Hneg : (inject_Z n < 0)%Q) by (change 0%Q with (inject_Z 0); by rewrite <-Zlt_Qlt).
  destruct (Qle_bool 0 (inject_Z n)) eqn:E; [apply Qle_bool_iff in E; lra|].
  assert (1 <= round_pos (- inject_Z n))%Q; [|lra].
  assert (Hone : (round_pos 1 == 1)%Q).
  { apply (round_pos_exact 1 1 0); [lia|lia|]. by vm_compute. }
  rewrite <-Hone. apply round_pos_mono; [lra|].
  rewrite <-inject_Z_opp. change 1%Q with (inject_Z 1). rewrite <-Zle_Qle. lia.
Qed.

Lemma user_session_ids_negative_gap gs (g : list Row) i r :
  gs < 0 → chronological g → g !! i = Some r →
  user_session_ids gs g !! i = Some (Z.of_nat i + 1).
Proof.
  intros Hgs Hchron. revert r. induction i as [|i IH]; intros r Hr.
  - destruct g as [|r0 g]; [done|]. by rewrite user_session_ids_head.
  - assert (is_Some (g !! i)) as [r1 Hr1].
    { apply lookup_lt_is_Some. apply lookup_lt_Some in Hr. lia. }
    destruct (user_session_ids_lookup_step gs g i r1 r Hr1 Hr) as (n & Hn & ->).
    rewrite (IH r1 Hr1) in Hn. injection Hn as <-.
    destruct (Hchron i (S i) r1 r) as (t1 & t2 & Ht1 & Ht2 & Hle); [lia|done..|].
    rewrite Ht1. rewrite (proj2 (starts_session_spec gs r t1 t2 Ht2)).
    + f_equal. lia.
    + pose proof (round64_negative gs Hgs).
      pose proof (float_seconds_nonneg (t2 - t1) ltac:(lia)). lra.
Qed.

Lemma length_filter_at_most_one {A} (P : A → Prop) `{!∀ x, Decision (P x)} (l : list A) :
  (∀ i j x y, l !! i = Some x → l !! j = Some y → P x → P y → i = j) →
  (length (filter P l) ≤ 1)%nat.
Proof.
  intros Huniq. induction l as [|x l IH]; [simpl; lia|].
  rewrite filter_cons. destruct (decide (P x)) as [Hx|Hx].
  - assert (filter P l = []) as ->; [|simpl; lia].
    apply elem_of_nil_inv. intros y [Hy [j Hj]%list_elem_of_lookup_1]%list_elem_of_filter.
    by specialize (Huniq 0%nat (S j) x y eq_refl Hj Hx Hy).
  - apply IH. intros i j a b Ha Hb HPa HPb.
    by specialize (Huniq (S i) (S j) a b Ha Hb HPa HPb) as [= ->].
Qed.

(** X13.  With a negative gap every event is a session of its own: the
    rows of a user are numbered 1, 2, 3, ... in time order, and every row has
    [session_event_count] 1 and [session_duration_seconds] 0. *)
Theorem negative_gap_one_event_sessions df gap :
  session_ready df = true → gap_ok gap = true → gap < 0 →
  ∃ df', add_session_features df gap = Returned df' ∧
    (∀ u i r, rows_of_user u (rows df') !! i = Some r →
       cell "session_id" r = VInt (Z.of_nat i + 1)) ∧
    (∀ r, r ∈ rows df' →
       cell "session_event_count" r = VInt 1 ∧
       cell "session_duration_seconds" r = VFloat 0).
Proof.
  intros Hv _ Hgap.
  destruct (add_session_features_sessions df gap Hv) as (df' & Hret & Hu & Hrows).
  exists df'. split; [done|].
  assert (Hgs : gap * 60 < 0) by lia.
  assert (Hids : ∀ u i r, rows_of_user u (rows df') !! i = Some r →
            cell "session_id" r = VInt (Z.of_nat i + 1)).
  { intros u i r Hr. destruct (Hu u) as [Hchron Hids].
    eapply lookup_cell_of_ids; [exact Hids|exact Hr|].
    by apply (user_session_ids_negative_gap _ _ i r). }
  split; [exact Hids|]. intros r Hr.
  destruct (Hrows r Hr) as (u & n & tmin & tmax & a & b & Hru & Hrn & Ha & Hb &
                            Hta & Htb & Hle & Hcount & Hdur).
  set (grp := filter _ (rows_of_user u (rows df'))) in *.
  assert (length grp = 1%nat) as Hlen.
  { assert (length grp ≤ 1)%nat.
    { apply length_filter_at_most_one. intros i j x y Hx Hy Hnx Hny.
      rewrite (Hids u i x Hx) in Hnx. rewrite (Hids u j y Hy) in Hny.
      simplify_eq. lia. }
    destruct grp; [by apply elem_of_nil in Ha|simpl in *; lia]. }
  rewrite Hcount, Hdur, Hlen. split; [done|].
  destruct grp as [|x [|? ?]]; try done.
  apply list_elem_of_singleton in Ha, Hb. subst.
  assert (tmax = tmin) as -> by congruence. rewrite Z.sub_diag. by vm_compute.
Qed.

Lemma negative_gap_one_event_sessions_witness :
  ∃ df', add_session_features scenario_table (-1) = Returned df' ∧
    (∀ u i r, rows_of_user u (rows df') !! i = Some r →
       cell "session_id" r = VInt (Z.of_nat i + 1)) ∧
    (∀ r, r ∈ rows df' →
       cell "session_event_count" r = VInt 1 ∧
       cell "session_duration_seconds" r = VFloat 0).
Proof.
  apply (negative_gap_one_event_sessions scenario_table (-1)); [reflexivity|reflexivity|lia].
Defined.

(** ** Counts per user, per day and per session *)

(** X14.  The daily average of a user is the number of the user's events
    divided by the number of calendar days on which the user has an event,
    rounded to binary64.  It is at least 1 and at most the number of the
    user's events, and it is the exact quotient when that is an integer. *)
Theorem daily_average_bounds df :
  baseline_ready df = true → Z.of_nat (length (rows df)) ≤ 2 ^ 53 →
  ∃ df', add_user_activity_baseline df = Returned df' ∧
    Forall2 (λ r r',
      ∀ u, cell "user_id" r = VStr u →
        let n := Z.of_nat (length (rows_of_user u (rows df))) in
        let k := Z.of_nat (length (days_of u (rows df))) in
        ∃ q, cell "user_daily_avg_events" r' = VFloat q ∧
          1 ≤ k ≤ n ∧
          (q == round64 (inject_Z n / inject_Z k))%Q ∧
          (1 <= q)%Q ∧ (q <= inject_Z n)%Q ∧
          (∀ m, n = m * k → (q == inject_Z m)%Q))
      (rows df) (rows df').
Proof.
  intros [Hv _]%baseline_ready_inv Hlen.
  rewrite (add_user_activity_baseline_rows _ df Hv) by constructor.
  apply user_time_table_inv in Hv as (_ & _ & _ & Hrows).
  eexists. split; [done|]. cbn [rows].
  apply Forall2_fmap_r, Forall_Forall2_diag, Forall_forall. intros r Hr.
  unfold compose. intros u Hu. cbv zeta. rewrite cell_insert_eq, Hu.
  destruct (user_mean_days _ (rows df) u r Hrows Hlen Hr Hu) as [Hne ->].
  destruct (day_counts _ (rows df) u Hrows) as (_ & _ & _ & Hle).
  pose proof (length_filter (λ r, cell "user_id" r = VStr u) (rows df)) as Hn.
  fold (rows_of_user u (rows df)) in Hn.
  set (n := length (rows_of_user u (rows df))) in *.
  set (k := length (days_of u (rows df))) in *.
  assert (1 ≤ k)%nat by (unfold k; destruct (days_of u (rows df)); [done|simpl; lia]).
  eexists. split; [reflexivity|]. split; [lia|].
  assert (Hq : (Qred (round64 (inject_Z (Z.of_nat n) / inject_Z (Z.of_nat k))) ==
                float_div (Z.of_nat n) (Z.of_nat k))%Q).
  { rewrite Qred_correct. symmetry. apply float_div_exact; lia. }
  split; [apply Qred_correct|]. rewrite Hq. split_and!.
  - change 1%Q with (inject_Z 1). apply float_div_ge; lia.
  - apply float_div_le; nia.
  - intros m Hm. rewrite Hq.
    apply Qle_antisym; [apply float_div_le|apply float_div_ge]; nia.
Qed.

Lemma daily_average_bounds_witness :
  ∃ df', add_user_activity_baseline daily_table = Returned df' ∧
    Forall2 (λ r r',
      ∀ u, cell "user_id" r = VStr u →
        let n := Z.of_nat (length (rows_of_user u (rows daily_table))) in
        let k := Z.of_nat (length (days_of u (rows daily_table))) in
        ∃ q, cell "user_daily_avg_events" r' = VFloat q ∧
          1 ≤ k ≤ n ∧
          (q == round64 (inject_Z n / inject_Z k))%Q ∧
          (1 <= q)%Q ∧ (q <= inject_Z n)%Q ∧
          (∀ m, n = m * k → (q == inject_Z m)%Q))
      (rows daily_table) (rows df').
Proof. apply (daily_average_bounds daily_table); [reflexivity|by vm_compute]. Defined.

(** The session stage keeps the number of rows of every user. *)
Lemma add_session_features_user_length df gap :
  session_ready df = true →
  ∃ df', add_session_features df gap = Returned df' ∧
    ∀ u, length (rows_of_user u (rows df')) = length (rows_of_user u (rows df)).
Proof.
  intros Hv. destruct (add_session_features_attach df gap Hv) as [cols ->].
  eexists. split; [done|]. intros u. cbn [rows]. cbv zeta.
  rewrite rows_of_user_attach.
  rewrite length_zip_with_l_eq by by rewrite length_user_session_ids.
  unfold rows_of_user.
  rewrite filter_stable_sort by (intros; first [apply row_leb_total | by eapply row_leb_trans]).
  apply length_stable_sort.
Qed.

Lemma rows_of_user_fmap (f : Row → Row) u rs :
  (∀ x, cell "user_id" (f x) = cell "user_id" x) →
  length (rows_of_user u (f <$> rs)) = length (rows_of_user u rs).
Proof.
  intros Hf. unfold rows_of_user. rewrite filter_fmap, length_fmap. f_equal.
  apply list_filter_iff. intros x. by rewrite Hf.
Qed.

(** X15.  In the table that [run_all] returns, the size of the session of a
    row is at least 1 and at most the number of events of the row's user. *)
Theorem session_count_within_user_count df gap :
  valid_input df = true → gap_ok gap = true →
  ∃ df', run_all df gap = Returned df' ∧
    ∀ r, r ∈ rows df' →
      ∃ s n, cell "session_event_count" r = VInt s ∧
             cell "user_event_count_total" r = VInt n ∧ 1 ≤ s ≤ n.
Proof.
  intros Hv _. destruct (run_all_rows_shape df gap Hv) as (df' & Hrun & Hshape).
  destruct (run_all_session_stage df gap Hv) as (df3 & Hrun3 & Hv3 & _ & Hr3).
  destruct (add_session_features_sessions df3 gap Hv3) as (df'' & Hret & _ & Hsess).
  destruct (add_session_features_user_length df3 gap Hv3) as (df''' & Hret' & Hlen).
  assert (df'' = df') as -> by congruence. assert (df''' = df') as -> by congruence.
  exists df'. split; [done|]. intros r' Hr'.
  destruct (Hsess r' Hr') as (u & n & tmin & tmax & a & b & Hu & _ & Ha & _ & _ & _ & _ &
                              Hsc & _).
  apply Hshape in Hr' as (r & n' & Hr & ->).
  rewrite attach_session_cell_other in Hu by done.
  rewrite with_user_features_cell_other in Hu by done.
  apply valid_input_inv in Hv as (_ & (_ & _ & _ & _ & Hrows)%valid_table_inv & _).
  eexists _, _. split; [exact Hsc|]. split.
  { rewrite attach_session_cell_other by done.
    unfold with_user_features. rewrite cell_insert_ne by done. rewrite cell_insert_eq.
    by eapply user_event_count_valid. }
  set (grp := filter _ (rows_of_user u (rows df'))) in *.
  assert (1 ≤ length grp)%nat by (destruct grp; [by apply elem_of_nil in Ha|simpl; lia]).
  assert (length grp ≤ length (rows_of_user u (rows df')))%nat by apply length_filter.
  rewrite Hlen, Hr3 in *.
  rewrite rows_of_user_fmap in *; [lia|].
  intros x. by apply with_user_features_cell_other.
Qed.

Lemma session_count_within_user_count_witness :
  ∃ df', run_all scenario_table 30 = Returned df' ∧
    ∀ r, r ∈ rows df' →
      ∃ s n, cell "session_event_count" r = VInt s ∧
             cell "user_event_count_total" r = VInt n ∧ 1 ≤ s ≤ n.
Proof. apply (session_count_within_user_count scenario_table 30); reflexivity. Defined.

(** * The cleaning stage *)

(** ** Required columns *)

Lemma validate_required_columns_Valid df required_columns :
  (∀ c, c ∈ default REQUIRED_COLUMNS required_columns → c ∈ col_names df) →
  validate_required_columns df required_columns = Valid df.
Proof.
  intros Hall. unfold validate_required_columns.
  destruct (filter _ _) as [|m ms] eqn:E; [done|].
  assert (m ∈ filter (λ c, c ∉ col_names df) (default REQUIRED_COLUMNS required_columns))
    as [Hm Hr]%list_elem_of_filter by (rewrite E; constructor).
  exfalso. by apply Hm, Hall.
Qed.

Lemma validate_required_columns_Missing df required_columns c :
  c ∈ default REQUIRED_COLUMNS required_columns → c ∉ col_names df →
  validate_required_columns df required_columns =
    MissingRequired (filter (λ c, c ∉ col_names df) (default REQUIRED_COLUMNS required_columns)).
Proof.
  intros Hc Hn. unfold validate_required_columns.
  destruct (filter _ _) as [|m ms] eqn:E; [|done].
  assert (c ∈ filter (λ c, c ∉ col_names df) (default REQUIRED_COLUMNS required_columns))
    as Hin by by apply list_elem_of_filter.
  rewrite E in Hin. by apply elem_of_nil in Hin.
Qed.

(** X16.  [validate_required_columns] returns its argument, and does so
    exactly when every required column is a column of the table (the seven
    default columns when no list is given).  Otherwise the error lists the
    required columns that are missing, all of them and no other, in the order
    of the required list. *)
Theorem validate_required_columns_spec df required_columns :
  let required := default REQUIRED_COLUMNS required_columns in
  (validate_required_columns df required_columns = Valid df ↔
   ∀ c, c ∈ required → c ∈ col_names df) ∧
  (∀ df', validate_required_columns df required_columns = Valid df' → df' = df) ∧
  (∀ missing, validate_required_columns df required_columns = MissingRequired missing →
     missing ≠ [] ∧ missing `sublist_of` required ∧
     ∀ c, c ∈ missing ↔ c ∈ required ∧ c ∉ col_names df).
Proof.
  intros required.
  destruct (decide (Forall (λ c, c ∈ col_names df) required)) as [Hall|Hex].
  - rewrite Forall_forall in Hall.
    rewrite validate_required_columns_Valid by done.
    split_and!; [done|by intros ? [= <-]|done].
  - apply not_Forall_Exists, Exists_exists in Hex as (c & Hc & Hn); [|apply _].
    rewrite (validate_required_columns_Missing df _ c) by done. fold required.
    split_and!; [|done|].
    + split; [done|]. intros Hall. exfalso. by apply Hn, Hall.
    + intros missing [= <-]. split_and!.
      * intros Hnil. assert (c ∈ filter (λ c, c ∉ col_names df) required) as Hin
          by by apply list_elem_of_filter.
        rewrite Hnil in Hin. by apply elem_of_nil in Hin.
      * apply sublist_filter.
      * intros c'. rewrite list_elem_of_filter. naive_solver.
Qed.

Lemma validate_required_columns_spec_witness :
  (validate_required_columns no_event_id_table (Some ["event_id"; "user_id"]) =
     Valid no_event_id_table ↔
   ∀ c, c ∈ ["event_id"; "user_id"] → c ∈ col_names no_event_id_table) ∧
  (∀ df', validate_required_columns no_event_id_table (Some ["event_id"; "user_id"]) =
            Valid df' → df' = no_event_id_table) ∧
  (∀ missing,
     validate_required_columns no_event_id_table (Some ["event_id"; "user_id"]) =
       MissingRequired missing →
     missing ≠ [] ∧ missing `sublist_of` ["event_id"; "user_id"] ∧
     ∀ c, c ∈ missing ↔ c ∈ ["event_id"; "user_id"] ∧ c ∉ col_names no_event_id_table).
Proof.
  apply (validate_required_columns_spec no_event_id_table (Some ["event_id"; "user_id"])).
Defined.

(** A table without [event_id]: the error names that column only. *)
Example validate_required_columns_example :
  validate_required_columns no_event_id_table (Some ["event_id"; "user_id"]) =
    MissingRequired ["event_id"] ∧
  validate_required_columns no_event_id_table None =
    MissingRequired ["event_id"; "event_type"; "status"; "source_ip"].
Proof. split; reflexivity. Qed.

(** ** Duplicates *)

Section keep_last_facts.
Context {K : Type} `{EqDecision K} (key : Row → K).

Lemma keep_last_sublist rs : keep_last key rs `sublist_of` rs.
Proof.
  induction rs as [|r rs IH]; [done|]. simpl.
  destruct (decide _); [by apply sublist_cons|by apply sublist_skip].
Qed.

Lemma elem_of_keep_last r rs : r ∈ keep_last key rs → r ∈ rs.
Proof. intros Hr. eapply elem_of_sublist; [exact Hr|apply keep_last_sublist]. Qed.

(** Every key of the list is the key of a row that is kept. *)
Lemma keep_last_keys rs k : k ∈ key <$> keep_last key rs ↔ k ∈ key <$> rs.
Proof.
  induction rs as [|r rs IH]; [done|]. simpl. destruct (decide _) as [Hin|Hin].
  - rewrite IH. csimpl. rewrite elem_of_cons. naive_solver.
  - csimpl. rewrite !elem_of_cons, IH. done.
Qed.

Lemma keep_last_NoDup rs : NoDup (key <$> keep_last key rs).
Proof.
  induction rs as [|r rs IH]; [constructor|]. simpl. destruct (decide _) as [Hin|Hin].
  - done.
  - csimpl. constructor; [|done]. by rewrite keep_last_keys.
Qed.

(** A kept row is the last row of the list with its key. *)
Lemma keep_last_last r rs :
  r ∈ keep_last key rs → ∃ l1 l2, rs = l1 ++ r :: l2 ∧ key r ∉ key <$> l2.
Proof.
  induction rs as [|x rs IH]; [by intros ?%elem_of_nil|]. simpl.
  destruct (decide _) as [Hin|Hin].
  - intros (l1 & l2 & -> & Hl2)%IH. by exists (x :: l1), l2.
  - intros [->|(l1 & l2 & -> & Hl2)%IH]%elem_of_cons.
    + by exists [], rs.
    + by exists (x :: l1), l2.
Qed.

Lemma keep_last_id rs : NoDup (key <$> rs) → keep_last key rs = rs.
Proof.
  induction rs as [|r rs IH]; [done|]. csimpl. intros [Hr Hnd]%NoDup_cons.
  rewrite decide_False by done. by rewrite IH.
Qed.

Lemma keep_last_idemp rs : keep_last key (keep_last key rs) = keep_last key rs.
Proof. apply keep_last_id, keep_last_NoDup. Qed.

Lemma keep_last_nil rs : keep_last key rs = [] → rs = [].
Proof.
  induction rs as [|r rs IH]; [done|]. simpl. destruct (decide _) as [Hin|Hin]; [|done].
  intros ->%IH. by apply elem_of_nil in Hin.
Qed.

End keep_last_facts.

(** Removing the duplicates for a finer key first changes nothing. *)
Lemma keep_last_finer {K K'} `{EqDecision K} `{EqDecision K'}
    (key : Row → K) (key' : Row → K') rs :
  (∀ x y, key' x = key' y → key x = key y) →
  keep_last key (keep_last key' rs) = keep_last key rs.
Proof.
  intros Hfine. induction rs as [|r rs IH]; [done|]. simpl.
  destruct (decide (key' r ∈ key' <$> rs)) as [Hin'|Hin'].
  - rewrite decide_True; [done|].
    apply list_elem_of_fmap in Hin' as (y & Hy & Hin). apply list_elem_of_fmap.
    exists y. split; [by apply Hfine|done].
  - simpl. rewrite IH.
    destruct (decide (key r ∈ key <$> rs)) as [Hin|Hin].
    + rewrite decide_True; [done|].
      apply list_elem_of_fmap in Hin as (y & Hy & Hin).
      assert (key' y ∈ key' <$> keep_last key' rs) as (z & Hz & Hzin)%list_elem_of_fmap.
      { apply (keep_last_keys key'), list_elem_of_fmap. by exists y. }
      apply list_elem_of_fmap. exists z. split; [|done].
      rewrite Hy. symmetry. by apply Hfine.
    + rewrite decide_False; [done|].
      intros (z & Hz & Hzin%(elem_of_keep_last key'))%list_elem_of_fmap. apply Hin.
      apply list_elem_of_fmap. by exists z.
Qed.

Lemma keep_last_ext {K K'} `{EqDecision K} `{EqDecision K'}
    (key : Row → K) (key' : Row → K') rs :
  (∀ x y, key x = key y ↔ key' x = key' y) → keep_last key rs = keep_last key' rs.
Proof.
  intros Hk. induction rs as [|r rs IH]; [done|]. simpl. rewrite IH.
  destruct (decide (key r ∈ key <$> rs)) as [Hin|Hin].
  - rewrite decide_True; [done|]. apply list_elem_of_fmap in Hin as (y & Hy & Hin).
    apply list_elem_of_fmap. exists y. split; [by apply Hk|done].
  - rewrite decide_False; [done|]. intros (y & Hy & Hin')%list_elem_of_fmap.
    apply Hin, list_elem_of_fmap. exists y. split; [by apply Hk|done].
Qed.

Lemma key_of_elem bys (x y : Row) c :
  key_of bys x = key_of bys y → c ∈ bys → cell c x = cell c y.
Proof.
  unfold key_of. induction bys as [|b bys IH]; [by intros _ ?%elem_of_nil|].
  csimpl. intros [= Hb Hbys] [->|Hc]%elem_of_cons; auto.
Qed.

Lemma missing_column_all df : missing_column (col_names df) df = None.
Proof. apply missing_column_None, Forall_forall. auto. Qed.

Lemma is_empty_false df : is_empty df = false ↔ columns df ≠ [] ∧ rows df ≠ [].
Proof. unfold is_empty. destruct (columns df), (rows df); naive_solver. Qed.

Lemma drop_duplicates_last_empty subset df :
  is_empty df = true → drop_duplicates_last subset df = Ok df.
Proof. intros H. unfold drop_duplicates_last. by rewrite H. Qed.

Lemma drop_duplicates_last_event_id df :
  is_empty df = false → has_column "event_id" df = true →
  drop_duplicates_last (Some ["event_id"]) df =
    Ok {| columns := columns df; rows := keep_last (cell "event_id") (rows df) |}.
Proof.
  intros He Hc%has_column_true. unfold drop_duplicates_last. rewrite He. cbn [from_option id].
  rewrite missing_column_None by (by repeat constructor). f_equal. f_equal.
  apply keep_last_ext. intros x y. unfold key_of. cbn.
  split; [by intros [= ->]|by intros ->].
Qed.

Lemma drop_duplicates_last_missing df :
  is_empty df = false → has_column "event_id" df = false →
  drop_duplicates_last (Some ["event_id"]) df = Raise (KeyError "event_id").
Proof.
  intros He Hc%has_column_false. unfold drop_duplicates_last. rewrite He. cbn [from_option id].
  by rewrite missing_column_head.
Qed.

Lemma drop_duplicates_last_all df :
  is_empty df = false →
  drop_duplicates_last None df =
    Ok {| columns := columns df; rows := keep_last (key_of (col_names df)) (rows df) |}.
Proof.
  intros He. unfold drop_duplicates_last. rewrite He. cbn [from_option id].
  by rewrite missing_column_all.
Qed.

(** The pass over whole rows of line 51 never changes what line 52 returns. *)
Lemma remove_duplicates_by_event_id df :
  remove_duplicates df = body "remove_duplicates" (drop_duplicates_last (Some ["event_id"]) df).
Proof.
  unfold remove_duplicates. destruct (is_empty df) eqn:He.
  - rewrite (drop_duplicates_last_empty None) by done. cbn [mbind res_bind].
    by destruct (drop_duplicates_last _ df).
  - rewrite drop_duplicates_last_all by done. cbn [mbind res_bind].
    set (df1 := mkDF _ _).
    assert (He1 : is_empty df1 = false).
    { apply is_empty_false in He as [Hc Hr]. apply is_empty_false. split; [done|].
      unfold df1. cbn [rows]. by intros ?%keep_last_nil. }
    destruct (has_column "event_id" df) eqn:Hc.
    + rewrite (drop_duplicates_last_event_id df1), (drop_duplicates_last_event_id df)
        by done.
      cbn [mbind res_bind body]. do 2 f_equal. unfold df1. cbn [rows].
      apply keep_last_finer. intros x y Hxy.
      apply (key_of_elem (col_names df)); [done|by apply has_column_true].
    + by rewrite (drop_duplicates_last_missing df1), (drop_duplicates_last_missing df).
Qed.

(** X17.  The pass of [remove_duplicates] over whole rows (line 51) never
    changes the result: the function returns, or raises, what the pass on
    [event_id] alone (line 52) does.  On a table with rows and an [event_id]
    column that is the table of the rows that no later row with the same
    [event_id] follows. *)
Theorem remove_duplicates_single_pass df :
  remove_duplicates df = body "remove_duplicates" (drop_duplicates_last (Some ["event_id"]) df) ∧
  (is_empty df = false → has_column "event_id" df = true →
   remove_duplicates df =
     Returned {| columns := columns df; rows := keep_last (cell "event_id") (rows df) |}).
Proof.
  split; [apply remove_duplicates_by_event_id|]. intros He Hc.
  by rewrite remove_duplicates_by_event_id, drop_duplicates_last_event_id.
Qed.

Lemma remove_duplicates_single_pass_witness :
  remove_duplicates duplicated_table =
    body "remove_duplicates" (drop_duplicates_last (Some ["event_id"]) duplicated_table) ∧
  remove_duplicates duplicated_table =
    Returned {| columns := columns duplicated_table;
                rows := keep_last (cell "event_id") (rows duplicated_table) |}.
Proof.
  destruct (remove_duplicates_single_pass duplicated_table) as [H1 H2].
  split; [exact H1|apply H2; reflexivity].
Defined.

Lemma remove_duplicates_rows df :
  has_column "event_id" df = true →
  remove_duplicates df =
    Returned {| columns := columns df; rows := keep_last (cell "event_id") (rows df) |}.
Proof.
  intros Hc. rewrite remove_duplicates_by_event_id. destruct (is_empty df) eqn:He.
  - rewrite drop_duplicates_last_empty by done. cbn [body]. f_equal.
    destruct df as [cols rs]. unfold is_empty in He. cbn [columns rows] in *. f_equal.
    destruct cols; [done|]. by destruct rs.
  - by rewrite drop_duplicates_last_event_id.
Qed.

(** X18.  On a table with an [event_id] column [remove_duplicates] keeps the
    columns and returns a subsequence of the rows in which no [event_id]
    occurs twice; every [event_id] of the input is still there, and the row
    kept for it is the last row of the input with that [event_id]. *)
Theorem remove_duplicates_keeps_last df :
  has_column "event_id" df = true →
  ∃ df', remove_duplicates df = Returned df' ∧
    columns df' = columns df ∧
    rows df' `sublist_of` rows df ∧
    NoDup (cell "event_id" <$> rows df') ∧
    (∀ r, r ∈ rows df → ∃ r', r' ∈ rows df' ∧ cell "event_id" r' = cell "event_id" r) ∧
    (∀ r', r' ∈ rows df' →
       ∃ l1 l2, rows df = l1 ++ r' :: l2 ∧ cell "event_id" r' ∉ cell "event_id" <$> l2).
Proof.
  intros Hc. rewrite remove_duplicates_rows by done. eexists. split; [done|].
  cbn [columns rows]. split_and!.
  - done.
  - apply keep_last_sublist.
  - apply keep_last_NoDup.
  - intros r Hr.
    assert (cell "event_id" r ∈ cell "event_id" <$> keep_last (cell "event_id") (rows df))
      as (r' & Hr' & Hin)%list_elem_of_fmap.
    { apply keep_last_keys, list_elem_of_fmap. by exists r. }
    by exists r'.
  - intros r' Hr'. by apply (keep_last_last (cell "event_id")).
Qed.

Lemma remove_duplicates_keeps_last_witness :
  ∃ df', remove_duplicates duplicated_table = Returned df' ∧
    columns df' = columns duplicated_table ∧
    rows df' `sublist_of` rows duplicated_table ∧
    NoDup (cell "event_id" <$> rows df') ∧
    (∀ r, r ∈ rows duplicated_table →
       ∃ r', r' ∈ rows df' ∧ cell "event_id" r' = cell "event_id" r) ∧
    (∀ r', r' ∈ rows df' →
       ∃ l1 l2, rows duplicated_table = l1 ++ r' :: l2 ∧
                cell "event_id" r' ∉ cell "event_id" <$> l2).
Proof. apply (remove_duplicates_keeps_last duplicated_table). reflexivity. Defined.

(** The example: the last delivery of [e1] is kept, after [e2]. *)
Example remove_duplicates_example :
  ∃ df', remove_duplicates duplicated_table = Returned df' ∧
    rows df' = [{[ "event_id" := VStr "e2"; "status" := VStr "ok" ]};
                {[ "event_id" := VStr "e1"; "status" := VStr "ok" ]}].
Proof. eexists. split; [vm_compute; reflexivity|]. reflexivity. Qed.

(** X19.  [remove_duplicates] is idempotent: applied to a table it has
    returned, it returns that table. *)
Theorem remove_duplicates_idempotent df df' :
  remove_duplicates df = Returned df' → remove_duplicates df' = Returned df'.
Proof.
  rewrite !remove_duplicates_by_event_id. destruct (is_empty df) eqn:He.
  - rewrite drop_duplicates_last_empty by done. intros [= <-].
    by rewrite drop_duplicates_last_empty.
  - destruct (has_column "event_id" df) eqn:Hc.
    + rewrite drop_duplicates_last_event_id by done. intros [= <-].
      rewrite drop_duplicates_last_event_id; [|..].
      * cbn [body columns rows]. by rewrite keep_last_idemp.
      * apply is_empty_false in He as [Hcs Hrs]. apply is_empty_false.
        split; [done|]. cbn [rows]. by intros ?%keep_last_nil.
      * done.
    + by rewrite drop_duplicates_last_missing.
Qed.

Lemma remove_duplicates_idempotent_witness :
  remove_duplicates (mkDF (columns duplicated_table)
                       (keep_last (cell "event_id") (rows duplicated_table))) =
  Returned (mkDF (columns duplicated_table)
              (keep_last (cell "event_id") (rows duplicated_table))).
Proof. apply (remove_duplicates_idempotent duplicated_table). reflexivity. Defined.

(** X20.  Without an [event_id] column [remove_duplicates] raises
    [KeyError] for [event_id], unless the table is empty (no row or no
    column): an empty table is returned as it is. *)
Theorem remove_duplicates_without_event_id df :
  has_column "event_id" df = false →
  (is_empty df = true → remove_duplicates df = Returned df) ∧
  (is_empty df = false →
   remove_duplicates df = Raised "remove_duplicates" (KeyError "event_id")).
Proof.
  intros Hc. rewrite remove_duplicates_by_event_id. split; intros He.
  - by rewrite drop_duplicates_last_empty.
  - by rewrite drop_duplicates_last_missing.
Qed.

Lemma remove_duplicates_without_event_id_witness :
  remove_duplicates no_rows_table = Returned no_rows_table ∧
  remove_duplicates no_event_id_rows = Raised "remove_duplicates" (KeyError "event_id").
Proof.
  split.
  - apply (remove_duplicates_without_event_id no_rows_table); reflexivity.
  - apply (remove_duplicates_without_event_id no_event_id_rows); reflexivity.
Defined.

(** ** Schema validation *)

Section validate_schema_facts.
Context (py_str : value → string).

Lemma elem_of_texts c df s :
  s ∈ texts py_str c df ↔ ∃ r, r ∈ rows df ∧ astype_string py_str (cell c r) = VStr s.
Proof.
  unfold texts. rewrite list_elem_of_omap. split.
  - intros (v & (r & -> & Hr)%list_elem_of_fmap & Hs). exists r. split; [done|].
    destruct (astype_string py_str (cell c r)); by simplify_eq.
  - intros (r & Hr & Hs). exists (cell c r). split; [by apply list_elem_of_fmap_2|].
    by rewrite Hs.
Qed.

Lemma elem_of_invalid_values c allowed df s :
  s ∈ invalid_values py_str c allowed df ↔ s ∈ texts py_str c df ∧ s ∉ allowed.
Proof.
  unfold invalid_values. rewrite stable_sort_perm, elem_of_remove_dups, list_elem_of_filter.
  tauto.
Qed.

Lemma invalid_values_nil c allowed df :
  invalid_values py_str c allowed df = [] ↔ ∀ s, s ∈ texts py_str c df → s ∈ allowed.
Proof.
  split.
  - intros Hnil s Hs. destruct (decide (s ∈ allowed)) as [|Hn]; [done|].
    assert (s ∈ invalid_values py_str c allowed df) as Hin
      by by apply elem_of_invalid_values.
    rewrite Hnil in Hin. by apply elem_of_nil in Hin.
  - intros Hall. apply elem_of_nil_inv. intros s [Hs Hn]%elem_of_invalid_values.
    by apply Hn, Hall.
Qed.

(** The list is in ascending order without repetition. *)
Lemma invalid_values_sorted c allowed df :
  StronglySorted (λ a b, String.leb a b = true ∧ a ≠ b)
    (invalid_values py_str c allowed df).
Proof.
  unfold invalid_values.
  set (l := remove_dups _).
  assert (NoDup (stable_sort String.leb l)) as Hnd
    by (rewrite stable_sort_perm; apply NoDup_remove_dups).
  pose proof (stable_sort_sorted String.leb String.leb_total string_leb_trans l) as Hs.
  induction Hs as [|x k Hk IH Hx]; [constructor|].
  apply NoDup_cons in Hnd as [Hxk Hnd]. constructor; [by apply IH|].
  apply Forall_forall. intros y Hy. rewrite Forall_forall in Hx.
  split; [by apply Hx|]. by intros ->.
Qed.

End validate_schema_facts.

Section validate_schema_results.
Context (py_str : value → string).

Lemma required_has_column df c :
  (∀ c, c ∈ REQUIRED_COLUMNS → c ∈ col_names df) → c ∈ REQUIRED_COLUMNS →
  has_column c df = true.
Proof. intros Hall Hc. by apply has_column_true, Hall. Qed.

Lemma nat_count_zero (vs : list value) :
  bool_decide (Z.of_nat (length (filter (λ v, v = VNA) vs)) > 0) = false ↔
  ∀ v, v ∈ vs → v ≠ VNA.
Proof.
  rewrite bool_decide_eq_false. split.
  - intros Hn v Hv ->. apply Hn.
    assert (VNA ∈ filter (λ v, v = VNA) vs) as Hin by by apply list_elem_of_filter.
    destruct (filter _ vs); [by apply elem_of_nil in Hin|simpl; lia].
  - intros Hall. assert (filter (λ v, v = VNA) vs = []) as ->; [|simpl; lia].
    apply elem_of_nil_inv. intros v [-> Hv]%list_elem_of_filter. by apply (Hall VNA).
Qed.

(** The dictionary on a table that has the required columns. *)
Lemma validate_schema_required df :
  (∀ c, c ∈ REQUIRED_COLUMNS → c ∈ col_names df) →
  validate_schema py_str df =
    let issues : gmap string issue :=
      if negb (is_datetime64_any_dtype "timestamp" df)
      then {[ "timestamp_dtype" :=
                DtypeIssue (default DObject (col_dtype "timestamp" (columns df))) ]}
      else
        let nat_count :=
          Z.of_nat (length (filter (λ v, v = VNA) (cell "timestamp" <$> rows df))) in
        if bool_decide (nat_count > 0)
        then {[ "timestamp_NaT_count" := CountIssue nat_count ]}
        else ∅ in
    let issues :=
      match invalid_values py_str "status" allowed_status df with
      | [] => issues
      | _ :: _ =>
          <["invalid_status_values" :=
              ValuesIssue (invalid_values py_str "status" allowed_status df)]> issues
      end in
    match invalid_values py_str "severity" allowed_severity df with
    | [] => issues
    | _ :: _ =>
        <["invalid_severity_values" :=
            ValuesIssue (invalid_values py_str "severity" allowed_severity df)]> issues
    end.
Proof.
  intros Hall. unfold validate_schema.
  rewrite validate_required_columns_Valid by done.
  rewrite !(required_has_column df) by (try done; by compute_done).
  reflexivity.
Qed.

End validate_schema_results.

(** X21.  [validate_schema] reports nothing exactly when the seven required
    columns are there, [timestamp] is temporal and has no missing value, and
    every status and every severity that is not missing is, as text, one of
    the allowed values. *)
Theorem validate_schema_no_issues py_str df :
  validate_schema py_str df = ∅ ↔
    (∀ c, c ∈ REQUIRED_COLUMNS → c ∈ col_names df) ∧
    is_datetime64_any_dtype "timestamp" df = true ∧
    (∀ r, r ∈ rows df → cell "timestamp" r ≠ VNA) ∧
    (∀ r s, r ∈ rows df → astype_string py_str (cell "status" r) = VStr s →
            s ∈ allowed_status) ∧
    (∀ r s, r ∈ rows df → astype_string py_str (cell "severity" r) = VStr s →
            s ∈ allowed_severity).
Proof.
  destruct (decide (Forall (λ c, c ∈ col_names df) REQUIRED_COLUMNS)) as [Hall|Hex].
  - rewrite Forall_forall in Hall. rewrite validate_schema_required by done. cbv zeta.
    pose proof (nat_count_zero (cell "timestamp" <$> rows df)) as Hn.
    pose proof (invalid_values_nil py_str "status" allowed_status df) as Hs.
    pose proof (invalid_values_nil py_str "severity" allowed_severity df) as Hv.
    assert (Hts : (∀ v, v ∈ cell "timestamp" <$> rows df → v ≠ VNA) ↔
                  (∀ r, r ∈ rows df → cell "timestamp" r ≠ VNA)).
    { split.
      - intros H r Hr. by apply H, list_elem_of_fmap_2.
      - intros H v (r & -> & Hr)%list_elem_of_fmap. by apply H. }
    assert (Htx : ∀ c (allowed : list string),
              (∀ s, s ∈ texts py_str c df → s ∈ allowed) ↔
              (∀ r s, r ∈ rows df → astype_string py_str (cell c r) = VStr s → s ∈ allowed)).
    { intros c allowed. split.
      - intros H r s Hr Heq. apply H, elem_of_texts. eauto.
      - intros H s (r & Hr & Heq)%elem_of_texts. eauto. }
    rewrite <-Hts, <-!Htx, <-Hn, <-Hs, <-Hv.
    destruct (is_datetime64_any_dtype "timestamp" df); cbn [negb];
      destruct (bool_decide _);
      destruct (invalid_values py_str "status" allowed_status df);
      destruct (invalid_values py_str "severity" allowed_severity df);
      split; try (intros H; by apply insert_non_empty in H);
      try (intros (_ & ? & ? & ? & ?); done); try done.
  - split.
    + intros H. exfalso.
      apply not_Forall_Exists, Exists_exists in Hex as (c & Hc & Hn); [|apply _].
      unfold validate_schema in H.
      rewrite (validate_required_columns_Missing df None c) in H by done.
      by apply insert_non_empty in H.
    + intros (Hall & _). exfalso. apply Hex, Forall_forall. exact Hall.
Qed.

(** X22.  On a table with the required columns the entry
    [invalid_status_values] (and likewise [invalid_severity_values]) is there
    exactly when some status is not allowed; it lists the texts that occur in
    the column and are not allowed, each once, in ascending order.  The entry
    [missing_columns] is not there. *)
Theorem validate_schema_invalid_values py_str df :
  (∀ c, c ∈ REQUIRED_COLUMNS → c ∈ col_names df) →
  let vs := invalid_values py_str "status" allowed_status df in
  let ws := invalid_values py_str "severity" allowed_severity df in
  validate_schema py_str df !! "missing_columns" = None ∧
  validate_schema py_str df !! "invalid_status_values" =
    (if decide (vs = []) then None else Some (ValuesIssue vs)) ∧
  validate_schema py_str df !! "invalid_severity_values" =
    (if decide (ws = []) then None else Some (ValuesIssue ws)) ∧
  StronglySorted (λ a b, String.leb a b = true ∧ a ≠ b) vs ∧
  StronglySorted (λ a b, String.leb a b = true ∧ a ≠ b) ws ∧
  (∀ s, s ∈ vs ↔
     (∃ r, r ∈ rows df ∧ astype_string py_str (cell "status" r) = VStr s) ∧
     s ∉ allowed_status) ∧
  (∀ s, s ∈ ws ↔
     (∃ r, r ∈ rows df ∧ astype_string py_str (cell "severity" r) = VStr s) ∧
     s ∉ allowed_severity).
Proof.
  intros Hall vs ws. rewrite validate_schema_required by done. cbv zeta.
  fold vs ws. split_and!.
  - destruct (is_datetime64_any_dtype "timestamp" df); cbn [negb];
      [destruct (bool_decide (_ > 0))|]; destruct vs; destruct ws; by simplify_map_eq.
  - destruct (is_datetime64_any_dtype "timestamp" df); cbn [negb];
      [destruct (bool_decide (_ > 0))|]; destruct vs; destruct ws; by simplify_map_eq.
  - destruct (is_datetime64_any_dtype "timestamp" df); cbn [negb];
      [destruct (bool_decide (_ > 0))|]; destruct vs; destruct ws; by simplify_map_eq.
  - apply invalid_values_sorted.
  - apply invalid_values_sorted.
  - intros s. unfold vs. by rewrite elem_of_invalid_values, elem_of_texts.
  - intros s. unfold ws. by rewrite elem_of_invalid_values, elem_of_texts.
Qed.

Lemma validate_schema_no_issues_witness :
  validate_schema no_text clean_table = ∅ ↔
    (∀ c, c ∈ REQUIRED_COLUMNS → c ∈ col_names clean_table) ∧
    is_datetime64_any_dtype "timestamp" clean_table = true ∧
    (∀ r, r ∈ rows clean_table → cell "timestamp" r ≠ VNA) ∧
    (∀ r s, r ∈ rows clean_table → astype_string no_text (cell "status" r) = VStr s →
            s ∈ allowed_status) ∧
    (∀ r s, r ∈ rows clean_table → astype_string no_text (cell "severity" r) = VStr s →
            s ∈ allowed_severity).
Proof. apply (validate_schema_no_issues no_text clean_table). Defined.

Lemma validate_schema_invalid_values_witness :
  let vs := invalid_values no_text "status" allowed_status odd_values_table in
  let ws := invalid_values no_text "severity" allowed_severity odd_values_table in
  validate_schema no_text odd_values_table !! "missing_columns" = None ∧
  validate_schema no_text odd_values_table !! "invalid_status_values" =
    (if decide (vs = []) then None else Some (ValuesIssue vs)) ∧
  validate_schema no_text odd_values_table !! "invalid_severity_values" =
    (if decide (ws = []) then None else Some (ValuesIssue ws)) ∧
  StronglySorted (λ a b, String.leb a b = true ∧ a ≠ b) vs ∧
  StronglySorted (λ a b, String.leb a b = true ∧ a ≠ b) ws ∧
  (∀ s, s ∈ vs ↔
     (∃ r, r ∈ rows odd_values_table ∧
           astype_string no_text (cell "status" r) = VStr s) ∧
     s ∉ allowed_status) ∧
  (∀ s, s ∈ ws ↔
     (∃ r, r ∈ rows odd_values_table ∧
           astype_string no_text (cell "severity" r) = VStr s) ∧
     s ∉ allowed_severity).
Proof.
  apply (validate_schema_invalid_values no_text odd_values_table).
  apply Forall_forall. repeat constructor; vm_compute; tauto.
Defined.

(** The dictionaries for the two example tables. *)
Example validate_schema_example :
  validate_schema no_text clean_table = ∅ ∧
  validate_schema no_text odd_values_table =
    {[ "invalid_status_values" := ValuesIssue ["maybe"];
       "invalid_severity_values" := ValuesIssue ["fatal"] ]} ∧
  validate_schema no_text text_timestamp_table =
    {[ "missing_columns" := MissingIssue ["event_type"; "status"; "source_ip"] ]}.
Proof. split_and!; reflexivity. Qed.

(** ** Validation after the core *)

Lemma string_leb_antisym : AntiSymm eq (λ a b, String.leb a b = true).
Proof. intros a b. apply String.leb_antisym. Qed.

Lemma stable_sort_remove_dups_perm (l k : list string) :
  l ≡ₚ k →
  stable_sort String.leb (remove_dups l) = stable_sort String.leb (remove_dups k).
Proof.
  intros Hlk.
  apply (@StronglySorted_unique _ (λ a b, String.leb a b = true) string_leb_antisym).
  - apply stable_sort_sorted; [apply String.leb_total|apply string_leb_trans].
  - apply stable_sort_sorted; [apply String.leb_total|apply string_leb_trans].
  - rewrite !stable_sort_perm. apply NoDup_Permutation; [apply NoDup_remove_dups..|].
    intros x. rewrite !elem_of_remove_dups. by rewrite Hlk.
Qed.

Section validate_schema_ext.
Context (py_str : value → string).

Lemma invalid_values_perm c allowed df df' :
  cell c <$> rows df' ≡ₚ cell c <$> rows df →
  invalid_values py_str c allowed df' = invalid_values py_str c allowed df.
Proof.
  intros Hp. unfold invalid_values, texts. apply stable_sort_remove_dups_perm.
  by rewrite Hp.
Qed.

(** The dictionary depends on the names of the columns, the dtype of
    [timestamp] and the cells of three columns, whatever their order. *)
Lemma validate_schema_perm df df' :
  (∀ c, c ∈ REQUIRED_COLUMNS → c ∈ col_names df' ↔ c ∈ col_names df) →
  col_dtype "timestamp" (columns df') = col_dtype "timestamp" (columns df) →
  (∀ c, c ∈ ["timestamp"; "status"; "severity"] →
        cell c <$> rows df' ≡ₚ cell c <$> rows df) →
  validate_schema py_str df' = validate_schema py_str df.
Proof.
  intros Hcols Hdt Hcells.
  assert (Hhas : ∀ c, c ∈ REQUIRED_COLUMNS → has_column c df' = has_column c df).
  { intros c Hc. unfold has_column. apply bool_decide_ext. by apply Hcols. }
  assert (Hreq : validate_required_columns df' None = Valid df' ∧
                 validate_required_columns df None = Valid df ∨
                 ∃ missing, validate_required_columns df' None = MissingRequired missing ∧
                            validate_required_columns df None = MissingRequired missing).
  { unfold validate_required_columns. cbn [from_option id].
    rewrite (filter_ext_elem (λ c, c ∉ col_names df') (λ c, c ∉ col_names df)
               REQUIRED_COLUMNS) by (intros c Hc; by rewrite Hcols).
    destruct (filter _ _); eauto. }
  unfold validate_schema. destruct Hreq as [[-> ->]|(missing & -> & ->)]; [|done].
  rewrite !(Hhas "status"), !(Hhas "severity") by by compute_done.
  rewrite !(invalid_values_perm _ _ df df') by (apply Hcells; by compute_done).
  unfold is_datetime64_any_dtype. rewrite Hdt.
  assert (length (filter (λ v, v = VNA) (cell "timestamp" <$> rows df')) =
          length (filter (λ v, v = VNA) (cell "timestamp" <$> rows df))) as ->; [|done].
  apply Permutation_length. rewrite (Hcells "timestamp") by by compute_done. done.
Qed.

End validate_schema_ext.

(** The core keeps the cells of every input column, in another order. *)
Lemma cell_attach_other rs (g : list Row) (ids : list Z) c :
  c ≠ "session_id" → c ≠ "session_event_count" → c ≠ "session_duration_seconds" →
  length g = length ids →
  cell c <$> zip_with (attach_session rs) g ids = cell c <$> g.
Proof.
  intros H1 H2 H3. revert ids.
  induction g as [|r g IH]; intros [|n ids] Hlen; simplify_eq/=; [done|].
  by rewrite attach_session_cell_other, IH.
Qed.

Lemma run_all_cells df gap :
  valid_input df = true →
  ∃ df', run_all df gap = Returned df' ∧
    columns df' = columns df ++ derived_columns ∧
    ∀ c, c ∉ derived_names → cell c <$> rows df' ≡ₚ cell c <$> rows df.
Proof.
  intros Hv. destruct (run_all_session_stage df gap Hv) as (df3 & Hrun & Hv3 & Hc3 & Hr3).
  destruct (add_session_features_attach df3 gap Hv3) as [cols Hret].
  pose proof (run_all_table df gap Hv) as Htab. rewrite Hrun, Hret in Htab.
  injection Htab as Hcols Hrows.
  eexists. split; [by rewrite Hrun, Hret|]. cbn [columns rows]. split; [done|].
  intros c Hc. unfold derived_names, session_names in Hc. cbn [app] in Hc.
  rewrite !not_elem_of_cons in Hc. destruct Hc as (? & ? & ? & ? & ? & ? & _).
  cbv zeta. rewrite cell_attach_other by (try done; by rewrite length_session_ids).
  rewrite stable_sort_perm, Hr3, <-list_fmap_compose.
  erewrite fmap_ext_elem; [done|]. intros r _. unfold compose, with_user_features.
  by rewrite !cell_insert_ne.
Qed.

(** X23.  Validation after the core reports what validation before the core
    would have reported: on a valid table [validate_schema] returns the same
    dictionary for the output of [run_all] as for its input. *)
Theorem validate_schema_after_run_all py_str df gap :
  valid_input df = true → gap_ok gap = true →
  ∃ df', run_all df gap = Returned df' ∧
    validate_schema py_str df' = validate_schema py_str df.
Proof.
  intros Hv _. destruct (run_all_cells df gap Hv) as (df' & Hrun & Hcols & Hcells).
  exists df'. split; [done|]. apply validate_schema_perm.
  - intros c Hc. unfold col_names. rewrite Hcols, fmap_app, elem_of_app.
    split; [|by left]. intros [?|Hd]; [done|]. exfalso.
    unfold REQUIRED_COLUMNS in Hc. rewrite !elem_of_cons in Hc.
    destruct Hc as [->|[->|[->|[->|[->|[->|[->|[]%elem_of_nil]]]]]]];
      vm_compute in Hd; rewrite ?elem_of_cons in Hd; set_solver.
  - rewrite Hcols. apply valid_input_inv in Hv as (_ & (Hts & _)%valid_table_inv & _).
    rewrite Hts. by apply col_dtype_app_l.
  - intros c Hc. apply Hcells. rewrite !elem_of_cons in Hc.
    destruct Hc as [->|[->|[->|[]%elem_of_nil]]]; by compute_done.
Qed.

Lemma validate_schema_after_run_all_witness :
  ∃ df', run_all clean_table 30 = Returned df' ∧
    validate_schema no_text df' = validate_schema no_text clean_table.
Proof. apply (validate_schema_after_run_all no_text clean_table 30); reflexivity. Defined.

(** * Timestamps *)

Lemma filter_zip_with_insert c (rs : list Row) (vs : list value) :
  length vs = length rs →
  filter (λ r, cell c r ≠ VNA) (zip_with (λ r v, <[c := v]> r) rs vs) =
  (λ p, <[c := p.2]> p.1) <$> filter (λ p : Row * value, p.2 ≠ VNA) (zip rs vs).
Proof.
  revert vs. induction rs as [|r rs IH]; intros [|v vs] Hlen; simplify_eq/=; [done|].
  rewrite !filter_cons, cell_insert_eq. cbn [snd].
  destruct (decide (v ≠ VNA)); csimpl; by rewrite IH.
Qed.

(** X24.  [standardize_timestamps] with [drop_invalid], on a column that the
    parser turns into a column of the same length: the returned table holds
    the rows whose timestamp was parsed, in their order, with the parsed
    timestamp and their other cells unchanged; no timestamp is missing; the
    column has the dtype that the parser returns.  Without [drop_invalid] all
    rows are kept. *)
Theorem standardize_timestamps_drops_invalid
    (to_datetime : Series → res Series) df column col ts :
  getcol column df = Ok col → to_datetime col = Ok ts →
  length (svals ts) = length (rows df) →
  ∃ df', standardize_timestamps to_datetime df column true = Returned df' ∧
    columns df' = set_dtype column (sdtype ts) (columns df) ∧
    rows df' = (λ p, <[column := p.2]> p.1)
                 <$> filter (λ p : Row * value, p.2 ≠ VNA) (zip (rows df) (svals ts)) ∧
    (∀ r', r' ∈ rows df' → cell column r' ≠ VNA) ∧
    (sdtype ts = DDatetime → is_datetime64_any_dtype column df' = true) ∧
    standardize_timestamps to_datetime df column false = Returned (setcol column ts df).
Proof.
  intros Hcol Hts Hlen. unfold standardize_timestamps.
  assert (has_column column df = true) as ->.
  { apply has_column_true. unfold getcol in Hcol.
    destruct (col_dtype column (columns df)) eqn:E; [|done]. by eapply col_dtype_Some_elem. }
  cbn [negb]. unfold body. rewrite Hcol. cbn [mbind res_bind]. rewrite Hts.
  cbn [mbind res_bind].
  rewrite (getcol_Ok column (setcol column ts df) (sdtype ts))
    by apply col_dtype_set_dtype_eq.
  cbn [mbind res_bind]. eexists. split; [done|]. cbn [columns rows setcol].
  split_and!; try done.
  - by apply filter_zip_with_insert.
  - by intros r' [? _]%list_elem_of_filter.
  - intros Hdt. unfold is_datetime64_any_dtype. cbn [columns].
    by rewrite col_dtype_set_dtype_eq, Hdt.
Qed.

Lemma standardize_timestamps_drops_invalid_witness :
  ∃ df', standardize_timestamps keep_times raw_times_table "timestamp" true = Returned df' ∧
    columns df' = set_dtype "timestamp" DDatetime (columns raw_times_table) ∧
    rows df' = (λ p, <["timestamp" := p.2]> p.1)
                 <$> filter (λ p : Row * value, p.2 ≠ VNA)
                       (zip (rows raw_times_table) [VTime 5; VNA; VTime 3]) ∧
    (∀ r', r' ∈ rows df' → cell "timestamp" r' ≠ VNA) ∧
    (DDatetime = DDatetime → is_datetime64_any_dtype "timestamp" df' = true) ∧
    standardize_timestamps keep_times raw_times_table "timestamp" false =
      Returned (setcol "timestamp" (mkS DDatetime [VTime 5; VNA; VTime 3]) raw_times_table).
Proof.
  apply (standardize_timestamps_drops_invalid keep_times raw_times_table "timestamp"
           (mkS DObject [VTime 5; VStr "n/a"; VTime 3])
           (mkS DDatetime [VTime 5; VNA; VTime 3])); reflexivity.
Defined.
